(** * CmdMessenger: escape codec, frame reader, argument tokenizer,
      typed reads and command writer, embedded from [CmdMessenger.h].

    Bytes ([char], [uint8_t]) are integers in [Z]; the only operations
    the engine performs on them are equality tests and copies.  The
    command buffer is a list of bytes addressed by index; a [char *]
    into it is an index, the null pointer is [None].  Every access
    outside the buffer, and every null dereference, makes the embedded
    function return [None]. *)

From Stdlib Require Import ZArith List Lia Bool String Ascii QArith DecimalString
  DecimalPos.
From stdpp Require Import base option list.
Import ListNotations.

Open Scope Z_scope.

(** ** Memory *)

Definition load (buf : list Z) (p : nat) : option Z := buf !! p.

Definition store (buf : list Z) (p : nat) (v : Z) : option (list Z) :=
  if (p <? length buf)%nat then Some (<[p:=v]> buf) else None.

(** The C string that starts at [p]: the bytes before the first null. *)
Fixpoint cstr (l : list Z) : option (list Z) :=
  match l with
  | [] => None
  | c :: l => if c =? 0 then Some [] else s ← cstr l; Some (c :: s)
  end.

Definition cstr_at (buf : list Z) (p : nat) : option (list Z) :=
  cstr (drop p buf).

(** ** Escape codec *)

Module Codec.

(** [isEscaped(currChar, escapeChar, lastChar)]: the result and the new
    content of the [lastChar] cell.  The first test uses the parameter
    [escapeChar], the second the member [escape_character]. *)
Definition isEscaped (escape_character : Z) (currChar escapeChar lastChar : Z)
  : bool * Z :=
  let escaped := lastChar =? escapeChar in
  let lastChar := currChar in
  let lastChar :=
    if (lastChar =? escape_character) && escaped then 0 else lastChar in
  (escaped, lastChar).

(** A stream of raw bytes pushed through [isEscaped] with one running
    cell: the flags reported, and the cell at the end. *)
Fixpoint isEscaped_run (esc : Z) (lastChar : Z) (s : list Z) : list bool * Z :=
  match s with
  | [] => ([], lastChar)
  | c :: s =>
      let '(e, lastChar) := isEscaped esc c esc lastChar in
      let '(es, lastChar) := isEscaped_run esc lastChar s in
      (e :: es, lastChar)
  end.

(** [printEsc(char)]: the bytes handed to the transport. *)
Definition printEsc (fs cs esc : Z) (c : Z) : list Z :=
  if (c =? fs) || (c =? cs) || (c =? esc) || (c =? 0)
  then [esc; c] else [c].

(** [printEsc(char * )]: stops at the first null. *)
Fixpoint printEsc_str (fs cs esc : Z) (str : list Z) : list Z :=
  match str with
  | [] => []
  | c :: str =>
      if c =? 0 then [] else printEsc fs cs esc c ++ printEsc_str fs cs esc str
  end.

(** The copy loop of [unescape]; [fuel] bounds the iterations, the
    buffer is finite and [fromChar] grows at each one. *)
Fixpoint unescape_loop (fuel : nat) (esc : Z) (buf : list Z)
    (fromChar toChar : nat) : option (list Z * nat * nat) :=
  match fuel with
  | O => None
  | S fuel =>
      c ← load buf fromChar;
      if c =? 0 then Some (buf, fromChar, toChar)
      else
        let fromChar := if c =? esc then S fromChar else fromChar in
        v ← load buf fromChar;
        buf ← store buf toChar v;
        unescape_loop fuel esc buf (S fromChar) (S toChar)
  end.

(** The padding loop of [unescape]: [n] is [fromChar - toChar]. *)
Fixpoint unescape_pad (n : nat) (buf : list Z) (toChar : nat)
  : option (list Z) :=
  match n with
  | O => Some buf
  | S n => buf ← store buf toChar 0; unescape_pad n buf (S toChar)
  end.

Definition unescape (esc : Z) (buf : list Z) (str : nat) : option (list Z) :=
  '(buf, fromChar, toChar) ← unescape_loop (S (length buf)) esc buf str str;
  unescape_pad (fromChar - toChar) buf toChar.

End Codec.

(** ** The engine *)

Module Engine.

Definition MESSENGERBUFFERSIZE : Z := 192.
Definition MAXSTREAMBUFFERSIZE : Z := 512.
Definition DEFAULT_TIMEOUT : Z := 5000.

Inductive MessageState :=
| kProccesingMessage
| kEndOfMessage
| kProcessingArguments.

(** The private members of the class.  [current] and [last] point into
    [commandBuffer].  [streamBuffer] is scratch space of
    [feedinSerialData], [comms] is the environment below, and
    [default_callback] is a parameter of the dispatch loop. *)
Record CmdMessenger := mkCmdMessenger {
  startCommand : bool;
  pauseProcessing : bool;
  print_newlines : bool;
  dumped : bool;
  ArgOk : bool;
  lastCommandId : Z;
  bufferIndex : Z;
  bufferLength : Z;
  bufferLastIndex : Z;
  ArglastChar : Z;
  CmdlastChar : Z;
  commandBuffer : list Z;
  messageState : MessageState;
  current : option nat;
  last : option nat;
  command_separator : Z;
  field_separator : Z;
  escape_character : Z
}.

Definition set_startCommand (v : bool) (st : CmdMessenger) : CmdMessenger :=
  {| startCommand := v; pauseProcessing := pauseProcessing st;
     print_newlines := print_newlines st; dumped := dumped st; ArgOk :=
     ArgOk st; lastCommandId := lastCommandId st; bufferIndex := bufferIndex
     st; bufferLength := bufferLength st; bufferLastIndex := bufferLastIndex
     st; ArglastChar := ArglastChar st; CmdlastChar := CmdlastChar st;
     commandBuffer := commandBuffer st; messageState := messageState st;
     current := current st; last := last st; command_separator :=
     command_separator st; field_separator := field_separator st;
     escape_character := escape_character st |}.

Definition set_pauseProcessing (v : bool) (st : CmdMessenger) : CmdMessenger :=
  {| startCommand := startCommand st; pauseProcessing := v; print_newlines
     := print_newlines st; dumped := dumped st; ArgOk := ArgOk st;
     lastCommandId := lastCommandId st; bufferIndex := bufferIndex st;
     bufferLength := bufferLength st; bufferLastIndex := bufferLastIndex st;
     ArglastChar := ArglastChar st; CmdlastChar := CmdlastChar st;
     commandBuffer := commandBuffer st; messageState := messageState st;
     current := current st; last := last st; command_separator :=
     command_separator st; field_separator := field_separator st;
     escape_character := escape_character st |}.

Definition set_print_newlines (v : bool) (st : CmdMessenger) : CmdMessenger :=
  {| startCommand := startCommand st; pauseProcessing := pauseProcessing st;
     print_newlines := v; dumped := dumped st; ArgOk := ArgOk st;
     lastCommandId := lastCommandId st; bufferIndex := bufferIndex st;
     bufferLength := bufferLength st; bufferLastIndex := bufferLastIndex st;
     ArglastChar := ArglastChar st; CmdlastChar := CmdlastChar st;
     commandBuffer := commandBuffer st; messageState := messageState st;
     current := current st; last := last st; command_separator :=
     command_separator st; field_separator := field_separator st;
     escape_character := escape_character st |}.

Definition set_dumped (v : bool) (st : CmdMessenger) : CmdMessenger :=
  {| startCommand := startCommand st; pauseProcessing := pauseProcessing st;
     print_newlines := print_newlines st; dumped := v; ArgOk := ArgOk st;
     lastCommandId := lastCommandId st; bufferIndex := bufferIndex st;
     bufferLength := bufferLength st; bufferLastIndex := bufferLastIndex st;
     ArglastChar := ArglastChar st; CmdlastChar := CmdlastChar st;
     commandBuffer := commandBuffer st; messageState := messageState st;
     current := current st; last := last st; command_separator :=
     command_separator st; field_separator := field_separator st;
     escape_character := escape_character st |}.

Definition set_ArgOk (v : bool) (st : CmdMessenger) : CmdMessenger :=
  {| startCommand := startCommand st; pauseProcessing := pauseProcessing st;
     print_newlines := print_newlines st; dumped := dumped st; ArgOk := v;
     lastCommandId := lastCommandId st; bufferIndex := bufferIndex st;
     bufferLength := bufferLength st; bufferLastIndex := bufferLastIndex st;
     ArglastChar := ArglastChar st; CmdlastChar := CmdlastChar st;
     commandBuffer := commandBuffer st; messageState := messageState st;
     current := current st; last := last st; command_separator :=
     command_separator st; field_separator := field_separator st;
     escape_character := escape_character st |}.

Definition set_lastCommandId (v : Z) (st : CmdMessenger) : CmdMessenger :=
  {| startCommand := startCommand st; pauseProcessing := pauseProcessing st;
     print_newlines := print_newlines st; dumped := dumped st; ArgOk :=
     ArgOk st; lastCommandId := v; bufferIndex := bufferIndex st;
     bufferLength := bufferLength st; bufferLastIndex := bufferLastIndex st;
     ArglastChar := ArglastChar st; CmdlastChar := CmdlastChar st;
     commandBuffer := commandBuffer st; messageState := messageState st;
     current := current st; last := last st; command_separator :=
     command_separator st; field_separator := field_separator st;
     escape_character := escape_character st |}.

Definition set_bufferIndex (v : Z) (st : CmdMessenger) : CmdMessenger :=
  {| startCommand := startCommand st; pauseProcessing := pauseProcessing st;
     print_newlines := print_newlines st; dumped := dumped st; ArgOk :=
     ArgOk st; lastCommandId := lastCommandId st; bufferIndex := v;
     bufferLength := bufferLength st; bufferLastIndex := bufferLastIndex st;
     ArglastChar := ArglastChar st; CmdlastChar := CmdlastChar st;
     commandBuffer := commandBuffer st; messageState := messageState st;
     current := current st; last := last st; command_separator :=
     command_separator st; field_separator := field_separator st;
     escape_character := escape_character st |}.

Definition set_ArglastChar (v : Z) (st : CmdMessenger) : CmdMessenger :=
  {| startCommand := startCommand st; pauseProcessing := pauseProcessing st;
     print_newlines := print_newlines st; dumped := dumped st; ArgOk :=
     ArgOk st; lastCommandId := lastCommandId st; bufferIndex := bufferIndex
     st; bufferLength := bufferLength st; bufferLastIndex := bufferLastIndex
     st; ArglastChar := v; CmdlastChar := CmdlastChar st; commandBuffer :=
     commandBuffer st; messageState := messageState st; current := current
     st; last := last st; command_separator := command_separator st;
     field_separator := field_separator st; escape_character :=
     escape_character st |}.

Definition set_CmdlastChar (v : Z) (st : CmdMessenger) : CmdMessenger :=
  {| startCommand := startCommand st; pauseProcessing := pauseProcessing st;
     print_newlines := print_newlines st; dumped := dumped st; ArgOk :=
     ArgOk st; lastCommandId := lastCommandId st; bufferIndex := bufferIndex
     st; bufferLength := bufferLength st; bufferLastIndex := bufferLastIndex
     st; ArglastChar := ArglastChar st; CmdlastChar := v; commandBuffer :=
     commandBuffer st; messageState := messageState st; current := current
     st; last := last st; command_separator := command_separator st;
     field_separator := field_separator st; escape_character :=
     escape_character st |}.

Definition set_commandBuffer (v : list Z) (st : CmdMessenger) : CmdMessenger :=
  {| startCommand := startCommand st; pauseProcessing := pauseProcessing st;
     print_newlines := print_newlines st; dumped := dumped st; ArgOk :=
     ArgOk st; lastCommandId := lastCommandId st; bufferIndex := bufferIndex
     st; bufferLength := bufferLength st; bufferLastIndex := bufferLastIndex
     st; ArglastChar := ArglastChar st; CmdlastChar := CmdlastChar st;
     commandBuffer := v; messageState := messageState st; current := current
     st; last := last st; command_separator := command_separator st;
     field_separator := field_separator st; escape_character :=
     escape_character st |}.

Definition set_messageState (v : MessageState) (st : CmdMessenger) : CmdMessenger :=
  {| startCommand := startCommand st; pauseProcessing := pauseProcessing st;
     print_newlines := print_newlines st; dumped := dumped st; ArgOk :=
     ArgOk st; lastCommandId := lastCommandId st; bufferIndex := bufferIndex
     st; bufferLength := bufferLength st; bufferLastIndex := bufferLastIndex
     st; ArglastChar := ArglastChar st; CmdlastChar := CmdlastChar st;
     commandBuffer := commandBuffer st; messageState := v; current :=
     current st; last := last st; command_separator := command_separator st;
     field_separator := field_separator st; escape_character :=
     escape_character st |}.

Definition set_current (v : option nat) (st : CmdMessenger) : CmdMessenger :=
  {| startCommand := startCommand st; pauseProcessing := pauseProcessing st;
     print_newlines := print_newlines st; dumped := dumped st; ArgOk :=
     ArgOk st; lastCommandId := lastCommandId st; bufferIndex := bufferIndex
     st; bufferLength := bufferLength st; bufferLastIndex := bufferLastIndex
     st; ArglastChar := ArglastChar st; CmdlastChar := CmdlastChar st;
     commandBuffer := commandBuffer st; messageState := messageState st;
     current := v; last := last st; command_separator := command_separator
     st; field_separator := field_separator st; escape_character :=
     escape_character st |}.

Definition set_last (v : option nat) (st : CmdMessenger) : CmdMessenger :=
  {| startCommand := startCommand st; pauseProcessing := pauseProcessing st;
     print_newlines := print_newlines st; dumped := dumped st; ArgOk :=
     ArgOk st; lastCommandId := lastCommandId st; bufferIndex := bufferIndex
     st; bufferLength := bufferLength st; bufferLastIndex := bufferLastIndex
     st; ArglastChar := ArglastChar st; CmdlastChar := CmdlastChar st;
     commandBuffer := commandBuffer st; messageState := messageState st;
     current := current st; last := v; command_separator :=
     command_separator st; field_separator := field_separator st;
     escape_character := escape_character st |}.

Definition reset (st : CmdMessenger) : CmdMessenger :=
  set_dumped true (set_last None (set_current None (set_bufferIndex 0 st))).

(** The constructor, on an object whose storage starts zeroed (the
    members [init] does not assign keep that zero). *)
Definition init (fld_separator cmd_separator esc_character : Z) : CmdMessenger :=
  let st :=
    {| startCommand := false; pauseProcessing := false;
       print_newlines := false; dumped := false; ArgOk := false;
       lastCommandId := 0; bufferIndex := 0;
       bufferLength := MESSENGERBUFFERSIZE mod 256;
       bufferLastIndex := (MESSENGERBUFFERSIZE - 1) mod 256;
       ArglastChar := 0; CmdlastChar := 0;
       commandBuffer := replicate (Z.to_nat MESSENGERBUFFERSIZE) 0;
       messageState := kProccesingMessage; current := None; last := None;
       command_separator := cmd_separator; field_separator := fld_separator;
       escape_character := esc_character |} in
  set_pauseProcessing false (reset st).

Definition is_end (ms : MessageState) : bool :=
  match ms with kEndOfMessage => true | _ => false end.

(** *** Frame reader *)

Definition processLine (st : CmdMessenger) (serialChar : Z)
  : option (MessageState * CmdMessenger) :=
  let st := set_messageState kProccesingMessage st in
  let '(escaped, l) :=
    Codec.isEscaped (escape_character st) serialChar (escape_character st)
      (CmdlastChar st) in
  let st := set_CmdlastChar l st in
  if (serialChar =? command_separator st) && negb escaped then
    buf ← store (commandBuffer st) (Z.to_nat (bufferIndex st)) 0;
    let st := set_commandBuffer buf st in
    let st :=
      if 0 <? bufferIndex st
      then set_CmdlastChar 0
             (set_current (Some 0%nat) (set_messageState kEndOfMessage st))
      else st in
    let st := reset st in
    Some (messageState st, st)
  else
    buf ← store (commandBuffer st) (Z.to_nat (bufferIndex st)) serialChar;
    let st := set_commandBuffer buf st in
    let st := set_bufferIndex ((bufferIndex st + 1) mod 256) st in
    let st := if bufferLastIndex st <=? bufferIndex st then reset st else st in
    Some (messageState st, st).

(** The states returned while a byte list goes through [processLine]. *)
Fixpoint feed (st : CmdMessenger) (bytes : list Z)
  : option (list MessageState * CmdMessenger) :=
  match bytes with
  | [] => Some ([], st)
  | b :: bytes =>
      '(ms, st) ← processLine st b;
      '(mss, st) ← feed st bytes;
      Some (ms :: mss, st)
  end.

(** *** Argument tokenizer *)

(** The loop of [findNext]; the parameter [delim] of the source is
    unused, the member [field_separator] is tested. *)
Fixpoint findNext_loop (fuel : nat) (esc fs : Z) (buf : list Z)
    (str pos : nat) (lastChar : Z) : option (nat * Z) :=
  match fuel with
  | O => None
  | S fuel =>
      c ← load buf str;
      let '(escaped, lastChar) := Codec.isEscaped esc c esc lastChar in
      let EOL := (c =? 0) && negb escaped in
      if EOL then Some (pos, lastChar)
      else if (c =? fs) && negb escaped then Some (pos, lastChar)
      else findNext_loop fuel esc fs buf (S str) (S pos) lastChar
  end.

Definition findNext (st : CmdMessenger) (str : option nat)
  : option (nat * CmdMessenger) :=
  p ← str;
  '(pos, l) ← findNext_loop (S (length (commandBuffer st)))
                (escape_character st) (field_separator st)
                (commandBuffer st) p 0 0;
  Some (pos, set_ArglastChar l st).

(** The loop of [split_r] that strips leading delimiters. *)
Fixpoint split_r_strip (fuel : nat) (st : CmdMessenger) (str : nat)
  : option (nat * CmdMessenger) :=
  match fuel with
  | O => None
  | S fuel =>
      '(pos, st) ← findNext st (Some str);
      c ← load (commandBuffer st) str;
      if (pos =? 0)%nat && negb (c =? 0)
      then split_r_strip fuel st (S str)
      else Some (str, st)
  end.

(** [split_r(str, delim, &last)]: the pointer returned and the state,
    in which [last] is the cell behind [nextp]. *)
Definition split_r (st : CmdMessenger) (str : option nat)
  : option (option nat * CmdMessenger) :=
  str ← (match str with None => last st | Some p => Some p end);
  '(str, st) ← split_r_strip (S (length (commandBuffer st))) st str;
  c ← load (commandBuffer st) str;
  if c =? 0 then Some (None, st)
  else
    let ret := str in
    '(pos, st) ← findNext st (Some str);
    let str := (str + pos)%nat in
    c ← load (commandBuffer st) str;
    '(str, st) ← (if negb (c =? 0)
                  then buf ← store (commandBuffer st) str 0;
                       Some (S str, set_commandBuffer buf st)
                  else Some (str, st));
    Some (Some ret, set_last (Some str) st).

Definition next_default (temppointer : option nat) (st : CmdMessenger)
  : option (bool * CmdMessenger) :=
  st ← (if dumped st
        then '(r, st) ← split_r st temppointer; Some (set_current r st)
        else Some st);
  match current st with
  | Some _ => Some (true, set_dumped true st)
  | None => Some (false, st)
  end.

Definition next (st : CmdMessenger) : option (bool * CmdMessenger) :=
  match messageState st with
  | kProccesingMessage => Some (false, st)
  | kEndOfMessage =>
      next_default (Some 0%nat) (set_messageState kProcessingArguments st)
  | kProcessingArguments => next_default None st
  end.

Definition available := next.
Definition isArgOk (st : CmdMessenger) : bool := ArgOk st.
Definition commandID (st : CmdMessenger) : Z := lastCommandId st.

(** *** Typed reads *)

(** The C library's [atoi]/[atol] on the bytes of a string: white
    space, an optional sign, decimal digits.  The value is the
    mathematical one; the casts below wrap it to the width returned. *)
Definition isspace (c : Z) : bool := (c =? 32) || ((9 <=? c) && (c <=? 13)).
Definition isdigit (c : Z) : bool := (48 <=? c) && (c <=? 57).

Fixpoint atoi_digits (acc : Z) (s : list Z) : Z :=
  match s with
  | [] => acc
  | c :: s => if isdigit c then atoi_digits (10 * acc + (c - 48)) s else acc
  end.

Fixpoint atoi_skip (s : list Z) : list Z :=
  match s with
  | [] => []
  | c :: s' => if isspace c then atoi_skip s' else s
  end.

Definition atoi (s : list Z) : Z :=
  match atoi_skip s with
  | 45 :: s => - atoi_digits 0 s
  | 43 :: s => atoi_digits 0 s
  | s => atoi_digits 0 s
  end.

Definition wrap_signed (bits : Z) (z : Z) : Z :=
  (z + 2 ^ (bits - 1)) mod 2 ^ bits - 2 ^ (bits - 1).

(** The token [current] points at. *)
Definition token (st : CmdMessenger) : option (list Z) :=
  p ← current st; cstr_at (commandBuffer st) p.

Definition readInt16Arg (st : CmdMessenger) : option (Z * CmdMessenger) :=
  '(b, st) ← next st;
  if (b : bool) then
    let st := set_ArgOk true (set_dumped true st) in
    s ← token st; Some (wrap_signed 16 (atoi s), st)
  else Some (0, set_ArgOk false st).

Definition readInt32Arg (st : CmdMessenger) : option (Z * CmdMessenger) :=
  '(b, st) ← next st;
  if (b : bool) then
    let st := set_ArgOk true (set_dumped true st) in
    s ← token st; Some (wrap_signed 32 (atoi s), st)
  else Some (0, set_ArgOk false st).

Definition readBoolArg (st : CmdMessenger) : option (bool * CmdMessenger) :=
  '(v, st) ← readInt16Arg st; Some (negb (v =? 0), st).

Definition readCharArg (st : CmdMessenger) : option (Z * CmdMessenger) :=
  '(b, st) ← next st;
  if (b : bool) then
    let st := set_ArgOk true (set_dumped true st) in
    p ← current st; c ← load (commandBuffer st) p; Some (c, st)
  else Some (0, set_ArgOk false st).

Section Strtod.

(** The C library's [strtod] on the bytes of a string, and the
    narrowing of its result to [float]; [zero] is the value 0.0. *)
Context {real : Type} (strtod : list Z → real) (to_float : real → real)
  (zero : real).

Definition readFloatArg (st : CmdMessenger) : option (real * CmdMessenger) :=
  '(b, st) ← next st;
  if (b : bool) then
    let st := set_ArgOk true (set_dumped true st) in
    s ← token st; Some (to_float (strtod s), st)
  else Some (zero, set_ArgOk false st).

Definition readDoubleArg (st : CmdMessenger) : option (real * CmdMessenger) :=
  '(b, st) ← next st;
  if (b : bool) then
    let st := set_ArgOk true (set_dumped true st) in
    s ← token st; Some (strtod s, st)
  else Some (zero, set_ArgOk false st).

End Strtod.

(** The pointer returned; the failure value ['\0'] of the source is the
    null pointer. *)
Definition readStringArg (st : CmdMessenger)
  : option (option nat * CmdMessenger) :=
  '(b, st) ← next st;
  if (b : bool) then
    let st := set_ArgOk true (set_dumped true st) in
    Some (current st, st)
  else Some (None, set_ArgOk false st).

(** [copyStringArg(string, size)]: the C string left in the caller's
    buffer, [None] when the buffer is not written. *)
Definition copyStringArg (st : CmdMessenger) (size : nat)
  : option (option (list Z) * CmdMessenger) :=
  '(b, st) ← next st;
  if (b : bool) then
    let st := set_ArgOk true (set_dumped true st) in
    s ← token st;
    Some (match size with O => None | S n => Some (take n s) end, st)
  else
    Some (match size with O => None | S _ => Some [] end, set_ArgOk false st).

Fixpoint bytes_eqb (a b : list Z) : bool :=
  match a, b with
  | [], [] => true
  | x :: a, y :: b => (x =? y) && bytes_eqb a b
  | _, _ => false
  end.

(** [compareStringArg(string)]; [string] holds the caller's bytes
    before its terminating null. *)
Definition compareStringArg (st : CmdMessenger) (string : list Z)
  : option (Z * CmdMessenger) :=
  '(b, st) ← next st;
  if (b : bool) then
    s ← token st;
    if bytes_eqb string s
    then Some (1, set_ArgOk true (set_dumped true st))
    else Some (0, set_ArgOk false st)
  else Some (0, st).

(** [readBin<T>(str)] for a [T] of [size] bytes. *)
Definition readBin (size : nat) (st : CmdMessenger) (str : nat)
  : option (list Z * CmdMessenger) :=
  buf ← Codec.unescape (escape_character st) (commandBuffer st) str;
  value ← mapM (λ i, load buf (str + i)%nat) (seq 0 size);
  Some (value, set_commandBuffer buf st).

Definition empty (size : nat) : list Z := replicate size 0.

Definition readBinArg (size : nat) (st : CmdMessenger)
  : option (list Z * CmdMessenger) :=
  '(b, st) ← next st;
  if (b : bool) then
    let st := set_dumped true st in
    p ← current st; readBin size st p
  else Some (empty size, st).

(** *** Transport and clock *)

(** The [Stream] behind [comms]: the bytes waiting to be read, the
    bytes written so far, and the number of [millis()] calls made. *)
Record Env := mkEnv {
  rx : list Z;
  tx : list Z;
  ticks : nat
}.

Definition print (bytes : list Z) (env : Env) : Env :=
  {| rx := rx env; tx := tx env ++ bytes; ticks := ticks env |}.

Definition set_rx (bytes : list Z) (env : Env) : Env :=
  {| rx := bytes; tx := tx env; ticks := ticks env |}.

Definition bytes_of_string (s : string) : list Z :=
  map (λ a, Z.of_N (N_of_ascii a)) (list_ascii_of_string s).

(** [Print::print] of an integer: its decimal digits. *)
Definition print_dec (z : Z) : list Z :=
  bytes_of_string (NilZero.string_of_int (Z.to_int z)).

(** *** Acknowledgment wait *)

Definition checkForAck (ackCommand : Z) (st : CmdMessenger) (env : Env)
  : option (bool * CmdMessenger * Env) :=
  match rx env with
  | [] => Some (false, st, env)
  | b :: rest =>
      let env := set_rx rest env in
      '(ms, st) ← processLine st b;
      if is_end ms then
        '(id, st) ← readInt16Arg st;
        if (ackCommand =? id) && ArgOk st
        then Some (true, st, env)
        else Some (false, st, env)
      else Some (false, st, env)
  end.

Section Clock.

(** [clock n] is what the [n]-th call of [millis()] returns, an
    [unsigned long] of 32 bits. *)
Variable clock : nat → Z.

Definition millis (env : Env) : Z * Env :=
  (clock (ticks env),
   {| rx := rx env; tx := tx env; ticks := S (ticks env) |}).

(** The loop of [blockedTillReply]; [fuel] bounds its iterations. *)
Fixpoint blockedTillReply_loop (fuel : nat) (timeout ackCmdId : Z)
    (start time : Z) (receivedAck : bool) (st : CmdMessenger) (env : Env)
  : option (bool * CmdMessenger * Env) :=
  if ((time - start) mod 2 ^ 32 <? timeout) && negb receivedAck then
    match fuel with
    | O => None
    | S fuel =>
        let '(time, env) := millis env in
        '(receivedAck, st, env) ← checkForAck ackCmdId st env;
        blockedTillReply_loop fuel timeout ackCmdId start time receivedAck
          st env
    end
  else Some (receivedAck, st, env).

Definition blockedTillReply (fuel : nat) (timeout ackCmdId : Z)
    (st : CmdMessenger) (env : Env) : option (bool * CmdMessenger * Env) :=
  let '(time, env) := millis env in
  blockedTillReply_loop fuel timeout ackCmdId time time false st env.

(** *** Command writer *)

Definition sendCmdStart (cmdId : Z) (st : CmdMessenger) (env : Env)
  : CmdMessenger * Env :=
  if negb (startCommand st)
  then (set_pauseProcessing true (set_startCommand true st),
        print (print_dec cmdId) env)
  else (st, env).

Definition sendCmdEscArg (arg : list Z) (st : CmdMessenger) (env : Env)
  : Env :=
  if startCommand st
  then print (Codec.printEsc_str (field_separator st) (command_separator st)
                (escape_character st) arg)
         (print [field_separator st] env)
  else env.

(** [writeBin]: every byte of the value goes through [printEsc]. *)
Definition writeBin (value : list Z) (st : CmdMessenger) (env : Env) : Env :=
  fold_left
    (λ env b,
       print (Codec.printEsc (field_separator st) (command_separator st)
                (escape_character st) b) env)
    value env.

Definition sendCmdBinArg (arg : list Z) (st : CmdMessenger) (env : Env)
  : Env :=
  if startCommand st
  then writeBin arg st (print [field_separator st] env)
  else env.

Definition sendCmdEnd (fuel : nat) (reqAc : bool) (ackCmdId timeout : Z)
    (st : CmdMessenger) (env : Env) : option (bool * CmdMessenger * Env) :=
  '(ackReply, st, env) ←
    (if startCommand st then
       let env := print [command_separator st] env in
       let env := if print_newlines st then print [13; 10] env else env in
       if reqAc then blockedTillReply fuel timeout ackCmdId st env
       else Some (false, st, env)
     else Some (false, st, env));
  let st := set_pauseProcessing false st in
  let st := set_startCommand false st in
  Some (ackReply, st, env).

End Clock.

(** *** Dispatch loop *)

Section Dispatch.

(** The handler attached with [attach], [None] for the null pointer.
    It acts on the engine through its public reads. *)
Variable default_callback : option (CmdMessenger → option CmdMessenger).

Definition handleMessage (st : CmdMessenger) : option CmdMessenger :=
  '(id, st) ← readInt16Arg st;
  let st := set_lastCommandId (id mod 256) st in
  match default_callback with
  | Some f => f st
  | None => Some st
  end.

(** The [for] loop of [feedinSerialData].  [log] records every call of
    [handleMessage] by the frame handed over. *)
Fixpoint feed_chunk (st : CmdMessenger) (log : list (list Z))
    (bytes : list Z) : option (CmdMessenger * list (list Z)) :=
  match bytes with
  | [] => Some (st, log)
  | b :: bytes =>
      '(ms, st) ← processLine st b;
      '(st, log) ←
        (if is_end ms then
           frame ← cstr_at (commandBuffer st) 0;
           st ← handleMessage st;
           Some (st, log ++ [frame])
         else Some (st, log));
      feed_chunk st log bytes
  end.

Fixpoint feedinSerialData_loop (fuel : nat) (st : CmdMessenger) (env : Env)
    (log : list (list Z))
  : option (CmdMessenger * Env * list (list Z)) :=
  if negb (pauseProcessing st) && negb (bool_decide (rx env = [])) then
    match fuel with
    | O => None
    | S fuel =>
        let bytesAvailable :=
          Z.to_nat (Z.min (Z.of_nat (length (rx env))) MAXSTREAMBUFFERSIZE) in
        let streamBuffer := take bytesAvailable (rx env) in
        let env := set_rx (drop bytesAvailable (rx env)) env in
        '(st, log) ← feed_chunk st log streamBuffer;
        feedinSerialData_loop fuel st env log
    end
  else Some (st, env, log).

(** Every iteration reads at least one byte, so the bytes waiting
    bound the iterations. *)
Definition feedinSerialData (st : CmdMessenger) (env : Env)
  : option (CmdMessenger * Env * list (list Z)) :=
  feedinSerialData_loop (length (rx env)) st env [].

End Dispatch.

(** *** The frame buffer's shape *)

Definition wf (st : CmdMessenger) : Prop :=
  length (commandBuffer st) = Z.to_nat MESSENGERBUFFERSIZE ∧
  bufferLastIndex st = MESSENGERBUFFERSIZE - 1 ∧
  0 ≤ bufferIndex st < MESSENGERBUFFERSIZE - 1.

(** What [processLine] never assigns. *)
Definition same_config (st st' : CmdMessenger) : Prop :=
  command_separator st' = command_separator st ∧
  field_separator st' = field_separator st ∧
  escape_character st' = escape_character st ∧
  bufferLastIndex st' = bufferLastIndex st ∧
  length (commandBuffer st') = length (commandBuffer st).

(** A handler that returns to the dispatch loop. *)
Definition returns (cb : option (CmdMessenger → option CmdMessenger)) : Prop :=
  ∀ f st, cb = Some f → is_Some (f st).

(** *** Scientific notation *)

(** The value handed to [printSci].  Finite values are the rationals
    they denote, and the arithmetic on them ([pow], [log10], the
    division and the products) is exact; the conversions to [long]
    truncate toward zero as in C. *)
Inductive double :=
| Finite (q : Q)
| Infinite (negative : bool)
| NaN.

Definition trunc (q : Q) : Z := Z.quot (Qnum q) (Z.pos (Qden q)).

(** [int(log10(f))] for [f >= 10]. *)
Fixpoint ilog10 (fuel : nat) (f : Q) : Z :=
  match fuel with
  | O => 0
  | S fuel => if Qle_bool 10 f then 1 + ilog10 fuel (f / 10)%Q else 0
  end.

Definition dec (z : Z) : string := NilZero.string_of_int (Z.to_int z).

Fixpoint zeros (n : nat) : string :=
  match n with O => EmptyString | S n => String "0" (zeros n) end.

(** [%0<width>ld] *)
Definition pad0 (width : nat) (s : string) : string :=
  String.append (zeros (width - String.length s)) s.

(** [%+d] *)
Definition signed (z : Z) : string :=
  if z <? 0 then dec z else String.append "+" (dec z).

(** The integer part, the fractional part and the exponent that
    [printSci] formats, for a non-negative finite [f]. *)
Definition printSci_parts (f : Q) (digits : Z) : Z * Z * Z :=
  let multiplier := 10 ^ digits in
  let exponent :=
    if negb (Qle_bool 10 f) then 0
    else ilog10 (S (Z.to_nat (Z.log2 (Qnum f)))) f in
  let g := (f / inject_Z (10 ^ exponent))%Q in
  let '(g, exponent) :=
    if negb (Qle_bool 1 g) && negb (Qeq_bool g 0)
    then ((g * 10)%Q, exponent - 1) else (g, exponent) in
  let whole := trunc g in
  let part :=
    trunc ((g - inject_Z whole) * inject_Z multiplier + (1 # 2))%Q in
  let '(whole, part) :=
    if part =? 100 then (whole + 1, 0) else (whole, part) in
  (whole, part, exponent).

(** The characters [printSci(f, digits)] prints. *)
Definition printSci (f : double) (digits : Z) : string :=
  match f with
  | Infinite negative =>
      String.append (if negative then "-" else "") "INF"
  | NaN => "NaN"
  | Finite f =>
      let negative := negb (Qle_bool 0 f) in
      let f := if negative then (- f)%Q else f in
      let digits := if 6 <? digits then 6 else digits in
      let '(whole, part, exponent) := printSci_parts f digits in
      String.append (if negative then "-" else "")
        (String.append (dec whole)
           (String.append "."
              (String.append (pad0 (Z.to_nat digits) (dec part))
                 (String.append "E" (signed exponent)))))
  end.

End Engine.

(** The bytes of a literal, for the examples. *)
Definition B (s : string) : list Z := Engine.bytes_of_string s.

(** The engine while the stream [2;1;] is polled: before the first
    separator, after it, and after the id of the frame [2] is read. *)
Definition after_2 : Engine.CmdMessenger :=
  default (Engine.init 44 59 47)
    (snd <$> Engine.feed (Engine.init 44 59 47) (B "2")).

Definition closed_2 : Engine.CmdMessenger :=
  default after_2 (snd <$> Engine.processLine after_2 59).

Definition read_2 : Engine.CmdMessenger :=
  default closed_2 (snd <$> Engine.readInt16Arg closed_2).

(** The engine fed [;;5,x;] at the moment the handler is entered: the
    frame [5,x] is closed, its id read and stored. *)
Definition entry_5x : Engine.CmdMessenger :=
  default (Engine.init 44 59 47)
    (st ← snd <$> Engine.feed (Engine.init 44 59 47) (B ";;5,x;");
     '(id, st) ← Engine.readInt16Arg st;
     Some (Engine.set_lastCommandId (id mod 256) st)).

(** ** The rest of the public interface *)

Module Api.
Import Engine.

Definition printLfCr (addNewLine : bool) (st : CmdMessenger) : CmdMessenger :=
  set_print_newlines addNewLine st.

(** [unescape(fromChar)] on a pointer into the command buffer, as a
    handler calls it on the result of [readStringArg]. *)
Definition unescape (st : CmdMessenger) (fromChar : nat)
  : option CmdMessenger :=
  buf ← Codec.unescape (escape_character st) (commandBuffer st) fromChar;
  Some (set_commandBuffer buf st).

(** [Print::print(const char * )]: the bytes before the first null. *)
Fixpoint print_str (s : list Z) : list Z :=
  match s with
  | [] => []
  | c :: s => if c =? 0 then [] else c :: print_str s
  end.

(** [sendCmdArg<T>(arg)]; [printed] is what [comms->print(arg)] writes
    for the argument: [print_str] of a string, [print_dec] of an
    integer. *)
Definition sendCmdArg (printed : list Z) (st : CmdMessenger) (env : Env)
  : Env :=
  if startCommand st
  then print printed (print [field_separator st] env)
  else env.

Definition sendCmdSciArg (arg : double) (n : Z) (st : CmdMessenger)
    (env : Env) : Env :=
  if startCommand st
  then print (bytes_of_string (printSci arg n))
         (print [field_separator st] env)
  else env.

Section Clock.
Variable clock : nat → Z.

(** [sendCmd(cmdId)] *)
Definition sendCmd0 (fuel : nat) (cmdId : Z) (st : CmdMessenger) (env : Env)
  : option (bool * CmdMessenger * Env) :=
  if negb (startCommand st) then
    let '(st, env) := sendCmdStart cmdId st env in
    sendCmdEnd clock fuel false 1 DEFAULT_TIMEOUT st env
  else Some (false, st, env).

(** [sendCmd(cmdId, reqAc, ackCmdId)] *)
Definition sendCmdAck (fuel : nat) (cmdId : Z) (reqAc : bool) (ackCmdId : Z)
    (st : CmdMessenger) (env : Env) : option (bool * CmdMessenger * Env) :=
  if negb (startCommand st) then
    let '(st, env) := sendCmdStart cmdId st env in
    sendCmdEnd clock fuel reqAc ackCmdId DEFAULT_TIMEOUT st env
  else Some (false, st, env).

(** [sendCmd<T>(cmdId, arg, reqAc, ackCmdId, timeout)] *)
Definition sendCmd (fuel : nat) (cmdId : Z) (printed : list Z) (reqAc : bool)
    (ackCmdId timeout : Z) (st : CmdMessenger) (env : Env)
  : option (bool * CmdMessenger * Env) :=
  if negb (startCommand st) then
    let '(st, env) := sendCmdStart cmdId st env in
    let env := sendCmdArg printed st env in
    sendCmdEnd clock fuel reqAc ackCmdId timeout st env
  else Some (false, st, env).

(** [sendBinCmd<T>(cmdId, arg, reqAc, ackCmdId, timeout)]; [arg] holds
    the bytes of the value. *)
Definition sendBinCmd (fuel : nat) (cmdId : Z) (arg : list Z) (reqAc : bool)
    (ackCmdId timeout : Z) (st : CmdMessenger) (env : Env)
  : option (bool * CmdMessenger * Env) :=
  if negb (startCommand st) then
    let '(st, env) := sendCmdStart cmdId st env in
    let env := sendCmdBinArg arg st env in
    sendCmdEnd clock fuel reqAc ackCmdId timeout st env
  else Some (false, st, env).

End Clock.

(** *** Escape-aware scans *)

(** The pass both scanners make over a byte list with one [lastChar]
    cell: [None] when some byte satisfies [stop] and is not escaped,
    else the cell after the last byte.  The frame reader stops at the
    command separator, [findNext] at the null byte and at the field
    separator. *)
Fixpoint scan (esc : Z) (stop : Z → bool) (lastChar : Z) (s : list Z)
  : option Z :=
  match s with
  | [] => Some lastChar
  | c :: s =>
      let '(escaped, lastChar) := Codec.isEscaped esc c esc lastChar in
      if stop c && negb escaped then None else scan esc stop lastChar s
  end.

Definition stop_frame (cs : Z) (c : Z) : bool := c =? cs.
Definition stop_field (fs : Z) (c : Z) : bool := (c =? 0) || (c =? fs).

(** Separators under which frames of decimal ids and escaped
    arguments can be told apart. *)
Definition separators_ok (fs cs esc : Z) : Prop :=
  esc ≠ 0 ∧ fs ≠ 0 ∧ fs ≠ cs ∧ fs ≠ esc ∧ cs ≠ esc ∧
  isdigit fs = false ∧ isdigit cs = false ∧ isdigit esc = false.

Definition config (fs cs esc : Z) (st : CmdMessenger) : Prop :=
  field_separator st = fs ∧ command_separator st = cs ∧
  escape_character st = esc.

(** The fields the frame reader leaves alone. *)
Definition same_session (st st' : CmdMessenger) : Prop :=
  startCommand st' = startCommand st ∧
  pauseProcessing st' = pauseProcessing st ∧
  print_newlines st' = print_newlines st ∧
  ArgOk st' = ArgOk st ∧
  lastCommandId st' = lastCommandId st.

(** *** Frames as lists of fields *)

(** The bytes of a frame whose fields are [items]: each field comes
    with the number of extra separators in front of it, and one
    separator stands between two fields. *)
Fixpoint fields_bytes (fs : Z) (items : list (nat * list Z)) : list Z :=
  match items with
  | [] => []
  | (k, f) :: rest =>
      replicate k fs ++ f ++
      match rest with [] => [] | _ => fs :: fields_bytes fs rest end
  end.

(** A field the tokenizer returns whole: not empty, no null byte, no
    unescaped separator, and no pending escape at its end. *)
Definition field_ok (fs esc : Z) (f : list Z) : Prop :=
  f ≠ [] ∧ Forall (λ c, c ≠ 0) f ∧
  ∃ l, scan esc (stop_field fs) 0 f = Some l ∧ l ≠ esc.

(** A byte that none of the scanners treats specially. *)
Definition plain (fs cs esc : Z) (c : Z) : Prop :=
  c ≠ 0 ∧ c ≠ fs ∧ c ≠ cs ∧ c ≠ esc.

(** Where [next()] resumes: at the start of the buffer on the first
    call after a frame, at [last] afterwards. *)
Definition resumes_at (st : CmdMessenger) (p : nat) : Prop :=
  (messageState st = kEndOfMessage ∧ p = 0%nat) ∨
  (messageState st = kProcessingArguments ∧ last st = Some p).

Definition same_separators (st st' : CmdMessenger) : Prop :=
  field_separator st' = field_separator st ∧
  escape_character st' = escape_character st ∧
  command_separator st' = command_separator st.

(** The state in which the frame reader starts on a frame. *)
Definition ready (fs cs esc : Z) (st : CmdMessenger) : Prop :=
  wf st ∧ config fs cs esc st ∧ bufferIndex st = 0 ∧ CmdlastChar st ≠ esc.

(** *** Commands built argument by argument *)

Inductive argument :=
| ArgPrinted (printed : list Z)
| ArgEscaped (s : list Z)
| ArgBinary (value : list Z).

Definition sendArg (a : argument) (st : CmdMessenger) (env : Env) : Env :=
  match a with
  | ArgPrinted printed => sendCmdArg printed st env
  | ArgEscaped s => sendCmdEscArg s st env
  | ArgBinary value => sendCmdBinArg value st env
  end.

(** The bytes an argument puts on the wire behind its separator. *)
Definition rendered (fs cs esc : Z) (a : argument) : list Z :=
  match a with
  | ArgPrinted printed => printed
  | ArgEscaped s => Codec.printEsc_str fs cs esc s
  | ArgBinary value => flat_map (Codec.printEsc fs cs esc) value
  end.

(** [sendCmdStart], the appends for [args] in order, [sendCmdEnd]. *)
Definition send_command (clock : nat → Z) (fuel : nat) (cmdId : Z)
    (args : list argument) (reqAc : bool) (ackCmdId timeout : Z)
    (st : CmdMessenger) (env : Env) : option (bool * CmdMessenger * Env) :=
  let '(st, env) := sendCmdStart cmdId st env in
  let env := fold_left (λ env a, sendArg a st env) args env in
  sendCmdEnd clock fuel reqAc ackCmdId timeout st env.

(** The loop of a handler that reads string arguments until one is
    not OK, [n] at most, and keeps the C string each returned pointer
    points at. *)
Fixpoint read_strings (n : nat) (st : CmdMessenger)
  : option (list (list Z) * CmdMessenger) :=
  match n with
  | O => Some ([], st)
  | S n =>
      '(p, st) ← readStringArg st;
      if isArgOk st then
        p ← p;
        t ← cstr_at (commandBuffer st) p;
        '(ts, st) ← read_strings n st;
        Some (t :: ts, st)
      else Some ([], st)
  end.

(** The digits of a decimal numeral as bytes. *)
Definition uint_bytes (d : Decimal.uint) : list Z :=
  bytes_of_string (NilEmpty.string_of_uint d).

(** The bytes a call wrote to the transport. *)
Definition written (env env' : Env) : list Z :=
  drop (length (tx env)) (tx env').

(** The loop of a handler that reads string arguments and unescapes
    each in place through the pointer returned, until one is not OK,
    [n] at most. *)
Fixpoint read_unescaped (n : nat) (st : CmdMessenger)
  : option (list (list Z) * CmdMessenger) :=
  match n with
  | O => Some ([], st)
  | S n =>
      '(p, st) ← readStringArg st;
      if isArgOk st then
        p ← p;
        st ← unescape st p;
        t ← cstr_at (commandBuffer st) p;
        '(ts, st) ← read_unescaped n st;
        Some (t :: ts, st)
      else Some ([], st)
  end.

(** The fields of a command whose arguments are all escaped strings. *)
Definition escaped_fields (fs cs esc : Z) (args : list (list Z))
  : list (nat * list Z) :=
  map (λ a, (0%nat, Codec.printEsc_str fs cs esc a)) args.

(** *** What a handler may rely on *)

(** What the tokenizer and the typed reads leave alone: the frame
    reader's cursor and cell, the size of the buffer, the separators
    and the writer's flags. *)
Definition same_reader (st st' : CmdMessenger) : Prop :=
  bufferIndex st' = bufferIndex st ∧
  bufferLastIndex st' = bufferLastIndex st ∧
  CmdlastChar st' = CmdlastChar st ∧
  length (commandBuffer st') = length (commandBuffer st) ∧
  same_separators st st' ∧
  startCommand st' = startCommand st ∧
  pauseProcessing st' = pauseProcessing st ∧
  print_newlines st' = print_newlines st ∧
  lastCommandId st' = lastCommandId st.

(** *** Frames on the wire *)

(** A frame as the dispatch loop sees it: white space left over from
    the line end of the frame before, the decimal id, and what follows
    it up to the command separator. *)
Record frame := mkFrame { lead : list Z; id : Z; rest : list Z }.

Definition frame_bytes (fr : frame) : list Z :=
  lead fr ++ print_dec (id fr) ++ rest fr.

(** A frame the reader hands over whole: white space that is no
    separator, an id of 16 bits, then nothing or a field separator and
    the arguments, no null byte, no unescaped command separator, no
    pending escape at the end, short enough for the buffer. *)
Definition frame_ok (fs cs esc : Z) (fr : frame) : Prop :=
  Forall (λ c, isspace c = true ∧ plain fs cs esc c) (lead fr) ∧
  0 ≤ id fr < 32768 ∧
  (rest fr = [] ∨ ∃ p, rest fr = fs :: p) ∧
  Forall (λ c, c ≠ 0) (rest fr) ∧
  (∃ l, scan esc (stop_frame cs) 0 (rest fr) = Some l ∧ l ≠ esc) ∧
  (length (frame_bytes fr) ≤ 190)%nat.

Definition wire (cs : Z) (frames : list frame) : list Z :=
  flat_map (λ fr, frame_bytes fr ++ [cs]) frames.

(** The call of the handler attached, if any. *)
Definition callback (cb : option (CmdMessenger → option CmdMessenger))
    (st : CmdMessenger) : option CmdMessenger :=
  match cb with
  | Some f => f st
  | None => Some st
  end.

(** Frames delivered one after the other, from [st] to [st']: each
    frame and its separator go through the reader, which hands the
    frame over at the separator; the id is read, OK, and stored; and
    the handler runs once, on that state. *)
Inductive delivered (cb : option (CmdMessenger → option CmdMessenger))
    (cs : Z) : CmdMessenger → list frame → CmdMessenger → Prop :=
| delivered_nil st : delivered cb cs st [] st
| delivered_cons st fr frames st1 st2 st3 st' :
    feed st (frame_bytes fr ++ [cs]) =
      Some (replicate (length (frame_bytes fr)) kProccesingMessage
              ++ [kEndOfMessage], st1) →
    cstr_at (commandBuffer st1) 0 = Some (frame_bytes fr) →
    readInt16Arg st1 = Some (id fr, st2) → isArgOk st2 = true →
    callback cb (set_lastCommandId (id fr mod 256) st2) = Some st3 →
    delivered cb cs st3 frames st' →
    delivered cb cs st (fr :: frames) st'.

(** A handler that returns and leaves the frame reader alone, as one
    made of typed reads does. *)
Definition handler_ok (cb : option (CmdMessenger → option CmdMessenger))
  : Prop :=
  ∀ f, cb = Some f → ∀ st, ∃ st', f st = Some st' ∧ same_reader st st'.

End Api.

(** * Properties *)

(** ** Memory *)

Lemma load_middle (pre : list Z) x post :
  load (pre ++ x :: post) (length pre) = Some x.
Proof. unfold load. by apply list_lookup_middle. Qed.

Lemma load_middle2 (pre mid : list Z) x post :
  load (pre ++ mid ++ x :: post) (length pre + length mid) = Some x.
Proof. rewrite app_assoc, <- length_app. apply load_middle. Qed.

Lemma store_in_bounds (buf : list Z) i v :
  (i < length buf)%nat → store buf i v = Some (<[i:=v]> buf).
Proof.
  intros H. unfold store. by destruct (Nat.ltb_spec i (length buf)); [|lia].
Qed.

Lemma store_middle (pre : list Z) x post v :
  store (pre ++ x :: post) (length pre) v = Some (pre ++ v :: post).
Proof.
  rewrite store_in_bounds by (rewrite length_app; cbn [length]; lia).
  f_equal. rewrite insert_app_r_alt by lia. by rewrite Nat.sub_diag.
Qed.

(** A write at the head of what follows [pre]. *)
Lemma store_head (pre X R : list Z) v :
  X ≠ [] →
  store (pre ++ X ++ R) (length pre) v = Some ((pre ++ [v]) ++ drop 1 X ++ R).
Proof.
  destruct X as [|x X]; [done|]. intros _. cbn [app drop].
  rewrite store_middle. by rewrite <- app_assoc.
Qed.

Lemma cstr_app (s R : list Z) :
  Forall (λ c, c ≠ 0) s → cstr (s ++ 0 :: R) = Some s.
Proof.
  induction 1 as [|c s Hc _ IH]; [done|]. cbn [app cstr].
  destruct (Z.eqb_spec c 0); [done|]. by rewrite IH.
Qed.

(** ** Escape codec *)

Section CodecFacts.
Import Codec.

Lemma isEscaped_run_cons esc l c s :
  isEscaped_run esc l (c :: s) =
  ((l =? esc) :: fst (isEscaped_run esc (snd (isEscaped esc c esc l)) s),
   snd (isEscaped_run esc (snd (isEscaped esc c esc l)) s)).
Proof. simpl. by destruct (isEscaped_run esc _ s). Qed.

(** The cell left by a byte holds the escape byte exactly when that
    byte was an escape byte that was not itself escaped. *)
Lemma isEscaped_cell_eqb esc c l :
  esc ≠ 0 →
  (snd (isEscaped esc c esc l) =? esc) = (c =? esc) && negb (l =? esc).
Proof.
  intros Hesc. unfold isEscaped. cbn [snd].
  destruct (Z.eqb_spec c esc) as [->|Hc], (Z.eqb_spec l esc);
    cbn [andb negb]; rewrite ?Z.eqb_refl; try done; apply Z.eqb_neq;
    congruence.
Qed.

(** C2, as the code has it.  With a non-null escape byte, the first
    byte of a stream is reported escaped iff the cell held the escape
    byte; every later byte is reported escaped iff the raw byte before
    it was the escape byte and was not itself reported escaped; and the
    cell ends on the last raw byte, or on null when that byte was an
    escaped escape byte.  After two escape bytes in a row the next byte
    is therefore not escaped, and a third escape byte in a row escapes
    the fourth byte. *)
Theorem isEscaped_stream esc lastChar (s : list Z) :
  esc ≠ 0 →
  let flags := fst (isEscaped_run esc lastChar s) in
  length flags = length s ∧
  (∀ c, s !! 0%nat = Some c → flags !! 0%nat = Some (lastChar =? esc)) ∧
  (∀ i p e, s !! i = Some p → flags !! i = Some e → (S i < length s)%nat →
     flags !! S i = Some ((p =? esc) && negb e)) ∧
  (∀ p e, s !! (length s - 1)%nat = Some p →
     flags !! (length s - 1)%nat = Some e →
     snd (isEscaped_run esc lastChar s) = if (p =? esc) && e then 0 else p).
Proof.
  intros Hesc. revert lastChar.
  induction s as [|c s IH]; intros l flags.
  - repeat split; [|intros; simpl in *; lia|]; intros; discriminate.
  - subst flags. rewrite isEscaped_run_cons.
    destruct (IH (snd (isEscaped esc c esc l))) as (Hlen & H0 & Hstep & Hend).
    clear IH. cbn [fst snd].
    split; [cbn [length]; f_equal; exact Hlen|].
    split; [done|]. split.
    + intros [|i] p e Hp He Hlt.
      * assert (p = c) by (simpl in Hp; congruence).
        assert (e = (l =? esc)) by (simpl in He; congruence).
        subst p e. clear Hp He.
        destruct s as [|d s]; [simpl in Hlt; lia|].
        change ((?x :: ?r) !! 1%nat) with (r !! 0%nat).
        rewrite (H0 d eq_refl). f_equal. by apply isEscaped_cell_eqb.
      * change ((?x :: ?r) !! S (S i)) with (r !! S i).
        apply (Hstep i p e Hp He). simpl in Hlt. lia.
    + intros p e. destruct s as [|d s].
      * intros Hp He. assert (p = c) by (simpl in Hp; congruence).
        assert (e = (l =? esc)) by (simpl in He; congruence). by subst.
      * replace (length (c :: d :: s) - 1)%nat with (S (length (d :: s) - 1))
          by (simpl; lia).
        apply Hend.
Qed.

Lemma isEscaped_stream_witness :
  47 ≠ 0 ∧
  let s := [47; 47; 47; 120] in
  let flags := fst (isEscaped_run 47 0 s) in
  length flags = length s ∧
  (∀ c, s !! 0%nat = Some c → flags !! 0%nat = Some (0 =? 47)) ∧
  (∀ i p e, s !! i = Some p → flags !! i = Some e → (S i < length s)%nat →
     flags !! S i = Some ((p =? 47) && negb e)) ∧
  (∀ p e, s !! (length s - 1)%nat = Some p →
     flags !! (length s - 1)%nat = Some e →
     snd (isEscaped_run 47 0 s) = if (p =? 47) && e then 0 else p).
Proof.
  assert (H : 47 ≠ 0) by lia.
  split; [exact H|]. exact (isEscaped_stream 47 0 [47; 47; 47; 120] H).
Defined.

(** C2 as stated fails on [//,] and on [///x]: the byte after two
    escape bytes has the escape byte right before it and is not
    reported escaped, and the byte after three escape bytes is reported
    escaped by the third. *)
Lemma isEscaped_after_pair :
  [47; 47; 44] !! 1%nat = Some 47 ∧
  fst (isEscaped_run 47 0 [47; 47; 44]) !! 2%nat = Some false ∧
  [47; 47; 47; 120] !! 2%nat = Some 47 ∧
  fst (isEscaped_run 47 0 [47; 47; 47; 120]) !! 3%nat = Some true.
Proof. repeat split. Qed.

(** *** Round trip *)

Lemma unescape_loop_plain esc c fuel (pre mid R : list Z) :
  c ≠ 0 → c ≠ esc →
  unescape_loop (S fuel) esc (pre ++ mid ++ c :: R)
    (length pre + length mid) (length pre) =
  unescape_loop fuel esc ((pre ++ [c]) ++ drop 1 (mid ++ [c]) ++ R)
    (S (length pre + length mid)) (S (length pre)).
Proof.
  intros H0 He. cbn [unescape_loop]. rewrite load_middle2.
  cbn [mbind option_bind].
  destruct (Z.eqb_spec c 0); [done|]. destruct (Z.eqb_spec c esc); [done|].
  rewrite load_middle2. cbn [mbind option_bind].
  change (c :: R) with ([c] ++ R). rewrite (app_assoc mid).
  rewrite store_head by (by destruct mid). done.
Qed.

Lemma unescape_loop_escaped esc c fuel (pre mid R : list Z) :
  esc ≠ 0 →
  unescape_loop (S fuel) esc (pre ++ mid ++ esc :: c :: R)
    (length pre + length mid) (length pre) =
  unescape_loop fuel esc ((pre ++ [c]) ++ drop 1 (mid ++ [esc; c]) ++ R)
    (S (S (length pre + length mid))) (S (length pre)).
Proof.
  intros H0. cbn [unescape_loop]. rewrite load_middle2.
  cbn [mbind option_bind].
  destruct (Z.eqb_spec esc 0); [done|]. rewrite Z.eqb_refl.
  replace (load (pre ++ mid ++ esc :: c :: R) (S (length pre + length mid)))
    with (Some c).
  2:{ symmetry. change (esc :: c :: R) with ([esc] ++ c :: R).
      rewrite (app_assoc mid).
      replace (S (length pre + length mid)) with
        (length pre + length (mid ++ [esc]))%nat
        by (rewrite length_app; simpl; lia).
      apply load_middle2. }
  cbn [mbind option_bind].
  change (esc :: c :: R) with ([esc; c] ++ R). rewrite (app_assoc mid).
  rewrite store_head by (by destruct mid). done.
Qed.

Lemma unescape_loop_end esc fuel (pre mid R : list Z) :
  unescape_loop (S fuel) esc (pre ++ mid ++ 0 :: R)
    (length pre + length mid) (length pre) =
  Some (pre ++ mid ++ 0 :: R, (length pre + length mid)%nat, length pre).
Proof. cbn [unescape_loop]. by rewrite load_middle2. Qed.

(** The copy loop over what [printEsc] emitted for [arg]: [pre] is
    what has been written, [mid] the gap between the two pointers. *)
Lemma unescape_loop_printEsc fs cs esc (arg : list Z) :
  esc ≠ 0 → Forall (λ c, c ≠ 0) arg →
  ∀ (pre mid R : list Z) fuel,
    (length (printEsc_str fs cs esc arg) < fuel)%nat →
    ∃ mid',
      (length arg + length mid' =
       length mid + length (printEsc_str fs cs esc arg))%nat ∧
      unescape_loop fuel esc
        (pre ++ mid ++ printEsc_str fs cs esc arg ++ 0 :: R)
        (length pre + length mid) (length pre) =
      Some ((pre ++ arg) ++ mid' ++ 0 :: R,
            (length (pre ++ arg) + length mid')%nat, length (pre ++ arg)).
Proof.
  intros Hesc Harg.
  induction Harg as [|c arg Hc Harg IH]; intros pre mid R fuel Hfuel.
  - exists mid. split; [simpl; lia|]. destruct fuel; [simpl in Hfuel; lia|].
    cbn [printEsc_str app]. rewrite unescape_loop_end, app_nil_r. done.
  - cbn [printEsc_str] in *. destruct (Z.eqb_spec c 0); [done|].
    rewrite length_app in Hfuel. destruct fuel; [lia|].
    unfold printEsc in *.
    destruct ((c =? fs) || (c =? cs) || (c =? esc) || (c =? 0)) eqn:Hsp.
    + cbn [app length] in *. rewrite unescape_loop_escaped by done.
      destruct (IH (pre ++ [c]) (drop 1 (mid ++ [esc; c])) R fuel)
        as (mid' & Hl & Heq); [lia|].
      assert (Hd : length (drop 1 (mid ++ [esc; c])) = S (length mid)).
      { rewrite length_drop, length_app. simpl. lia. }
      exists mid'. split; [lia|].
      replace (S (S (length pre + length mid))) with
        (length (pre ++ [c]) + length (drop 1 (mid ++ [esc; c])))%nat
        by (rewrite Hd, length_app; simpl; lia).
      replace (S (length pre)) with (length (pre ++ [c]))
        by (rewrite length_app; simpl; lia).
      rewrite Heq. by rewrite <- !app_assoc.
    + apply orb_false_iff in Hsp as [Hsp _].
      apply orb_false_iff in Hsp as [_ Hsp]. apply Z.eqb_neq in Hsp.
      cbn [app length] in *. rewrite unescape_loop_plain by done.
      destruct (IH (pre ++ [c]) (drop 1 (mid ++ [c])) R fuel)
        as (mid' & Hl & Heq); [lia|].
      assert (Hd : length (drop 1 (mid ++ [c])) = length mid).
      { rewrite length_drop, length_app. simpl. lia. }
      exists mid'. split; [lia|].
      replace (S (length pre + length mid)) with
        (length (pre ++ [c]) + length (drop 1 (mid ++ [c])))%nat
        by (rewrite Hd, length_app; simpl; lia).
      replace (S (length pre)) with (length (pre ++ [c]))
        by (rewrite length_app; simpl; lia).
      rewrite Heq. by rewrite <- !app_assoc.
Qed.

Lemma unescape_pad_spec (mid : list Z) :
  ∀ (pre R : list Z),
    unescape_pad (length mid) (pre ++ mid ++ R) (length pre) =
    Some (pre ++ replicate (length mid) 0 ++ R).
Proof.
  induction mid as [|m mid IH]; intros pre R; [done|].
  cbn [length unescape_pad app]. rewrite store_middle.
  cbn [mbind option_bind]. specialize (IH (pre ++ [0]) R).
  rewrite <- !app_assoc, length_app in IH. cbn [app length] in IH.
  rewrite Nat.add_1_r in IH. rewrite IH. done.
Qed.

(** C1.  For every field separator, command separator and non-null
    escape byte, and every argument without null bytes: the bytes
    [printEsc] emits for the argument, placed in a buffer in front of
    a terminating null, are turned by [unescape] into the argument
    followed by nulls, and the string then read from the buffer is the
    argument.  Arguments with two escape bytes in a row are included. *)
Theorem printEsc_unescape_roundtrip fs cs esc (arg R : list Z) :
  esc ≠ 0 → Forall (λ c, c ≠ 0) arg →
  let emitted := printEsc_str fs cs esc arg in
  let buf := arg ++ replicate (S (length emitted) - length arg) 0 ++ R in
  unescape esc (emitted ++ 0 :: R) 0 = Some buf ∧ cstr_at buf 0 = Some arg.
Proof.
  intros Hesc Harg emitted buf. split.
  - unfold unescape.
    destruct (unescape_loop_printEsc fs cs esc arg Hesc Harg [] [] R
                (S (length (emitted ++ 0 :: R)))) as (mid' & Hl & Heq).
    { rewrite length_app. fold emitted. lia. }
    cbn [app length Nat.add] in Heq. fold emitted in Heq, Hl. rewrite Heq.
    cbn [mbind option_bind].
    replace (length arg + length mid' - length arg)%nat with (length mid')
      by lia.
    change (0 :: R) with ([0] ++ R).
    pose proof (unescape_pad_spec mid' arg ([0] ++ R)) as Hp. rewrite Hp.
    subst buf. f_equal. f_equal.
    replace (S (length emitted) - length arg)%nat with (S (length mid'))
      by (simpl in Hl; lia).
    rewrite replicate_S_end, <- app_assoc. done.
  - unfold cstr_at. rewrite drop_0. subst buf.
    destruct (S (length emitted) - length arg)%nat eqn:E.
    + assert (length arg ≤ length emitted)%nat; [|lia].
      destruct (unescape_loop_printEsc fs cs esc arg Hesc Harg [] [] R
                  (S (length emitted))) as (mid' & Hl & _);
        [fold emitted; lia|].
      fold emitted in Hl. simpl in Hl. lia.
    + cbn [replicate app]. by apply cstr_app.
Qed.

Lemma printEsc_unescape_roundtrip_witness :
  let arg := [97; 47; 47; 44; 59; 98] in
  47 ≠ 0 ∧ Forall (λ c, c ≠ 0) arg ∧
  let emitted := printEsc_str 44 59 47 arg in
  let buf := arg ++ replicate (S (length emitted) - length arg) 0 ++ [] in
  unescape 47 (emitted ++ 0 :: []) 0 = Some buf ∧ cstr_at buf 0 = Some arg.
Proof.
  intros arg.
  assert (H : 47 ≠ 0) by lia.
  assert (Ha : Forall (λ c, c ≠ 0) arg) by (repeat constructor; lia).
  split; [exact H|]. split; [exact Ha|].
  exact (printEsc_unescape_roundtrip 44 59 47 arg [] H Ha).
Defined.

(** C1 as stated fails when the escape byte is null: the separator in
    [a,b] is emitted behind a null byte, [unescape] stops there, and
    the argument comes back as [a]. *)
Lemma printEsc_unescape_null_escape :
  let arg := [97; 44; 98] in
  Forall (λ c, c ≠ 0) arg ∧
  printEsc_str 44 59 0 arg = [97; 0; 44; 98] ∧
  ∃ buf, unescape 0 (printEsc_str 44 59 0 arg ++ [0]) 0 = Some buf ∧
         cstr_at buf 0 = Some [97] ∧ [97] ≠ arg.
Proof.
  intros arg. split; [repeat constructor; done|]. split; [reflexivity|].
  eexists. split; [vm_compute; reflexivity|]. split; [reflexivity|done].
Qed.

End CodecFacts.

(** ** Frame reader *)

Section ReaderFacts.
Import Engine.

Ltac wf_bounds :=
  match goal with
  | H : wf _ |- _ =>
      let a := fresh "Hlen" in
      let b := fresh "Hlast" in
      let c := fresh "Hidx" in
      destruct H as (a & b & c); unfold MESSENGERBUFFERSIZE in a, b, c;
      change (192 - 1) with 191 in b, c
  end.

Ltac wf_done :=
  unfold wf, same_config, MESSENGERBUFFERSIZE; cbn; rewrite length_insert;
  repeat split; try done; lia.

Lemma same_config_trans st1 st2 st3 :
  same_config st1 st2 → same_config st2 st3 → same_config st1 st3.
Proof. unfold same_config. intuition congruence. Qed.

Lemma wf_init fs cs esc : wf (init fs cs esc).
Proof. unfold wf, MESSENGERBUFFERSIZE. cbn. repeat split; lia. Qed.

(** An unescaped separator: the frame is closed, and handed over when
    it is not empty. *)
Lemma processLine_separator st c :
  wf st → c = command_separator st → CmdlastChar st ≠ escape_character st →
  ∃ st', processLine st c =
           Some (if 0 <? bufferIndex st
                 then kEndOfMessage else kProccesingMessage, st')
    ∧ wf st' ∧ same_config st st' ∧ bufferIndex st' = 0
    ∧ commandBuffer st' = <[Z.to_nat (bufferIndex st) := 0]> (commandBuffer st).
Proof.
  intros Hwf -> Hl. pose proof Hwf as Hwf'. wf_bounds.
  unfold processLine, Codec.isEscaped. cbn.
  destruct (Z.eqb_spec (CmdlastChar st) (escape_character st)); [done|].
  rewrite Z.eqb_refl. cbn.
  rewrite store_in_bounds by lia. cbn.
  destruct (0 <? bufferIndex st); cbn; eexists; (split; [reflexivity|]);
    wf_done.
Qed.

(** Any byte that is not an unescaped separator is appended, and the
    buffer is reset when the index reaches the last one. *)
Lemma processLine_append st c :
  wf st →
  (c =? command_separator st)
    && negb (CmdlastChar st =? escape_character st) = false →
  ∃ st', processLine st c = Some (kProccesingMessage, st')
    ∧ wf st' ∧ same_config st st'
    ∧ bufferIndex st' =
        (if bufferIndex st + 1 <? 191 then bufferIndex st + 1 else 0)
    ∧ commandBuffer st' = <[Z.to_nat (bufferIndex st) := c]> (commandBuffer st)
    ∧ CmdlastChar st' = snd (Codec.isEscaped (escape_character st) c
                               (escape_character st) (CmdlastChar st)).
Proof.
  intros Hwf Hc. pose proof Hwf as Hwf'. wf_bounds.
  unfold processLine, Codec.isEscaped. cbn. rewrite Hc.
  rewrite store_in_bounds by lia. cbn.
  rewrite Hlast. rewrite (Z.mod_small (bufferIndex st + 1)) by lia.
  destruct (Z.leb_spec 191 (bufferIndex st + 1)),
    (Z.ltb_spec (bufferIndex st + 1) 191);
    try lia; cbn; eexists; (split; [reflexivity|]); wf_done.
Qed.

(** Whatever the byte, the reader stays within its buffer. *)
Lemma processLine_wf st c :
  wf st →
  ∃ ms st', processLine st c = Some (ms, st') ∧ wf st' ∧ same_config st st'.
Proof.
  intros Hwf.
  destruct ((c =? command_separator st)
              && negb (CmdlastChar st =? escape_character st)) eqn:E.
  - apply andb_true_iff in E as [Hc Hl]. apply Z.eqb_eq in Hc.
    apply negb_true_iff, Z.eqb_neq in Hl.
    destruct (processLine_separator st c Hwf Hc Hl) as (st' & H & ? & ? & _).
    eauto.
  - destruct (processLine_append st c Hwf E) as (st' & H & ? & ? & _). eauto.
Qed.

Lemma feed_wf bytes : ∀ st,
  wf st →
  ∃ mss st', feed st bytes = Some (mss, st') ∧ wf st' ∧
    length mss = length bytes.
Proof.
  induction bytes as [|b bytes IH]; intros st Hwf; [by exists [], st|].
  destruct (processLine_wf st b Hwf) as (ms & st1 & H1 & Hwf1 & _).
  destruct (IH st1 Hwf1) as (mss & st2 & H2 & Hwf2 & Hl).
  exists (ms :: mss), st2. cbn [feed]. rewrite H1. cbn. rewrite H2. cbn.
  by rewrite Hl.
Qed.

Lemma feed_app a : ∀ b st,
  feed st (a ++ b) =
  '(m1, s1) ← feed st a; '(m2, s2) ← feed s1 b; Some (m1 ++ m2, s2).
Proof.
  induction a as [|x a IH]; intros b st.
  - cbn. destruct (feed st b) as [[? ?]|]; done.
  - cbn [app feed]. destruct (processLine st x) as [[ms st1]|]; [|done]. cbn.
    rewrite IH. destruct (feed st1 a) as [[m1 s1]|]; [|done]. cbn.
    destruct (feed s1 b) as [[m2 s2]|]; done.
Qed.

(** Bytes that are not the separator pile up behind the prefix [p]
    already in the buffer, as long as the limit is not reached. *)
Lemma feed_body f : ∀ p st,
  wf st → bufferIndex st = Z.of_nat (length p) →
  take (length p) (commandBuffer st) = p →
  command_separator st ∉ f → (length p + length f < 191)%nat →
  ∃ st', feed st f = Some (replicate (length f) kProccesingMessage, st')
    ∧ wf st' ∧ same_config st st'
    ∧ bufferIndex st' = Z.of_nat (length p + length f)
    ∧ take (length p + length f) (commandBuffer st') = p ++ f
    ∧ (f ≠ [] → escape_character st ∉ f →
       CmdlastChar st' ≠ escape_character st).
Proof.
  induction f as [|c f IH]; intros p st Hwf Hidx Hp Hcs Hlen.
  - exists st. rewrite Nat.add_0_r, app_nil_r. unfold same_config.
    split_and!; done.
  - apply not_elem_of_cons in Hcs as [Hc Hcs]. cbn [length] in Hlen.
    destruct (processLine_append st c Hwf)
      as (st1 & H1 & Hwf1 & Hcfg1 & Hi1 & Hb1 & Hl1).
    { destruct (Z.eqb_spec c (command_separator st)); [congruence|done]. }
    destruct (Z.ltb_spec (bufferIndex st + 1) 191); [|lia].
    assert (Hin : (length p < length (commandBuffer st))%nat).
    { destruct Hwf as (Hl & _). rewrite Hl. unfold MESSENGERBUFFERSIZE. lia. }
    destruct (IH (p ++ [c]) st1)
      as (st2 & H2 & Hwf2 & Hcfg2 & Hi2 & Hb2 & Hl2).
    + done.
    + rewrite Hi1, Hidx, length_app. cbn [length]. lia.
    + rewrite Hb1, Hidx, Nat2Z.id, length_app. cbn [length].
      rewrite Nat.add_1_r.
      rewrite (take_S_r _ _ c) by (by apply list_lookup_insert_eq).
      rewrite take_insert_ge by lia. by rewrite Hp.
    + destruct Hcfg1 as (-> & _). done.
    + rewrite length_app. cbn [length]. lia.
    + exists st2. cbn [feed]. rewrite H1. cbn. rewrite H2. cbn.
      rewrite length_app in Hi2, Hb2. cbn [length] in Hi2, Hb2.
      replace (length p + S (length f))%nat
        with (length p + 1 + length f)%nat by lia.
      rewrite <- app_assoc in Hb2.
      split; [done|]. split; [done|].
      split; [by eapply same_config_trans|]. split; [done|]. split; [done|].
      intros _ Hesc. apply not_elem_of_cons in Hesc as [He Hesc].
      destruct Hcfg1 as (_ & _ & Hesc1 & _).
      destruct f as [|d f].
      * cbn in H2. injection H2 as <-. rewrite Hl1.
        unfold Codec.isEscaped. cbn.
        destruct (Z.eqb_spec c (escape_character st)); [done|]. cbn.
        congruence.
      * rewrite <- Hesc1. apply Hl2; [done|]. by rewrite Hesc1.
Qed.

(** A frame that starts on an empty buffer is handed over intact. *)
Lemma feed_frame f st :
  wf st → bufferIndex st = 0 → f ≠ [] → (length f ≤ 190)%nat →
  command_separator st ∉ f → escape_character st ∉ f →
  ∃ st', feed st (f ++ [command_separator st]) =
           Some (replicate (length f) kProccesingMessage ++ [kEndOfMessage],
                 st')
    ∧ wf st' ∧ same_config st st' ∧ bufferIndex st' = 0
    ∧ take (S (length f)) (commandBuffer st') = f ++ [0].
Proof.
  intros Hwf Hidx Hne Hlen Hcs Hesc.
  destruct (feed_body f [] st)
    as (st1 & H1 & Hwf1 & Hcfg1 & Hi1 & Hb1 & Hl1);
    [done|done|apply take_0|done|cbn; lia|].
  cbn [length Nat.add app] in Hi1, Hb1.
  pose proof Hcfg1 as (Hcs1 & _ & Hesc1 & _ & Hlen1).
  destruct (processLine_separator st1 (command_separator st) Hwf1) as
    (st2 & H2 & Hwf2 & Hcfg2 & Hi2 & Hb2);
    [done|rewrite Hesc1; by apply Hl1|].
  exists st2. rewrite feed_app, H1. cbn [mbind option_bind feed]. rewrite H2.
  cbn [mbind option_bind feed].
  destruct (Z.ltb_spec 0 (bufferIndex st1)).
  2:{ destruct f; [done|]. cbn [length] in Hi1. lia. }
  split; [done|]. split; [done|]. split; [by eapply same_config_trans|].
  split; [done|].
  assert (Hin : (length f < length (commandBuffer st1))%nat).
  { destruct Hwf1 as (Hl & _). rewrite Hl. unfold MESSENGERBUFFERSIZE. lia. }
  rewrite Hb2, Hi1, Nat2Z.id.
  rewrite (take_S_r _ _ 0) by (by apply list_lookup_insert_eq).
  rewrite take_insert_ge by lia. by rewrite Hb1.
Qed.

(** 191 bytes without a separator: the buffer is reset at the last
    one, and no state but [kProccesingMessage] is ever returned. *)
Lemma feed_overflow junk st :
  wf st → bufferIndex st = 0 → length junk = 191%nat →
  command_separator st ∉ junk →
  ∃ st', feed st junk = Some (replicate 191 kProccesingMessage, st')
    ∧ wf st' ∧ same_config st st' ∧ bufferIndex st' = 0.
Proof.
  intros Hwf Hidx Hlen Hcs.
  destruct (decide (junk = [])) as [->|Hne]; [done|].
  destruct (exists_last Hne) as (j & x & ->).
  rewrite length_app in Hlen. cbn [length] in Hlen.
  apply not_elem_of_app in Hcs as [Hj Hx].
  apply not_elem_of_cons in Hx as [Hx _].
  destruct (feed_body j [] st) as (st1 & H1 & Hwf1 & Hcfg1 & Hi1 & _);
    [done|done|apply take_0|done|cbn; lia|].
  cbn [length Nat.add] in Hi1.
  pose proof Hcfg1 as (Hcs1 & _).
  destruct (processLine_append st1 x Hwf1)
    as (st2 & H2 & Hwf2 & Hcfg2 & Hi2 & _).
  { destruct (Z.eqb_spec x (command_separator st1)); [congruence|done]. }
  exists st2. rewrite feed_app, H1. cbn [mbind option_bind feed]. rewrite H2.
  cbn [mbind option_bind feed].
  replace (length j) with 190%nat by lia.
  split; [done|]. split; [done|]. split; [by eapply same_config_trans|].
  rewrite Hi2, Hi1.
  destruct (Z.ltb_spec (Z.of_nat (length j) + 1) 191); [lia|done].
Qed.

(** C4.  On an empty frame buffer the command separator never makes
    [processLine] return [kEndOfMessage], and the dispatch loop goes on
    to the next byte in the state [processLine] left, without calling
    [handleMessage].  Fed [;;5,x;], a fresh engine with the default
    separators enters the handler exactly once: what
    [feedinSerialData] returns is what the handler returns on the
    state in which the frame [5,x] is closed and its id 5 read, OK and
    stored in [lastCommandId], with [x] the next argument; with no
    handler attached the engine is left in that state. *)
Theorem empty_frame_absorbed st cb :
  wf st → bufferIndex st = 0 →
  (∃ st',
     processLine st (command_separator st) = Some (kProccesingMessage, st') ∧
     ∀ log bytes,
       feed_chunk cb st log (command_separator st :: bytes) =
       feed_chunk cb st' log bytes) ∧
  (lastCommandId entry_5x = 5 ∧ isArgOk entry_5x = true ∧
   token entry_5x = Some (B "5") ∧
   (∃ p st2, readStringArg entry_5x = Some (Some p, st2) ∧
             cstr_at (commandBuffer st2) p = Some (B "x")) ∧
   feedinSerialData cb (init 44 59 47) (mkEnv (B ";;5,x;") [] 0) =
     (st' ← match cb with Some f => f entry_5x | None => Some entry_5x end;
      Some (st', mkEnv [] [] 0, [B "5,x"]))).
Proof.
  intros Hwf Hidx. split.
  - assert (∃ st', processLine st (command_separator st) =
                     Some (kProccesingMessage, st')) as [st' H].
    { destruct ((command_separator st =? command_separator st)
                && negb (CmdlastChar st =? escape_character st)) eqn:E.
      - apply andb_true_iff in E as [_ Hl].
        apply negb_true_iff, Z.eqb_neq in Hl.
        destruct (processLine_separator st _ Hwf eq_refl Hl) as (st' & H & _).
        rewrite Hidx in H. eauto.
      - destruct (processLine_append st _ Hwf E) as (st' & H & _). eauto. }
    exists st'. split; [done|]. intros log bytes.
    cbn [feed_chunk]. rewrite H. done.
  - split; [reflexivity|]. split; [reflexivity|]. split; [reflexivity|].
    split; [do 2 eexists; split; vm_compute; reflexivity|].
    destruct cb as [f|]; [|vm_compute; reflexivity].
    vm_compute.
    match goal with
    | |- context [f ?s] => destruct (f s) as [st'|]; [|reflexivity]
    end.
    destruct st' as [? paused]. destruct paused; reflexivity.
Qed.

Lemma empty_frame_absorbed_witness :
  let st := init 44 59 47 in
  let cb := Some (λ st, snd <$> readStringArg st) in
  wf st ∧ bufferIndex st = 0 ∧
  (∃ st',
     processLine st (command_separator st) = Some (kProccesingMessage, st') ∧
     ∀ log bytes,
       feed_chunk cb st log (command_separator st :: bytes) =
       feed_chunk cb st' log bytes) ∧
  (lastCommandId entry_5x = 5 ∧ isArgOk entry_5x = true ∧
   token entry_5x = Some (B "5") ∧
   (∃ p st2, readStringArg entry_5x = Some (Some p, st2) ∧
             cstr_at (commandBuffer st2) p = Some (B "x")) ∧
   feedinSerialData cb (init 44 59 47) (mkEnv (B ";;5,x;") [] 0) =
     (st' ← match cb with Some f => f entry_5x | None => Some entry_5x end;
      Some (st', mkEnv [] [] 0, [B "5,x"]))).
Proof.
  intros st cb.
  assert (Hwf : wf st) by apply wf_init.
  assert (Hidx : bufferIndex st = 0) by reflexivity.
  split; [exact Hwf|]. split; [exact Hidx|].
  exact (empty_frame_absorbed st cb Hwf Hidx).
Defined.

(** C5 as stated fails on a frame of 200 bytes followed by its
    separator: [kEndOfMessage] is returned at the separator, for the
    last 9 bytes of the frame. *)
Lemma overlong_frame_tail_emitted :
  (λ '(mss, st'), (mss !! 200%nat, cstr_at (commandBuffer st') 0))
    <$> feed (init 44 59 47) (replicate 200 97 ++ [59])
  = Some (Some kEndOfMessage, Some (replicate 9 97)).
Proof. vm_compute. reflexivity. Qed.

End ReaderFacts.

(** ** Acknowledgment wait and command writer *)

Section WaitFacts.
Import Engine.
Variable clock : nat → Z.

Lemma checkForAck_ticks ack st env r st' env' :
  checkForAck ack st env = Some (r, st', env') → ticks env' = ticks env.
Proof.
  unfold checkForAck. destruct (rx env) as [|b rest]; [by intros [= _ _ <-]|].
  destruct (processLine st b) as [[ms st1]|]; [|done].
  cbn [mbind option_bind].
  destruct (is_end ms); [|by intros [= _ _ <-]].
  destruct (readInt16Arg st1) as [[id st2]|]; [|done].
  cbn [mbind option_bind].
  destruct (_ && _); by intros [= _ _ <-].
Qed.

(** The loop gives up only on a reading that is past the timeout. *)
Lemma blockedTillReply_loop_nak fuel :
  ∀ timeout ack start time ra st env st' env',
    blockedTillReply_loop clock fuel timeout ack start time ra st env
      = Some (false, st', env') →
    ∃ t, timeout ≤ (t - start) mod 2 ^ 32 ∧
         ((t = time ∧ ticks env' = ticks env) ∨
          ((ticks env < ticks env')%nat ∧ t = clock (ticks env' - 1)%nat)).
Proof.
  induction fuel as [|fuel IH];
    intros timeout ack start time ra st env st' env'.
  - cbn [blockedTillReply_loop].
    destruct (Z.ltb_spec ((time - start) mod 2 ^ 32) timeout), ra;
      cbn [andb negb]; try done; intros [= <- <-]; exists time;
      split; [lia|by left].
  - cbn [blockedTillReply_loop].
    destruct (Z.ltb_spec ((time - start) mod 2 ^ 32) timeout), ra;
      cbn [andb negb]; try done;
      try (intros [= <- <-]; exists time; split; [lia|by left]).
    unfold millis.
    destruct (checkForAck ack st _) as [[[r st1] env1]|] eqn:E; [|done].
    cbn [mbind option_bind]. apply checkForAck_ticks in E. cbn [ticks] in E.
    intros Hloop. apply IH in Hloop as (t & Ht & Hcase).
    exists t. split; [done|].
    right. destruct Hcase as [[-> Hk]|[Hlt ->]].
    + split; [lia|]. f_equal. lia.
    + split; [lia|done].
Qed.

(** C10.  With no command under construction, [sendCmdEnd] returns
    false and leaves the transport and the clock untouched, whatever
    acknowledgment was requested; [pauseProcessing] and [startCommand]
    are false afterwards, and nothing else in the engine changes. *)
Theorem sendCmdEnd_idle fuel reqAc ackCmdId timeout st env :
  startCommand st = false →
  ∃ st',
    sendCmdEnd clock fuel reqAc ackCmdId timeout st env
      = Some (false, st', env) ∧
    st' = set_startCommand false (set_pauseProcessing false st) ∧
    pauseProcessing st' = false ∧ startCommand st' = false.
Proof.
  intros H. unfold sendCmdEnd. rewrite H. cbn [mbind option_bind].
  eexists. split; [reflexivity|]. done.
Qed.

End WaitFacts.

Section WaitExamples.
Import Engine.

(** C3 as stated fails on the stream [2;1;] with expected id 1: the
    first frame completed has id 2, and the wait, all within its
    timeout, ends acknowledged on the second frame. *)
Lemma blockedTillReply_later_ack :
  fst <$> feed (init 44 59 47) (B "2;") =
    Some [kProccesingMessage; kEndOfMessage] ∧
  fst <$> readInt16Arg closed_2 = Some 2 ∧
  (λ r, fst (fst r)) <$>
    blockedTillReply (λ _, 0) 8 5000 1 (init 44 59 47)
      (mkEnv (B "2;1;") [] 0) = Some true.
Proof. repeat split; vm_compute; reflexivity. Qed.

Lemma sendCmdEnd_idle_witness :
  let st := set_pauseProcessing true (init 44 59 47) in
  let env := mkEnv (B "1;") (B "x") 0 in
  startCommand st = false ∧
  ∃ st',
    sendCmdEnd (λ _, 0) 5 true 1 5000 st env = Some (false, st', env) ∧
    st' = set_startCommand false (set_pauseProcessing false st) ∧
    pauseProcessing st' = false ∧ startCommand st' = false.
Proof.
  intros st env.
  assert (H : startCommand st = false) by reflexivity.
  split; [exact H|].
  exact (sendCmdEnd_idle (λ _, 0) 5 true 1 5000 st env H).
Defined.

End WaitExamples.

(** ** Argument tokenizer and typed reads *)

Section ReadFacts.
Import Engine.

Lemma bytes_eqb_eq a : ∀ b, bytes_eqb a b = true ↔ a = b.
Proof.
  induction a as [|x a IH]; intros [|y b]; cbn [bytes_eqb]; try done.
  rewrite andb_true_iff, Z.eqb_eq, IH. split; [intros [-> ->]|intros [= -> ->]];
    done.
Qed.

Lemma findNext_ArgOk st str pos st' :
  findNext st str = Some (pos, st') →
  ArgOk st' = ArgOk st ∧ commandBuffer st' = commandBuffer st.
Proof.
  unfold findNext. destruct str as [p|]; [|done]. cbn [mbind option_bind].
  destruct (findNext_loop _ _ _ _ _ _ _) as [[n l]|]; [|done].
  cbn [mbind option_bind]. by intros [= _ <-].
Qed.

Lemma split_r_strip_ArgOk fuel : ∀ st str r st',
  split_r_strip fuel st str = Some (r, st') → ArgOk st' = ArgOk st.
Proof.
  induction fuel as [|fuel IH]; intros st str r st'; [done|].
  cbn [split_r_strip].
  destruct (findNext st (Some str)) as [[pos st1]|] eqn:E; [|done].
  apply findNext_ArgOk in E as [E _]. cbn [mbind option_bind].
  destruct (load (commandBuffer st1) str) as [c|]; [|done].
  cbn [mbind option_bind].
  destruct (_ && _).
  - intros H. apply IH in H. congruence.
  - intros [= _ <-]. done.
Qed.

Lemma split_r_ArgOk st str r st' :
  split_r st str = Some (r, st') → ArgOk st' = ArgOk st.
Proof.
  unfold split_r.
  destruct (match str with Some p => Some p | None => last st end)
    as [p|]; [|done].
  cbn [mbind option_bind].
  destruct (split_r_strip _ st p) as [[q st1]|] eqn:E1; [|done].
  apply split_r_strip_ArgOk in E1. cbn [mbind option_bind].
  destruct (load (commandBuffer st1) q) as [c|]; [|done].
  cbn [mbind option_bind].
  destruct (c =? 0); [intros [= _ <-]; done|].
  destruct (findNext st1 (Some q)) as [[pos st2]|] eqn:E2; [|done].
  apply findNext_ArgOk in E2 as [E2 _]. cbn [mbind option_bind].
  destruct (load (commandBuffer st2) (q + pos)) as [d|]; [|done].
  cbn [mbind option_bind].
  destruct (negb (d =? 0)).
  - destruct (store _ _ _) as [buf|]; [|done]. cbn [mbind option_bind].
    intros [= _ <-]. cbn. congruence.
  - cbn [mbind option_bind]. intros [= _ <-]. cbn. congruence.
Qed.

Lemma next_ArgOk st b st' : next st = Some (b, st') → ArgOk st' = ArgOk st.
Proof.
  assert (Hd : ∀ tp s b s', next_default tp s = Some (b, s') →
                 ArgOk s' = ArgOk s).
  { intros tp s b0 s'. unfold next_default. destruct (dumped s).
    - destruct (split_r s tp) as [[r s1]|] eqn:E; [|done].
      apply split_r_ArgOk in E. cbn [mbind option_bind].
      destruct (current (set_current r s1));
        intros [= _ <-]; cbn; congruence.
    - cbn [mbind option_bind].
      destruct (current s); intros [= _ <-]; done. }
  unfold next. destruct (messageState st).
  - by intros [= _ <-].
  - intros H. apply Hd in H. done.
  - apply Hd.
Qed.

(** [readBinArg] leaves [ArgOk] as it found it, token or no token. *)
Lemma readBinArg_ArgOk size st v st' :
  readBinArg size st = Some (v, st') → ArgOk st' = ArgOk st.
Proof.
  unfold readBinArg. destruct (next st) as [[b st1]|] eqn:E; [|done].
  apply next_ArgOk in E. cbn [mbind option_bind]. destruct b.
  - destruct (current _) as [p|]; [|done]. cbn [mbind option_bind].
    unfold readBin. destruct (Codec.unescape _ _ _) as [buf|]; [|done].
    cbn [mbind option_bind]. destruct (mapM _ _) as [w|]; [|done].
    cbn [mbind option_bind]. intros [= _ <-]. cbn. congruence.
  - intros [= _ <-]. done.
Qed.

(** The reads other than the binary and the compare read assign
    [ArgOk] on both paths: it ends up as what [next()] returned, and
    the value is the sentinel when that is false. *)
Lemma sibling_reads_assign_ArgOk st :
  (∀ v st', readInt16Arg st = Some (v, st') →
     ∃ s1, next st = Some (ArgOk st', s1) ∧ (ArgOk st' = false → v = 0)) ∧
  (∀ v st', readInt32Arg st = Some (v, st') →
     ∃ s1, next st = Some (ArgOk st', s1) ∧ (ArgOk st' = false → v = 0)) ∧
  (∀ v st', readCharArg st = Some (v, st') →
     ∃ s1, next st = Some (ArgOk st', s1) ∧ (ArgOk st' = false → v = 0)) ∧
  (∀ v st', readStringArg st = Some (v, st') →
     ∃ s1, next st = Some (ArgOk st', s1) ∧ (ArgOk st' = false → v = None)) ∧
  (∀ size v st', copyStringArg st (S size) = Some (v, st') →
     ∃ s1, next st = Some (ArgOk st', s1) ∧
           (ArgOk st' = false → v = Some [])) ∧
  (∀ (real : Type) (strtod : list Z → real) to_float (zero v : real) st',
     readFloatArg strtod to_float zero st = Some (v, st') →
     ∃ s1, next st = Some (ArgOk st', s1) ∧ (ArgOk st' = false → v = zero)) ∧
  (∀ (real : Type) (strtod : list Z → real) (zero v : real) st',
     readDoubleArg strtod zero st = Some (v, st') →
     ∃ s1, next st = Some (ArgOk st', s1) ∧ (ArgOk st' = false → v = zero)).
Proof.
  unfold readInt16Arg, readInt32Arg, readCharArg, readStringArg,
    copyStringArg, readFloatArg, readDoubleArg.
  destruct (next st) as [[[|] s1]|]; cbn [mbind option_bind];
    split_and!; intros; try done;
    repeat match goal with
      | H : context [token ?s] |- _ =>
          destruct (token s); cbn [mbind option_bind] in H; try done
      | H : context [current ?s] |- _ =>
          destruct (current s); cbn [mbind option_bind] in H; try done
      | H : context [load ?b ?p] |- _ =>
          destruct (load b p); cbn [mbind option_bind] in H; try done
      | H : Some _ = Some _ |- _ => injection H as <- <-
      end;
    eexists; (split; [reflexivity|]); done.
Qed.

(** C6, on the frame [1,a,b].  After the id is read, [next()] locates
    [a] and leaves [dumped] true; a second [next()], with no typed read
    in between, moves on to [b]; the string read that follows finds no
    token.  The token [a] is never retrieved. *)
Theorem next_skips_unread_token :
  ('(_, st) ← feed (init 44 59 47) (B "1,a,b;");
   '(id, st) ← readInt16Arg st;
   '(b1, st1) ← next st; t1 ← token st1;
   '(b2, st2) ← next st1; t2 ← token st2;
   '(p, st3) ← readStringArg st2;
   Some (id, b1, t1, dumped st1, b2, t2, p, ArgOk st3))
  = Some (1, true, B "a", true, true, B "b", None, false).
Proof. vm_compute. reflexivity. Qed.

(** C8, on the frame [1,a,b].  [compareStringArg("z")] locates [a],
    returns 0 and clears [ArgOk]; the string read that follows returns
    [b], not [a]. *)
Theorem compareStringArg_mismatch_consumes :
  ('(_, st) ← feed (init 44 59 47) (B "1,a,b;");
   '(id, st) ← readInt16Arg st;
   '(r, st1) ← compareStringArg st (B "z"); t1 ← token st1;
   '(p, st2) ← readStringArg st1; t2 ← token st2;
   Some (r, t1, ArgOk st1, dumped st1, t2, ArgOk st2))
  = Some (0, B "a", false, true, B "b", true).
Proof. vm_compute. reflexivity. Qed.

(** C7, on the frames [1] and [1,a,b].  With no token left, the binary
    read returns a zero-filled value and the compare read returns 0,
    and [ArgOk] is still true from the read of the id; after a compare
    read that cleared [ArgOk], a binary read that finds the token [b]
    leaves [ArgOk] false. *)
Theorem readBinArg_keeps_ArgOk :
  ('(_, st) ← feed (init 44 59 47) (B "1;");
   '(id, st) ← readInt16Arg st;
   '(v, st1) ← readBinArg 4 st;
   '(r, st2) ← compareStringArg st (B "x");
   Some (ArgOk st, v, ArgOk st1, r, ArgOk st2))
  = Some (true, [0; 0; 0; 0], true, 0, true)
  ∧
  ('(_, st) ← feed (init 44 59 47) (B "1,a,b;");
   '(id, st) ← readInt16Arg st;
   '(r, st1) ← compareStringArg st (B "z");
   '(v, st2) ← readBinArg 1 st1;
   Some (ArgOk st1, v, ArgOk st2))
  = Some (false, [98], false).
Proof. split; vm_compute; reflexivity. Qed.

(** C9, on 9.9996 and 1.1 with three digits.  The fraction of 9.9996
    rounds to 1000 and is not carried: the output is [9.1000E+0].  The
    fraction of 1.1 rounds to 100 and is carried: the output is
    [2.000E+0].  With two digits, where [10^digits] is 100, 9.996 is
    carried to [10.00E+0]. *)
Theorem printSci_carry_constant :
  printSci_parts (99996 # 10000) 3 = (9, 1000, 0) ∧
  printSci (Finite (99996 # 10000)) 3 = "9.1000E+0"%string ∧
  printSci_parts (11 # 10) 3 = (2, 0, 0) ∧
  printSci (Finite (11 # 10)) 3 = "2.000E+0"%string ∧
  printSci (Finite (9996 # 1000)) 2 = "10.00E+0"%string.
Proof. repeat split; vm_compute; reflexivity. Qed.

End ReadFacts.

(** * The wire between two engines *)

Section ScanFacts.
Import Engine Api.

Lemma scan_app esc stop a : ∀ l b,
  scan esc stop l (a ++ b) = l' ← scan esc stop l a; scan esc stop l' b.
Proof.
  induction a as [|c a IH]; intros l b; [done|].
  cbn [app scan]. destruct (Codec.isEscaped esc c esc l) as [e l1].
  destruct (stop c && negb e); [done|]. apply IH.
Qed.

(** Bytes that are neither the escape byte nor a stop byte. *)
Lemma scan_plain esc stop s : ∀ l,
  l ≠ esc → Forall (λ c, c ≠ esc ∧ stop c = false) s →
  ∃ l', scan esc stop l s = Some l' ∧ l' ≠ esc.
Proof.
  induction s as [|c s IH]; intros l Hl Hs; [by exists l|].
  apply Forall_cons in Hs as [[Hc Hst] Hs].
  cbn [scan]. unfold Codec.isEscaped. rewrite Hst. cbn [andb].
  destruct (Z.eqb_spec c esc); [done|]. cbn [andb]. by apply IH.
Qed.

(** What [printEsc] emits for one byte. *)
Lemma scan_printEsc fs cs esc stop c l :
  esc ≠ 0 → stop esc = false →
  (∀ x, stop x = true → (x =? fs) || (x =? cs) || (x =? esc) || (x =? 0) = true) →
  l ≠ esc →
  ∃ l', scan esc stop l (Codec.printEsc fs cs esc c) = Some l' ∧ l' ≠ esc.
Proof.
  intros Hesc Hse Hstop Hl. unfold Codec.printEsc.
  destruct ((c =? fs) || (c =? cs) || (c =? esc) || (c =? 0)) eqn:Hsp.
  - cbn [scan]. unfold Codec.isEscaped. rewrite Hse. cbn [andb].
    rewrite Z.eqb_refl. destruct (Z.eqb_spec l esc); [done|]. cbn [andb].
    rewrite Z.eqb_refl, andb_false_r.
    destruct (Z.eqb_spec c esc); cbn [andb]; eexists; (split; [reflexivity|]);
      congruence.
  - assert (Hc : stop c = false).
    { destruct (stop c) eqn:E; [|done]. apply Hstop in E. congruence. }
    apply orb_false_iff in Hsp as [Hsp _]. apply orb_false_iff in Hsp as [_ Hsp].
    apply Z.eqb_neq in Hsp.
    apply scan_plain; [done|]. by constructor.
Qed.

Lemma scan_writeBin fs cs esc stop value : ∀ l,
  esc ≠ 0 → stop esc = false →
  (∀ x, stop x = true → (x =? fs) || (x =? cs) || (x =? esc) || (x =? 0) = true) →
  l ≠ esc →
  ∃ l', scan esc stop l (flat_map (Codec.printEsc fs cs esc) value) = Some l'
        ∧ l' ≠ esc.
Proof.
  intros l Hesc Hse Hstop. revert l.
  induction value as [|c value IH]; intros l Hl; [by exists l|].
  cbn [flat_map]. rewrite scan_app.
  destruct (scan_printEsc fs cs esc stop c l Hesc Hse Hstop Hl) as (l1 & -> & Hl1).
  cbn [mbind option_bind]. by apply IH.
Qed.

Lemma printEsc_str_flat_map fs cs esc s :
  Codec.printEsc_str fs cs esc s = flat_map (Codec.printEsc fs cs esc) (print_str s).
Proof.
  induction s as [|c s IH]; [done|]. cbn [Codec.printEsc_str print_str].
  destruct (c =? 0); [done|]. cbn [flat_map]. by rewrite IH.
Qed.

Lemma print_str_id s : Forall (λ c, c ≠ 0) s → print_str s = s.
Proof.
  induction 1 as [|c s Hc _ IH]; [done|]. cbn [print_str].
  destruct (Z.eqb_spec c 0); [done|]. by rewrite IH.
Qed.
End ScanFacts.

Section ReaderScan.
Import Engine Api.

(** Bytes without an unescaped separator pile up behind the prefix
    [p], escaped separators included. *)
Lemma feed_scan s : ∀ p st l',
  wf st → bufferIndex st = Z.of_nat (length p) →
  take (length p) (commandBuffer st) = p →
  scan (escape_character st) (stop_frame (command_separator st))
    (CmdlastChar st) s = Some l' →
  (length p + length s < 191)%nat →
  ∃ st', feed st s = Some (replicate (length s) kProccesingMessage, st')
    ∧ wf st' ∧ same_config st st'
    ∧ bufferIndex st' = Z.of_nat (length p + length s)
    ∧ take (length p + length s) (commandBuffer st') = p ++ s
    ∧ CmdlastChar st' = l'.
Proof.
  induction s as [|c s IH]; intros p st l' Hwf Hidx Hp Hscan Hlen.
  - exists st. rewrite Nat.add_0_r, app_nil_r. unfold same_config.
    cbn in Hscan. injection Hscan as <-. split_and!; done.
  - cbn [length] in Hlen. cbn [scan] in Hscan.
    unfold Codec.isEscaped, stop_frame in Hscan.
    destruct ((c =? command_separator st)
                && negb (CmdlastChar st =? escape_character st)) eqn:E;
      [done|].
    destruct (processLine_append st c Hwf E)
      as (st1 & H1 & Hwf1 & Hcfg1 & Hi1 & Hb1 & Hl1).
    destruct (Z.ltb_spec (bufferIndex st + 1) 191); [|lia].
    assert (Hin : (length p < length (commandBuffer st))%nat).
    { destruct Hwf as (Hl & _). rewrite Hl. unfold MESSENGERBUFFERSIZE. lia. }
    pose proof Hcfg1 as (Hcs1 & _ & Hesc1 & _).
    destruct (IH (p ++ [c]) st1 l') as (st2 & H2 & Hwf2 & Hcfg2 & Hi2 & Hb2 & Hl2).
    + done.
    + rewrite Hi1, Hidx, length_app. cbn [length]. lia.
    + rewrite Hb1, Hidx, Nat2Z.id, length_app. cbn [length].
      rewrite Nat.add_1_r.
      rewrite (take_S_r _ _ c) by (by apply list_lookup_insert_eq).
      rewrite take_insert_ge by lia. by rewrite Hp.
    + rewrite Hcs1, Hesc1, Hl1. exact Hscan.
    + rewrite length_app. cbn [length]. lia.
    + exists st2. cbn [feed]. rewrite H1. cbn [mbind option_bind]. rewrite H2.
      cbn [mbind option_bind].
      rewrite length_app in Hi2, Hb2. cbn [length] in Hi2, Hb2 |- *.
      replace (length p + S (length s))%nat
        with (length p + 1 + length s)%nat by lia.
      rewrite <- app_assoc in Hb2.
      split_and!; try done. by eapply same_config_trans.
Qed.

Lemma processLine_session st c ms st' :
  processLine st c = Some (ms, st') → same_session st st'.
Proof.
  unfold processLine. destruct (Codec.isEscaped _ _ _ _) as [e l].
  destruct (_ && _).
  - destruct (store _ _ _) as [buf|]; [|done]. cbn [mbind option_bind].
    intros [= _ <-]. destruct (0 <? _); done.
  - destruct (store _ _ _) as [buf|]; [|done]. cbn [mbind option_bind].
    intros [= _ <-]. destruct (_ <=? _); done.
Qed.

(** The separator that closes a non-empty frame. *)
Lemma processLine_complete st :
  wf st → CmdlastChar st ≠ escape_character st → 0 < bufferIndex st →
  ∃ st', processLine st (command_separator st) = Some (kEndOfMessage, st')
    ∧ wf st' ∧ same_config st st' ∧ bufferIndex st' = 0
    ∧ commandBuffer st' = <[Z.to_nat (bufferIndex st) := 0]> (commandBuffer st)
    ∧ messageState st' = kEndOfMessage ∧ dumped st' = true
    ∧ CmdlastChar st' = 0.
Proof.
  intros Hwf Hl Hpos. pose proof Hwf as (Hlen & Hlast & Hidx).
  unfold MESSENGERBUFFERSIZE in *.
  unfold processLine, Codec.isEscaped. cbn.
  destruct (Z.eqb_spec (CmdlastChar st) (escape_character st)); [done|].
  rewrite Z.eqb_refl. cbn.
  rewrite store_in_bounds by lia. cbn.
  destruct (Z.ltb_spec 0 (bufferIndex st)); [|lia]. cbn.
  eexists. split; [reflexivity|].
  unfold wf, same_config, MESSENGERBUFFERSIZE. cbn. rewrite length_insert.
  split_and!; try done; lia.
Qed.

(** A frame without unescaped separators, then the separator. *)
Lemma feed_frame_scan s st l' :
  wf st → bufferIndex st = 0 → s ≠ [] → (length s ≤ 190)%nat →
  scan (escape_character st) (stop_frame (command_separator st))
    (CmdlastChar st) s = Some l' →
  l' ≠ escape_character st →
  ∃ st', feed st (s ++ [command_separator st]) =
           Some (replicate (length s) kProccesingMessage ++ [kEndOfMessage],
                 st')
    ∧ wf st' ∧ same_config st st' ∧ bufferIndex st' = 0
    ∧ take (S (length s)) (commandBuffer st') = s ++ [0]
    ∧ messageState st' = kEndOfMessage ∧ dumped st' = true
    ∧ CmdlastChar st' = 0.
Proof.
  intros Hwf Hidx Hne Hlen Hscan Hl'.
  destruct (feed_scan s [] st l') as (st1 & H1 & Hwf1 & Hcfg1 & Hi1 & Hb1 & Hl1);
    [done|done|apply take_0|done|cbn; lia|].
  cbn [length Nat.add app] in Hi1, Hb1.
  pose proof Hcfg1 as (Hcs1 & _ & Hesc1 & _ & Hlen1).
  destruct (processLine_complete st1 Hwf1) as
    (st2 & H2 & Hwf2 & Hcfg2 & Hi2 & Hb2 & Hms & Hd & Hc0).
  { rewrite Hl1, Hesc1. done. }
  { rewrite Hi1. destruct s; [done|]. cbn [length]. lia. }
  exists st2. rewrite feed_app, H1. cbn [mbind option_bind feed].
  rewrite <- Hcs1, H2. cbn [mbind option_bind feed].
  split_and!; try done; [by eapply same_config_trans|].
  assert (Hin : (length s < length (commandBuffer st1))%nat).
  { destruct Hwf1 as (Hl & _). rewrite Hl. unfold MESSENGERBUFFERSIZE. lia. }
  rewrite Hb2, Hi1, Nat2Z.id.
  rewrite (take_S_r _ _ 0) by (by apply list_lookup_insert_eq).
  rewrite take_insert_ge by lia. by rewrite Hb1.
Qed.
(** Bytes without an unescaped separator that fill the buffer up to
    its last cell: the buffer is reset at the last one, the escape
    cell is kept, and no state but [kProccesingMessage] is returned. *)
Lemma feed_overflow_scan junk st l1 :
  wf st → (Z.to_nat (bufferIndex st) + length junk = 191)%nat →
  scan (escape_character st) (stop_frame (command_separator st))
    (CmdlastChar st) junk = Some l1 →
  ∃ st', feed st junk = Some (replicate (length junk) kProccesingMessage, st')
    ∧ wf st' ∧ same_config st st' ∧ bufferIndex st' = 0
    ∧ CmdlastChar st' = l1.
Proof.
  intros Hwf Hlen Hscan.
  pose proof Hwf as (Hbl & Hlast & Hidx). unfold MESSENGERBUFFERSIZE in *.
  destruct (decide (junk = [])) as [->|Hne]; [cbn in Hlen; lia|].
  destruct (exists_last Hne) as (j & x & ->).
  rewrite length_app in Hlen. cbn [length] in Hlen.
  rewrite scan_app in Hscan.
  destruct (scan _ _ _ j) as [lj|] eqn:Hsj; [|done].
  cbn [mbind option_bind] in Hscan.
  set (p := take (Z.to_nat (bufferIndex st)) (commandBuffer st)).
  assert (Hp : length p = Z.to_nat (bufferIndex st)).
  { subst p. rewrite length_take. lia. }
  destruct (feed_scan j p st lj)
    as (st1 & H1 & Hwf1 & Hcfg1 & Hi1 & _ & Hl1); try done.
  { rewrite Hp. lia. }
  { rewrite Hp. done. }
  { lia. }
  pose proof Hcfg1 as (Hcs1 & _ & Hesc1 & _).
  cbn [scan] in Hscan. rewrite <- Hcs1, <- Hesc1, <- Hl1 in Hscan.
  unfold Codec.isEscaped, stop_frame in Hscan.
  destruct ((x =? command_separator st1)
              && negb (CmdlastChar st1 =? escape_character st1)) eqn:E;
    [done|].
  injection Hscan as Hl.
  destruct (processLine_append st1 x Hwf1 E)
    as (st2 & H2 & Hwf2 & Hcfg2 & Hi2 & _ & Hl2).
  exists st2. rewrite feed_app, H1. cbn [mbind option_bind feed]. rewrite H2.
  cbn [mbind option_bind feed].
  rewrite length_app, replicate_add. cbn [length replicate].
  split; [done|]. split; [done|]. split; [by eapply same_config_trans|].
  split.
  - rewrite Hi2, Hi1.
    destruct (Z.ltb_spec (Z.of_nat (length p + length j) + 1) 191); [lia|done].
  - rewrite Hl2. unfold Codec.isEscaped. cbn [snd]. exact Hl.
Qed.

(** C5, as the code has it.  From a well-formed state every byte
    stream is processed with all buffer writes in bounds and
    [bufferIndex] at most 190 between bytes.  When bytes without an
    unescaped separator bring the length piled up for a frame to 191,
    they are dropped by a reset, [kEndOfMessage] is returned at none
    of them, and the reader's escape cell is kept.  The bytes that
    follow up to the next unescaped separator, 1 to 190 of them with
    no escape pending at their end, pile up on the reset buffer and
    are handed over at that separator as a frame of their own, whether
    they are the rest of the over-long frame or a new frame; so is a
    frame that arrives on an empty buffer. *)
Theorem frame_buffer_overflow st :
  wf st →
  (∀ bytes, ∃ mss st', feed st bytes = Some (mss, st') ∧ wf st') ∧
  (∀ junk l1,
     (Z.to_nat (bufferIndex st) + length junk = 191)%nat →
     scan (escape_character st) (stop_frame (command_separator st))
       (CmdlastChar st) junk = Some l1 →
     ∃ st1, feed st junk = Some (replicate (length junk) kProccesingMessage, st1)
       ∧ wf st1 ∧ bufferIndex st1 = 0 ∧ CmdlastChar st1 = l1
       ∧ ∀ f l2,
           f ≠ [] → (length f ≤ 190)%nat →
           scan (escape_character st) (stop_frame (command_separator st))
             l1 f = Some l2 →
           l2 ≠ escape_character st →
           ∃ st2, feed st (junk ++ f ++ [command_separator st]) =
                    Some (replicate (length junk + length f) kProccesingMessage
                            ++ [kEndOfMessage], st2)
             ∧ wf st2 ∧ bufferIndex st2 = 0
             ∧ take (S (length f)) (commandBuffer st2) = f ++ [0]) ∧
  (bufferIndex st = 0 →
   ∀ f l2,
     f ≠ [] → (length f ≤ 190)%nat →
     scan (escape_character st) (stop_frame (command_separator st))
       (CmdlastChar st) f = Some l2 →
     l2 ≠ escape_character st →
     ∃ st', feed st (f ++ [command_separator st]) =
              Some (replicate (length f) kProccesingMessage
                      ++ [kEndOfMessage], st')
       ∧ wf st' ∧ bufferIndex st' = 0
       ∧ take (S (length f)) (commandBuffer st') = f ++ [0]).
Proof.
  intros Hwf. split_and!.
  - intros bytes. destruct (feed_wf bytes st Hwf) as (mss & st' & H & ? & _).
    eauto.
  - intros junk l1 Hlen Hscan.
    destruct (feed_overflow_scan junk st l1 Hwf Hlen Hscan)
      as (st1 & H1 & Hwf1 & (Hcs1 & _ & Hesc1 & _) & Hi1 & Hl1).
    exists st1. split_and!; try done.
    intros f l2 Hne Hlenf Hsf Hl2.
    destruct (feed_frame_scan f st1 l2)
      as (st2 & H2 & Hwf2 & _ & Hi2 & Hb2 & _); try done.
    { by rewrite Hcs1, Hesc1, Hl1. }
    { by rewrite Hesc1. }
    exists st2. rewrite feed_app, H1. cbn [mbind option_bind].
    rewrite <- Hcs1, H2. cbn [mbind option_bind].
    rewrite app_assoc, <- replicate_add. done.
  - intros Hidx f l2 Hne Hlenf Hsf Hl2.
    destruct (feed_frame_scan f st l2)
      as (st2 & H2 & Hwf2 & _ & Hi2 & Hb2 & _); try done.
    by exists st2.
Qed.

Lemma frame_buffer_overflow_witness :
  let st := init 44 59 47 in
  wf st ∧
  (∀ bytes, ∃ mss st', feed st bytes = Some (mss, st') ∧ wf st') ∧
  (∀ junk l1,
     (Z.to_nat (bufferIndex st) + length junk = 191)%nat →
     scan (escape_character st) (stop_frame (command_separator st))
       (CmdlastChar st) junk = Some l1 →
     ∃ st1, feed st junk = Some (replicate (length junk) kProccesingMessage, st1)
       ∧ wf st1 ∧ bufferIndex st1 = 0 ∧ CmdlastChar st1 = l1
       ∧ ∀ f l2,
           f ≠ [] → (length f ≤ 190)%nat →
           scan (escape_character st) (stop_frame (command_separator st))
             l1 f = Some l2 →
           l2 ≠ escape_character st →
           ∃ st2, feed st (junk ++ f ++ [command_separator st]) =
                    Some (replicate (length junk + length f) kProccesingMessage
                            ++ [kEndOfMessage], st2)
             ∧ wf st2 ∧ bufferIndex st2 = 0
             ∧ take (S (length f)) (commandBuffer st2) = f ++ [0]) ∧
  (bufferIndex st = 0 →
   ∀ f l2,
     f ≠ [] → (length f ≤ 190)%nat →
     scan (escape_character st) (stop_frame (command_separator st))
       (CmdlastChar st) f = Some l2 →
     l2 ≠ escape_character st →
     ∃ st', feed st (f ++ [command_separator st]) =
              Some (replicate (length f) kProccesingMessage
                      ++ [kEndOfMessage], st')
       ∧ wf st' ∧ bufferIndex st' = 0
       ∧ take (S (length f)) (commandBuffer st') = f ++ [0]).
Proof.
  intros st. assert (Hwf : wf st) by apply wf_init.
  split; [exact Hwf|]. exact (frame_buffer_overflow st Hwf).
Defined.
End ReaderScan.

Section TokenizerFacts.
Import Engine Api.

Lemma stop_field_true fs d : stop_field fs d = true ↔ d = 0 ∨ d = fs.
Proof. unfold stop_field. rewrite orb_true_iff, !Z.eqb_eq. done. Qed.

(** [findNext] runs over bytes without an unescaped stop byte and
    returns at the unescaped stop byte behind them. *)
Lemma findNext_loop_scan esc fs s : ∀ (pre post : list Z) d l l' fuel pos,
  scan esc (stop_field fs) l s = Some l' →
  stop_field fs d = true → l' ≠ esc → (length s < fuel)%nat →
  findNext_loop fuel esc fs (pre ++ s ++ d :: post) (length pre) pos l =
  Some ((pos + length s)%nat, snd (Codec.isEscaped esc d esc l')).
Proof.
  induction s as [|c s IH]; intros pre post d l l' fuel pos Hscan Hd Hl' Hfuel.
  - cbn in Hscan. injection Hscan as <-. destruct fuel; [cbn in Hfuel; lia|].
    cbn [findNext_loop app]. rewrite load_middle. cbn [mbind option_bind].
    unfold Codec.isEscaped. destruct (Z.eqb_spec l esc); [done|].
    cbn [negb]. rewrite !andb_true_r, andb_false_r. rewrite Nat.add_0_r.
    unfold stop_field in Hd.
    destruct (d =? 0); [done|]. cbn [orb] in Hd. rewrite Hd. done.
  - cbn [length] in Hfuel. destruct fuel; [lia|].
    cbn [scan] in Hscan. cbn [findNext_loop app]. rewrite load_middle.
    cbn [mbind option_bind].
    destruct (Codec.isEscaped esc c esc l) as [e l1].
    unfold stop_field in Hscan at 1.
    destruct (((c =? 0) || (c =? fs)) && negb e) eqn:E; [done|].
    assert (E1 : (c =? 0) && negb e = false).
    { destruct (c =? 0), e; done. }
    assert (E2 : (c =? fs) && negb e = false).
    { destruct (c =? 0), (c =? fs), e; done. }
    rewrite E1, E2.
    specialize (IH (pre ++ [c]) post d l1 l' fuel (S pos) Hscan Hd Hl').
    rewrite <- app_assoc, length_app in IH. cbn [app length] in IH.
    rewrite Nat.add_1_r in IH. rewrite IH by lia. cbn [length]. f_equal. f_equal. lia.
Qed.

Lemma set_state_eq st buf a q :
  commandBuffer st = buf →
  set_last q (set_ArglastChar a (set_ArglastChar a st)) =
  set_last q (set_commandBuffer buf (set_ArglastChar a st)).
Proof. intros <-. by destruct st. Qed.

(** At the null byte [findNext] returns 0. *)
Lemma findNext_loop_null esc fs (pre post : list Z) fuel :
  esc ≠ 0 →
  findNext_loop (S fuel) esc fs (pre ++ 0 :: post) (length pre) 0 0 =
  Some (0%nat, 0).
Proof.
  intros Hesc. cbn [findNext_loop]. rewrite load_middle. cbn [mbind option_bind].
  unfold Codec.isEscaped. destruct (Z.eqb_spec 0 esc); [congruence|]. done.
Qed.

(** At a field separator [findNext] returns 0. *)
Lemma findNext_loop_sep esc fs (pre post : list Z) fuel :
  esc ≠ 0 → fs ≠ 0 → fs ≠ esc →
  findNext_loop (S fuel) esc fs (pre ++ fs :: post) (length pre) 0 0 =
  Some (0%nat, fs).
Proof.
  intros Hesc Hfs Hfe. cbn [findNext_loop]. rewrite load_middle.
  cbn [mbind option_bind]. unfold Codec.isEscaped.
  destruct (Z.eqb_spec 0 esc); [congruence|].
  destruct (Z.eqb_spec fs 0); [done|]. destruct (Z.eqb_spec fs esc); [done|].
  cbn. by rewrite Z.eqb_refl.
Qed.

(** The first byte behind a scan that starts on an empty cell is
    neither null nor the separator. *)
Lemma scan_head esc fs c s l' :
  esc ≠ 0 → scan esc (stop_field fs) 0 (c :: s) = Some l' → c ≠ 0 ∧ c ≠ fs.
Proof.
  intros Hesc. cbn [scan]. unfold Codec.isEscaped, stop_field.
  destruct (Z.eqb_spec 0 esc); [congruence|]. cbn [negb]. rewrite andb_true_r.
  destruct (Z.eqb_spec c 0), (Z.eqb_spec c fs); done.
Qed.

Lemma set_ArglastChar_twice a b st :
  set_ArglastChar a (set_ArglastChar b st) = set_ArglastChar a st.
Proof. by destruct st. Qed.

(** One turn of the stripping loop of [split_r], on a separator. *)
Lemma split_r_strip_sep st (pre R : list Z) fuel :
  escape_character st ≠ 0 → field_separator st ≠ 0 →
  field_separator st ≠ escape_character st →
  commandBuffer st = pre ++ field_separator st :: R →
  split_r_strip (S fuel) st (length pre) =
  split_r_strip fuel (set_ArglastChar (field_separator st) st) (S (length pre)).
Proof.
  intros Hesc Hfs Hfe Hbuf.
  cbn [split_r_strip]. unfold findNext. cbn [mbind option_bind].
  rewrite Hbuf, findNext_loop_sep by done.
  cbn [mbind option_bind commandBuffer set_ArglastChar].
  rewrite Hbuf, load_middle. cbn [mbind option_bind].
  destruct (Z.eqb_spec (field_separator st) 0); [done|]. done.
Qed.

(** The stripping loop stops on the token behind [k] separators. *)
Lemma split_r_strip_token k : ∀ st (pre s post : list Z) d l' fuel,
  escape_character st ≠ 0 → field_separator st ≠ 0 →
  field_separator st ≠ escape_character st →
  commandBuffer st = pre ++ replicate k (field_separator st) ++ s ++ d :: post →
  s ≠ [] →
  scan (escape_character st) (stop_field (field_separator st)) 0 s = Some l' →
  l' ≠ escape_character st → stop_field (field_separator st) d = true →
  (k < fuel)%nat →
  split_r_strip fuel st (length pre) =
  Some ((length pre + k)%nat,
        set_ArglastChar
          (snd (Codec.isEscaped (escape_character st) d (escape_character st) l'))
          st).
Proof.
  induction k as [|k IH];
    intros st pre s post d l' fuel Hesc Hfs Hfe Hbuf Hne Hscan Hl' Hd Hfuel.
  - destruct fuel; [lia|]. cbn [replicate app] in Hbuf.
    cbn [split_r_strip]. unfold findNext. cbn [mbind option_bind].
    rewrite Hbuf.
    rewrite (findNext_loop_scan _ _ s pre post d 0 l') by
      (try done; rewrite !length_app; cbn [length]; lia).
    cbn [mbind option_bind commandBuffer set_ArglastChar]. rewrite Hbuf.
    destruct s as [|c s]; [done|].
    cbn [app]. rewrite load_middle. cbn [mbind option_bind length Nat.add Nat.eqb andb].
    by rewrite Nat.add_0_r.
  - destruct fuel; [lia|]. cbn [replicate app] in Hbuf.
    rewrite (split_r_strip_sep st pre _ fuel Hesc Hfs Hfe Hbuf).
    specialize (IH (set_ArglastChar (field_separator st) st)
                  (pre ++ [field_separator st]) s post d l' fuel).
    cbn [escape_character field_separator commandBuffer set_ArglastChar] in IH.
    rewrite length_app in IH. cbn [length] in IH. rewrite Nat.add_1_r in IH.
    rewrite IH; try done; try lia.
    + rewrite set_ArglastChar_twice. f_equal. f_equal. lia.
    + rewrite Hbuf, <- app_assoc. done.
Qed.

(** The stripping loop stops on the null byte behind [k] separators. *)
Lemma split_r_strip_end k : ∀ st (pre post : list Z) fuel,
  escape_character st ≠ 0 → field_separator st ≠ 0 →
  field_separator st ≠ escape_character st →
  commandBuffer st = pre ++ replicate k (field_separator st) ++ 0 :: post →
  (k < fuel)%nat →
  split_r_strip fuel st (length pre) =
  Some ((length pre + k)%nat, set_ArglastChar 0 st).
Proof.
  induction k as [|k IH]; intros st pre post fuel Hesc Hfs Hfe Hbuf Hfuel.
  - destruct fuel; [lia|]. cbn [replicate app] in Hbuf.
    cbn [split_r_strip]. unfold findNext. cbn [mbind option_bind].
    rewrite Hbuf, findNext_loop_null by done.
    cbn [mbind option_bind commandBuffer set_ArglastChar]. rewrite Hbuf.
    rewrite load_middle. cbn [mbind option_bind]. by rewrite Nat.add_0_r.
  - destruct fuel; [lia|]. cbn [replicate app] in Hbuf.
    rewrite (split_r_strip_sep st pre _ fuel Hesc Hfs Hfe Hbuf).
    specialize (IH (set_ArglastChar (field_separator st) st)
                  (pre ++ [field_separator st]) post fuel).
    cbn [escape_character field_separator commandBuffer set_ArglastChar] in IH.
    rewrite length_app in IH. cbn [length] in IH. rewrite Nat.add_1_r in IH.
    rewrite IH; try done; try lia.
    + rewrite set_ArglastChar_twice. f_equal. f_equal. lia.
    + rewrite Hbuf, <- app_assoc. done.
Qed.

(** [split_r] on a token behind [k] separators: the token is
    terminated in place and [last] moves behind it. *)
Lemma split_r_token st str k (pre s post : list Z) d l' :
  (match str with Some p => Some p | None => last st end) = Some (length pre) →
  escape_character st ≠ 0 → field_separator st ≠ 0 →
  field_separator st ≠ escape_character st →
  commandBuffer st = pre ++ replicate k (field_separator st) ++ s ++ d :: post →
  s ≠ [] →
  scan (escape_character st) (stop_field (field_separator st)) 0 s = Some l' →
  l' ≠ escape_character st → stop_field (field_separator st) d = true →
  ∃ a,
  split_r st str =
  Some (Some (length pre + k)%nat,
        set_last (Some (length pre + k + length s + (if (d =? 0)%Z then 0 else 1))%nat)
          (set_commandBuffer
             (pre ++ replicate k (field_separator st) ++ s ++ 0 :: post)
             (set_ArglastChar a st))).
Proof.
  intros Hstr Hesc Hfs Hfe Hbuf Hne Hscan Hl' Hd.
  exists (snd (Codec.isEscaped (escape_character st) d (escape_character st) l')).
  set (a := snd _).
  unfold split_r. rewrite Hstr. cbn [mbind option_bind].
  rewrite (split_r_strip_token k st pre s post d l') by
    (try done; rewrite Hbuf, !length_app, length_replicate; lia).
  fold a. cbn [mbind option_bind commandBuffer set_ArglastChar].
  assert (Hbuf2 : commandBuffer st =
            (pre ++ replicate k (field_separator st)) ++ s ++ d :: post)
    by (by rewrite Hbuf, <- app_assoc).
  assert (Hlen2 : length (pre ++ replicate k (field_separator st))
                  = (length pre + k)%nat)
    by (by rewrite length_app, length_replicate).
  destruct s as [|c s]; [done|].
  destruct (scan_head _ _ _ _ _ Hesc Hscan) as [Hc0 Hcf].
  rewrite Hbuf2 at 1. rewrite <- Hlen2. cbn [app]. rewrite load_middle.
  cbn [mbind option_bind]. destruct (Z.eqb_spec c 0); [done|].
  unfold findNext. cbn [mbind option_bind commandBuffer set_ArglastChar
    escape_character field_separator].
  rewrite Hbuf2.
  rewrite (findNext_loop_scan _ _ (c :: s) _ post d 0 l') by
    (try done; rewrite !length_app; cbn [length]; lia).
  fold a. cbn [mbind option_bind commandBuffer set_ArglastChar Nat.add].
  rewrite Hbuf2.
  replace (load ((pre ++ replicate k (field_separator st)) ++ (c :: s) ++ d :: post)
             (length (pre ++ replicate k (field_separator st)) + length (c :: s)))
    with (Some d).
  2:{ symmetry. rewrite <- length_app, app_assoc. apply load_middle. }
  cbn [mbind option_bind]. rewrite set_ArglastChar_twice.
  destruct (Z.eqb_spec d 0) as [->|Hd0]; cbn [negb].
  - cbn [mbind option_bind]. f_equal. f_equal. rewrite Nat.add_0_r.
    rewrite <- app_assoc in Hbuf2. cbn [app] in Hbuf2. clearbody a.
    destruct st; cbn in *; subst; reflexivity.
  - replace (store ((pre ++ replicate k (field_separator st)) ++ (c :: s) ++ d :: post)
               (length (pre ++ replicate k (field_separator st)) + length (c :: s)) 0)
      with (Some ((pre ++ replicate k (field_separator st)) ++ (c :: s) ++ 0 :: post)).
    2:{ symmetry. rewrite <- length_app, !app_assoc. apply store_middle. }
    cbn [mbind option_bind]. f_equal. f_equal. rewrite <- app_assoc. cbn [app].
    rewrite Nat.add_1_r. clearbody a. by destruct st.
Qed.

(** [split_r] at the end of the frame, behind [k] separators: the null
    pointer is returned and [last] stays. *)
Lemma split_r_end st str k (pre post : list Z) :
  (match str with Some p => Some p | None => last st end) = Some (length pre) →
  escape_character st ≠ 0 → field_separator st ≠ 0 →
  field_separator st ≠ escape_character st →
  commandBuffer st = pre ++ replicate k (field_separator st) ++ 0 :: post →
  split_r st str = Some (None, set_ArglastChar 0 st).
Proof.
  intros Hstr Hesc Hfs Hfe Hbuf.
  unfold split_r. rewrite Hstr. cbn [mbind option_bind].
  rewrite (split_r_strip_end k st pre post) by
    (try done; rewrite Hbuf, !length_app, length_replicate; cbn [length]; lia).
  cbn [mbind option_bind commandBuffer set_ArglastChar].
  rewrite Hbuf, app_assoc.
  replace (length pre + k)%nat with (length (pre ++ replicate k (field_separator st)))
    by (by rewrite length_app, length_replicate).
  rewrite load_middle. done.
Qed.
End TokenizerFacts.

Section NextFacts.
Import Engine Api.

Lemma cstr_at_middle (pre s post : list Z) :
  Forall (λ c, c ≠ 0) s → cstr_at (pre ++ s ++ 0 :: post) (length pre) = Some s.
Proof.
  intros Hs. unfold cstr_at. rewrite drop_app_length. by apply cstr_app.
Qed.

(** [next()] on a token behind [k] separators. *)
Lemma next_token st k (pre s post : list Z) d l' :
  resumes_at st (length pre) → dumped st = true →
  escape_character st ≠ 0 → field_separator st ≠ 0 →
  field_separator st ≠ escape_character st →
  commandBuffer st = pre ++ replicate k (field_separator st) ++ s ++ d :: post →
  s ≠ [] →
  scan (escape_character st) (stop_field (field_separator st)) 0 s = Some l' →
  l' ≠ escape_character st → stop_field (field_separator st) d = true →
  ∃ st', next st = Some (true, st')
    ∧ current st' = Some (length pre + k)%nat
    ∧ last st' =
        Some (length pre + k + length s + (if (d =? 0)%Z then 0 else 1))%nat
    ∧ commandBuffer st' =
        pre ++ replicate k (field_separator st) ++ s ++ 0 :: post
    ∧ messageState st' = kProcessingArguments ∧ dumped st' = true
    ∧ same_separators st st' ∧ same_session st st'.
Proof.
  intros Hres Hdump Hesc Hfs Hfe Hbuf Hne Hscan Hl' Hd.
  unfold next, next_default.
  destruct Hres as [[Hms Hp]|[Hms Hlast]]; rewrite Hms.
  - cbn [dumped set_messageState]. rewrite Hdump.
    destruct (split_r_token (set_messageState kProcessingArguments st)
                (Some 0%nat) k pre s post d l') as (a & ->); try done.
    { cbn. by rewrite Hp. }
    cbn [mbind option_bind]. cbn. eexists. split; [reflexivity|].
    cbn. split_and!; done.
  - rewrite Hdump.
    destruct (split_r_token st None k pre s post d l') as (a & ->); try done.
    cbn [mbind option_bind]. cbn. eexists. split; [reflexivity|].
    cbn. split_and!; done.
Qed.

(** [next()] at the end of the frame, behind [k] separators. *)
Lemma next_exhausted st k (pre post : list Z) :
  resumes_at st (length pre) → dumped st = true →
  escape_character st ≠ 0 → field_separator st ≠ 0 →
  field_separator st ≠ escape_character st →
  commandBuffer st = pre ++ replicate k (field_separator st) ++ 0 :: post →
  ∃ st', next st = Some (false, st')
    ∧ current st' = None ∧ last st' = last st
    ∧ commandBuffer st' = commandBuffer st
    ∧ messageState st' = kProcessingArguments ∧ dumped st' = true
    ∧ same_separators st st' ∧ same_session st st'.
Proof.
  intros Hres Hdump Hesc Hfs Hfe Hbuf.
  unfold next, next_default.
  destruct Hres as [[Hms Hp]|[Hms Hlast]]; rewrite Hms.
  - cbn [dumped set_messageState]. rewrite Hdump.
    rewrite (split_r_end (set_messageState kProcessingArguments st)
               (Some 0%nat) k pre post); try done.
    2:{ cbn. by rewrite Hp. }
    cbn [mbind option_bind]. cbn. eexists. split; [reflexivity|].
    cbn. split_and!; done.
  - rewrite Hdump.
    rewrite (split_r_end st None k pre post); try done.
    cbn [mbind option_bind]. cbn. eexists. split; [reflexivity|].
    cbn. split_and!; done.
Qed.
End NextFacts.

Section FieldFacts.
Import Engine Api.

(** A string read on a token behind [k] separators. *)
Lemma readStringArg_token st k (pre s post : list Z) d l' :
  resumes_at st (length pre) → dumped st = true →
  escape_character st ≠ 0 → field_separator st ≠ 0 →
  field_separator st ≠ escape_character st →
  commandBuffer st = pre ++ replicate k (field_separator st) ++ s ++ d :: post →
  s ≠ [] →
  scan (escape_character st) (stop_field (field_separator st)) 0 s = Some l' →
  l' ≠ escape_character st → stop_field (field_separator st) d = true →
  ∃ st', readStringArg st = Some (Some (length pre + k)%nat, st')
    ∧ current st' = Some (length pre + k)%nat
    ∧ resumes_at st'
        (length pre + k + length s + (if (d =? 0)%Z then 0 else 1))%nat
    ∧ commandBuffer st' =
        pre ++ replicate k (field_separator st) ++ s ++ 0 :: post
    ∧ dumped st' = true ∧ ArgOk st' = true
    ∧ same_separators st st'.
Proof.
  intros Hres Hdump Hesc Hfs Hfe Hbuf Hne Hscan Hl' Hd.
  destruct (next_token st k pre s post d l')
    as (st1 & Hn & Hcur & Hlast & Hb & Hms & Hdu & Hsep & _); try done.
  unfold readStringArg. rewrite Hn. cbn [mbind option_bind].
  eexists. split; [cbn; by rewrite Hcur|]. cbn.
  split_and!; try done. right. done.
Qed.

(** A string read at the end of the frame. *)
Lemma readStringArg_exhausted st k (pre post : list Z) :
  resumes_at st (length pre) → dumped st = true →
  escape_character st ≠ 0 → field_separator st ≠ 0 →
  field_separator st ≠ escape_character st →
  commandBuffer st = pre ++ replicate k (field_separator st) ++ 0 :: post →
  ∃ st', readStringArg st = Some (None, st')
    ∧ ArgOk st' = false ∧ last st' = last st
    ∧ commandBuffer st' = commandBuffer st
    ∧ messageState st' = kProcessingArguments ∧ dumped st' = true
    ∧ same_separators st st'.
Proof.
  intros Hres Hdump Hesc Hfs Hfe Hbuf.
  destruct (next_exhausted st k pre post)
    as (st1 & Hn & Hcur & Hlast & Hb & Hms & Hdu & Hsep & _); try done.
  unfold readStringArg. rewrite Hn. cbn [mbind option_bind].
  eexists. split; [reflexivity|]. cbn. split_and!; done.
Qed.

(** The fields of a frame come out in order, and the read after the
    last one is not OK. *)
Lemma read_strings_fields fs esc items : ∀ st (pre : list Z) t post n,
  field_separator st = fs → escape_character st = esc →
  esc ≠ 0 → fs ≠ 0 → fs ≠ esc →
  resumes_at st (length pre) → dumped st = true →
  commandBuffer st =
    pre ++ fields_bytes fs items ++ replicate t fs ++ 0 :: post →
  Forall (λ kf, field_ok fs esc kf.2) items →
  ∃ st', read_strings n st = Some (take n (map snd items), st')
    ∧ ((length items < n)%nat → isArgOk st' = false).
Proof.
  induction items as [|[k f] rest IH];
    intros st pre t post n Hfs Hesc Hesc0 Hfs0 Hfe Hres Hdump Hbuf Hok.
  - destruct n as [|n]; [exists st; split; [done|cbn; lia]|].
    cbn [fields_bytes app] in Hbuf.
    destruct (readStringArg_exhausted st t pre post)
      as (st1 & Hr & Hnok & _); try (subst; done).
    exists st1. cbn [read_strings]. rewrite Hr. cbn [mbind option_bind].
    unfold isArgOk. rewrite Hnok. done.
  - destruct n as [|n]; [exists st; split; [done|cbn; lia]|].
    apply Forall_cons in Hok as [(Hne & Hnz & l' & Hscan & Hl') Hok].
    cbn [snd] in *.
    assert (Hgen : ∀ d post' (pre' : list Z) t',
      commandBuffer st = pre ++ replicate k fs ++ f ++ d :: post' →
      stop_field fs d = true →
      pre' ++ fields_bytes fs rest ++ replicate t' fs ++ 0 :: post =
        pre ++ replicate k fs ++ f ++ 0 :: post' →
      length pre' =
        (length pre + k + length f + (if (d =? 0)%Z then 0 else 1))%nat →
      ∃ st', read_strings (S n) st =
               Some (take (S n) (map snd ((k, f) :: rest)), st')
        ∧ ((length ((k, f) :: rest) < S n)%nat → isArgOk st' = false)).
    { intros d post' pre' t' Hb Hd Hb' Hlen'.
      destruct (readStringArg_token st k pre f post' d l')
        as (st1 & Hr & Hcur & Hres1 & Hb1 & Hdu1 & Hok1 & Hf1 & He1 & _);
        try (subst; done).
      rewrite <- Hlen' in Hres1. rewrite Hfs in Hb1.
      destruct (IH st1 pre' t' post n) as (st2 & Hrs & Hlast); try done;
        try congruence.
      exists st2. cbn [read_strings]. rewrite Hr. cbn [mbind option_bind].
      unfold isArgOk. rewrite Hok1.
      cbn [mbind option_bind]. rewrite Hb1.
      replace (cstr_at (pre ++ replicate k fs ++ f ++ 0 :: post')
                 (length pre + k)) with (Some f).
      2:{ symmetry. rewrite app_assoc.
          replace (length pre + k)%nat with (length (pre ++ replicate k fs))
            by (by rewrite length_app, length_replicate).
          by apply cstr_at_middle. }
      cbn [mbind option_bind]. rewrite Hrs. cbn [mbind option_bind].
      split; [done|]. cbn [length]. intros ?. apply Hlast. lia. }
    destruct rest as [|[k2 f2] rest2].
    + destruct t as [|t].
      * apply (Hgen 0 post (pre ++ replicate k fs ++ f) 0%nat).
        -- rewrite Hbuf. cbn [fields_bytes replicate app].
           by rewrite !app_nil_r, <- !app_assoc.
        -- done.
        -- cbn [fields_bytes replicate app]. by rewrite <- !app_assoc.
        -- rewrite !length_app, length_replicate. cbn. lia.
      * apply (Hgen fs (replicate t fs ++ 0 :: post)
                 (pre ++ replicate k fs ++ f ++ [0]) t).
        -- rewrite Hbuf. cbn [fields_bytes replicate app].
           by rewrite !app_nil_r, <- !app_assoc.
        -- unfold stop_field. by rewrite Z.eqb_refl, orb_true_r.
        -- cbn [fields_bytes replicate app]. by rewrite <- !app_assoc.
        -- rewrite !length_app, length_replicate. cbn [length].
           destruct (Z.eqb_spec fs 0); [done|]. lia.
    + apply (Hgen fs (fields_bytes fs ((k2, f2) :: rest2)
                        ++ replicate t fs ++ 0 :: post)
               (pre ++ replicate k fs ++ f ++ [0]) t).
      * rewrite Hbuf.
        change (fields_bytes fs ((k, f) :: (k2, f2) :: rest2)) with
          (replicate k fs ++ f ++ fs :: fields_bytes fs ((k2, f2) :: rest2)).
        rewrite <- !app_assoc. cbn [app]. done.
      * unfold stop_field. by rewrite Z.eqb_refl, orb_true_r.
      * by rewrite <- !app_assoc.
      * rewrite !length_app, length_replicate. cbn [length].
        destruct (Z.eqb_spec fs 0); [done|]. lia.
Qed.
End FieldFacts.

Section AtoiFacts.
Import Engine Api.

Lemma atoi_digits_acc d : ∀ acc,
  atoi_digits (Z.pos acc) (uint_bytes d) = Z.pos (Pos.of_uint_acc d acc).
Proof.
  induction d; intros acc; [done|..];
    cbn -[Z.mul Z.add Pos.mul Pos.add]; rewrite <- IHd; f_equal; lia.
Qed.

Lemma atoi_digits_uint d :
  atoi_digits 0 (uint_bytes d) = Z.of_N (Pos.of_uint d).
Proof.
  induction d; [done|..]; cbn -[Z.mul Z.add Pos.mul Pos.add];
    first [exact IHd | apply (atoi_digits_acc d 1)
          | change 2 with (Z.pos 2); apply atoi_digits_acc
          | idtac].
  all: match goal with
       | |- atoi_digits ?z _ = _ =>
           let p := eval cbv in (Z.to_pos z) in
           change z with (Z.pos p); apply atoi_digits_acc
       end.
Qed.

Lemma atoi_uint_bytes d : atoi (uint_bytes d) = atoi_digits 0 (uint_bytes d).
Proof. destruct d; reflexivity. Qed.

Lemma NilZero_uint_bytes p :
  bytes_of_string (NilZero.string_of_uint (Pos.to_uint p))
  = uint_bytes (Pos.to_uint p).
Proof.
  pose proof (Unsigned.of_to p) as H.
  unfold NilZero.string_of_uint. destruct (Pos.to_uint p); [discriminate H|..];
    reflexivity.
Qed.

(** [atoi] reads back what [Print::print] writes for an integer. *)
Lemma atoi_print_dec z : atoi (print_dec z) = z.
Proof.
  unfold print_dec. destruct z as [|p|p]; [reflexivity|..].
  - cbn [Z.to_int NilZero.string_of_int]. rewrite NilZero_uint_bytes.
    rewrite atoi_uint_bytes, atoi_digits_uint, Unsigned.of_to. done.
  - cbn [Z.to_int NilZero.string_of_int].
    change (bytes_of_string (String "-" ?s)) with (45 :: bytes_of_string s).
    rewrite NilZero_uint_bytes.
    change (atoi (45 :: ?s)) with (- atoi_digits 0 s).
    rewrite atoi_digits_uint, Unsigned.of_to. done.
Qed.

Lemma uint_bytes_digits d : Forall (λ c, isdigit c = true) (uint_bytes d).
Proof. induction d; [constructor|..]; by constructor. Qed.

(** The decimal digits of a non-negative integer. *)
Lemma print_dec_digits z :
  0 ≤ z → print_dec z ≠ [] ∧ Forall (λ c, isdigit c = true) (print_dec z).
Proof.
  intros Hz. unfold print_dec. destruct z as [|p|p]; [|  |lia].
  - split; [done|]. by repeat constructor.
  - cbn [Z.to_int NilZero.string_of_int]. rewrite NilZero_uint_bytes.
    split; [|apply uint_bytes_digits].
    pose proof (Unsigned.of_to p) as H.
    destruct (Pos.to_uint p); [discriminate H|..]; done.
Qed.
End AtoiFacts.

Section BinFacts.
Import Engine Api.

(** The copy loop of [unescape] over what [writeBin] emitted for
    [value], null bytes included. *)
Lemma unescape_loop_writeBin fs cs esc (value : list Z) :
  esc ≠ 0 →
  ∀ (pre mid R : list Z) fuel,
    let emitted := flat_map (Codec.printEsc fs cs esc) value in
    (length emitted < fuel)%nat →
    ∃ mid',
      (length value + length mid' = length mid + length emitted)%nat ∧
      Codec.unescape_loop fuel esc (pre ++ mid ++ emitted ++ 0 :: R)
        (length pre + length mid) (length pre) =
      Some ((pre ++ value) ++ mid' ++ 0 :: R,
            (length (pre ++ value) + length mid')%nat, length (pre ++ value)).
Proof.
  intros Hesc.
  induction value as [|c value IH]; intros pre mid R fuel emitted Hfuel.
  - exists mid. split; [simpl; lia|]. destruct fuel; [simpl in Hfuel; lia|].
    subst emitted. cbn [flat_map app]. rewrite unescape_loop_end, app_nil_r.
    done.
  - subst emitted. cbn [flat_map] in *. rewrite length_app in Hfuel.
    destruct fuel; [lia|]. rewrite <- app_assoc.
    unfold Codec.printEsc in *.
    destruct ((c =? fs) || (c =? cs) || (c =? esc) || (c =? 0)) eqn:Hsp.
    + cbn [app length] in *. rewrite unescape_loop_escaped by done.
      destruct (IH (pre ++ [c]) (drop 1 (mid ++ [esc; c])) R fuel)
        as (mid' & Hl & Heq); [lia|].
      assert (Hd : length (drop 1 (mid ++ [esc; c])) = S (length mid)).
      { rewrite length_drop, length_app. simpl. lia. }
      exists mid'. split; [lia|].
      replace (S (S (length pre + length mid))) with
        (length (pre ++ [c]) + length (drop 1 (mid ++ [esc; c])))%nat
        by (rewrite Hd, length_app; simpl; lia).
      replace (S (length pre)) with (length (pre ++ [c]))
        by (rewrite length_app; simpl; lia).
      rewrite Heq. by rewrite <- !app_assoc.
    + apply orb_false_iff in Hsp as [Hsp Hc0]. apply Z.eqb_neq in Hc0.
      apply orb_false_iff in Hsp as [_ Hsp]. apply Z.eqb_neq in Hsp.
      cbn [app length] in *. rewrite unescape_loop_plain by done.
      destruct (IH (pre ++ [c]) (drop 1 (mid ++ [c])) R fuel)
        as (mid' & Hl & Heq); [lia|].
      assert (Hd : length (drop 1 (mid ++ [c])) = length mid).
      { rewrite length_drop, length_app. simpl. lia. }
      exists mid'. split; [lia|].
      replace (S (length pre + length mid)) with
        (length (pre ++ [c]) + length (drop 1 (mid ++ [c])))%nat
        by (rewrite Hd, length_app; simpl; lia).
      replace (S (length pre)) with (length (pre ++ [c]))
        by (rewrite length_app; simpl; lia).
      rewrite Heq. by rewrite <- !app_assoc.
Qed.

(** [unescape] at a pointer into a buffer, on what [writeBin] emitted. *)
Lemma unescape_writeBin fs cs esc (value pre R : list Z) :
  esc ≠ 0 →
  let emitted := flat_map (Codec.printEsc fs cs esc) value in
  Codec.unescape esc (pre ++ emitted ++ 0 :: R) (length pre) =
  Some (pre ++ value ++ replicate (S (length emitted) - length value) 0 ++ R).
Proof.
  intros Hesc emitted. unfold Codec.unescape.
  destruct (unescape_loop_writeBin fs cs esc value Hesc pre [] R
              (S (length (pre ++ emitted ++ 0 :: R)))) as (mid' & Hl & Heq).
  { rewrite !length_app. fold emitted. lia. }
  cbn [app length] in Heq, Hl. rewrite Nat.add_0_r in Heq.
  fold emitted in Heq, Hl. rewrite Heq. cbn [mbind option_bind].
  replace (length (pre ++ value) + length mid' - length (pre ++ value))%nat
    with (length mid') by lia.
  change (0 :: R) with ([0] ++ R).
  rewrite (unescape_pad_spec mid' (pre ++ value) ([0] ++ R)).
  f_equal. rewrite <- app_assoc. f_equal. f_equal.
  replace (S (length emitted) - length value)%nat with (S (length mid'))
    by lia.
  rewrite replicate_S_end, <- app_assoc. done.
Qed.

Lemma mapM_load (value : list Z) : ∀ (pre0 pre R : list Z),
  mapM (λ i, load (pre0 ++ pre ++ value ++ R) (length pre0 + i)%nat)
    (seq (length pre) (length value)) = Some value.
Proof.
  induction value as [|c value IH]; intros pre0 pre R; [done|].
  cbn [length seq mapM]. cbn [app]. rewrite load_middle2.
  cbn [mbind option_bind].
  specialize (IH pre0 (pre ++ [c]) R).
  rewrite <- app_assoc, length_app in IH. cbn [app length] in IH.
  rewrite Nat.add_1_r in IH. rewrite IH. done.
Qed.
End BinFacts.

Section WriterFacts.
Import Engine Api.

Lemma print_nil env : print [] env = env.
Proof. destruct env. unfold print. cbn. by rewrite app_nil_r. Qed.

Lemma print_print a b env : print b (print a env) = print (a ++ b) env.
Proof. unfold print. cbn. by rewrite app_assoc. Qed.

Lemma writeBin_print value st : ∀ env,
  writeBin value st env =
  print (flat_map (Codec.printEsc (field_separator st) (command_separator st)
                     (escape_character st)) value) env.
Proof.
  unfold writeBin. induction value as [|c value IH]; intros env.
  - by rewrite print_nil.
  - cbn [fold_left flat_map]. rewrite IH, print_print. done.
Qed.

Lemma sendArg_print a st env :
  startCommand st = true →
  sendArg a st env =
  print (field_separator st ::
         rendered (field_separator st) (command_separator st)
           (escape_character st) a) env.
Proof.
  intros H. destruct a; cbn [sendArg rendered];
    unfold sendCmdArg, sendCmdEscArg, sendCmdBinArg; rewrite H;
    rewrite ?writeBin_print, print_print; done.
Qed.

Lemma sendArgs_print args st : ∀ env,
  startCommand st = true →
  fold_left (λ env a, sendArg a st env) args env =
  print (flat_map (λ a, field_separator st ::
                     rendered (field_separator st) (command_separator st)
                       (escape_character st) a) args) env.
Proof.
  induction args as [|a args IH]; intros env H.
  - by rewrite print_nil.
  - cbn [fold_left flat_map]. rewrite IH, sendArg_print, print_print by done.
    done.
Qed.

(** The bytes of a command built from an idle writer. *)
Lemma send_command_bytes clock fuel cmdId args ackCmdId timeout st env :
  startCommand st = false →
  send_command clock fuel cmdId args false ackCmdId timeout st env =
  Some (false, set_startCommand false (set_pauseProcessing false st),
        print (print_dec cmdId ++
               flat_map (λ a, field_separator st ::
                           rendered (field_separator st) (command_separator st)
                             (escape_character st) a) args ++
               command_separator st ::
               (if print_newlines st then [13; 10] else [])) env).
Proof.
  intros H. unfold send_command, sendCmdStart. rewrite H. cbn [negb].
  rewrite sendArgs_print by done. unfold sendCmdEnd.
  cbn [startCommand set_pauseProcessing set_startCommand print_newlines
       command_separator field_separator escape_character mbind option_bind].
  replace (set_startCommand false
             (set_pauseProcessing false
                (set_pauseProcessing true (set_startCommand true st))))
    with (set_startCommand false (set_pauseProcessing false st))
    by (by destruct st).
  destruct (print_newlines st); rewrite !print_print, <- ?app_assoc; done.
Qed.

(** The one-call forms are the built command with no, one printed
    or one binary argument. *)
Lemma sendCmd_as_command clock fuel cmdId printed reqAc ackCmdId timeout st env :
  startCommand st = false →
  sendCmd clock fuel cmdId printed reqAc ackCmdId timeout st env =
  send_command clock fuel cmdId [ArgPrinted printed] reqAc ackCmdId timeout
    st env.
Proof. intros H. unfold sendCmd, send_command. by rewrite H. Qed.

Lemma sendBinCmd_as_command clock fuel cmdId arg reqAc ackCmdId timeout st env :
  startCommand st = false →
  sendBinCmd clock fuel cmdId arg reqAc ackCmdId timeout st env =
  send_command clock fuel cmdId [ArgBinary arg] reqAc ackCmdId timeout st env.
Proof. intros H. unfold sendBinCmd, send_command. by rewrite H. Qed.

Lemma sendCmd0_as_command clock fuel cmdId st env :
  startCommand st = false →
  sendCmd0 clock fuel cmdId st env =
  send_command clock fuel cmdId [] false 1 DEFAULT_TIMEOUT st env.
Proof. intros H. unfold sendCmd0, send_command. by rewrite H. Qed.

(** X1.  A command built from an idle writer with [sendCmdStart], any
    sequence of [sendCmdArg], [sendCmdEscArg] and [sendCmdBinArg], and
    [sendCmdEnd] without acknowledgment puts on the transport exactly
    the decimal id, then for every argument the field separator and
    the argument as printed or escaped, then the command separator,
    followed by CR LF when new lines are switched on.  Nothing is read
    and the clock is not consulted, the result is false, and the
    engine is as before with [startCommand] and [pauseProcessing]
    false. *)
Theorem send_command_wire clock fuel cmdId args ackCmdId timeout st env :
  startCommand st = false →
  ∃ st' env',
    send_command clock fuel cmdId args false ackCmdId timeout st env
      = Some (false, st', env')
    ∧ written env env' =
        print_dec cmdId ++
        flat_map (λ a, field_separator st ::
                    rendered (field_separator st) (command_separator st)
                      (escape_character st) a) args ++
        command_separator st :: (if print_newlines st then [13; 10] else [])
    ∧ rx env' = rx env ∧ ticks env' = ticks env
    ∧ st' = set_startCommand false (set_pauseProcessing false st).
Proof.
  intros H. rewrite send_command_bytes by done. do 2 eexists.
  split; [reflexivity|]. unfold written, print. cbn [tx rx ticks].
  rewrite drop_app_length. done.
Qed.

Lemma send_command_wire_witness :
  let st := init 44 59 47 in
  let env := mkEnv [] (B "x") 0 in
  let args := [ArgPrinted (B "12"); ArgEscaped (B "a,b"); ArgBinary [0; 59]] in
  startCommand st = false ∧
  ∃ st' env',
    send_command (λ _, 0) 0 7 args false 1 5000 st env
      = Some (false, st', env')
    ∧ written env env' =
        print_dec 7 ++
        flat_map (λ a, field_separator st ::
                    rendered (field_separator st) (command_separator st)
                      (escape_character st) a) args ++
        command_separator st :: (if print_newlines st then [13; 10] else [])
    ∧ rx env' = rx env ∧ ticks env' = ticks env
    ∧ st' = set_startCommand false (set_pauseProcessing false st).
Proof.
  intros st env args.
  assert (H : startCommand st = false) by reflexivity.
  split; [exact H|].
  exact (send_command_wire (λ _, 0) 0 7 args 1 5000 st env H).
Defined.
End WriterFacts.

Section WireFacts.
Import Engine Api.

Lemma wrap_signed_16 z : -32768 ≤ z < 32768 → wrap_signed 16 z = z.
Proof.
  intros H. unfold wrap_signed. change (2 ^ (16 - 1)) with 32768.
  change (2 ^ 16) with 65536. rewrite Z.mod_small by lia. lia.
Qed.

(** An integer read on a token behind [k] separators. *)
Lemma readInt16Arg_token st k (pre s post : list Z) d l' :
  resumes_at st (length pre) → dumped st = true →
  escape_character st ≠ 0 → field_separator st ≠ 0 →
  field_separator st ≠ escape_character st →
  commandBuffer st = pre ++ replicate k (field_separator st) ++ s ++ d :: post →
  s ≠ [] → Forall (λ c, c ≠ 0) s →
  scan (escape_character st) (stop_field (field_separator st)) 0 s = Some l' →
  l' ≠ escape_character st → stop_field (field_separator st) d = true →
  ∃ st', readInt16Arg st = Some (wrap_signed 16 (atoi s), st')
    ∧ resumes_at st'
        (length pre + k + length s + (if (d =? 0)%Z then 0 else 1))%nat
    ∧ commandBuffer st' =
        pre ++ replicate k (field_separator st) ++ s ++ 0 :: post
    ∧ dumped st' = true ∧ ArgOk st' = true
    ∧ same_separators st st'.
Proof.
  intros Hres Hdump Hesc Hfs Hfe Hbuf Hne Hnz Hscan Hl' Hd.
  destruct (next_token st k pre s post d l')
    as (st1 & Hn & Hcur & Hlast & Hb & Hms & Hdu & Hsep & _); try done.
  unfold readInt16Arg. rewrite Hn. cbn [mbind option_bind].
  unfold token. cbn [current set_ArgOk set_dumped commandBuffer].
  rewrite Hcur. cbn [mbind option_bind]. rewrite Hb.
  replace (cstr_at (pre ++ replicate k (field_separator st) ++ s ++ 0 :: post)
             (length pre + k)) with (Some s).
  2:{ symmetry. rewrite app_assoc.
      replace (length pre + k)%nat
        with (length (pre ++ replicate k (field_separator st)))
        by (by rewrite length_app, length_replicate).
      by apply cstr_at_middle. }
  cbn [mbind option_bind]. eexists. split; [reflexivity|]. cbn.
  split_and!; try done. by right.
Qed.

(** A binary read on what [writeBin] emitted for [value]. *)
Lemma readBinArg_token st (pre post value : list Z) :
  let fs := field_separator st in
  let cs := command_separator st in
  let esc := escape_character st in
  let emitted := flat_map (Codec.printEsc fs cs esc) value in
  resumes_at st (length pre) → dumped st = true →
  esc ≠ 0 → fs ≠ 0 → fs ≠ esc →
  commandBuffer st = pre ++ emitted ++ 0 :: post →
  value ≠ [] →
  ∃ st', readBinArg (length value) st = Some (value, st')
    ∧ resumes_at st' (length pre + length emitted)%nat
    ∧ commandBuffer st' =
        pre ++ value ++ replicate (S (length emitted) - length value) 0 ++ post
    ∧ dumped st' = true ∧ ArgOk st' = ArgOk st
    ∧ same_separators st st'.
Proof.
  intros fs cs esc emitted Hres Hdump Hesc Hfs Hfe Hbuf Hne.
  destruct (scan_writeBin fs cs esc (stop_field fs) value 0) as (l' & Hscan & Hl');
    try done.
  { unfold stop_field. destruct (Z.eqb_spec esc 0), (Z.eqb_spec esc fs); done. }
  { unfold stop_field. intros x Hx. apply orb_true_iff in Hx as [->| ->];
      by rewrite ?orb_true_r. }
  assert (Hem : emitted ≠ []).
  { subst emitted. destruct value as [|c v]; [done|]. cbn [flat_map].
    unfold Codec.printEsc. by destruct (_ || _). }
  destruct (next_token st 0 pre emitted post 0 l')
    as (st1 & Hn & Hcur & Hlast & Hb & Hms & Hdu & Hsep & Hses); try done.
  unfold readBinArg. rewrite Hn. cbn [mbind option_bind].
  cbn [current set_dumped]. rewrite Hcur. cbn [mbind option_bind].
  unfold readBin. cbn [escape_character commandBuffer set_dumped].
  destruct Hsep as (Hf1 & He1 & Hc1).
  cbn [replicate app] in Hb. rewrite Nat.add_0_r in *.
  rewrite Hb, He1. fold esc.
  pose proof (unescape_writeBin fs cs esc value pre post Hesc) as Hu.
  cbn zeta in Hu. fold emitted in Hu. rewrite Hu. cbn [mbind option_bind].
  pose proof (mapM_load value pre []
    (replicate (S (length emitted) - length value) 0 ++ post)) as Hm.
  cbn [app length] in Hm. rewrite Hm. cbn [mbind option_bind].
  eexists. split; [reflexivity|]. cbn. cbn [Z.eqb] in Hlast.
  rewrite ?Nat.add_0_r in Hlast. destruct Hses as (_ & _ & _ & Hok & _).
  split_and!; try done. by right.
Qed.
End WireFacts.

Section RoundTrip.
Import Engine Api.
Variables fs cs esc : Z.
Hypothesis Hsep : separators_ok fs cs esc.

Lemma digit_plain c : isdigit c = true → plain fs cs esc c.
Proof.
  destruct Hsep as (_ & _ & _ & _ & _ & Hf & Hc & He).
  intros H. unfold plain. split_and!; intros ->; try congruence. done.
Qed.

Lemma scan_plain_frame s l :
  l ≠ esc → Forall (plain fs cs esc) s →
  ∃ l', scan esc (stop_frame cs) l s = Some l' ∧ l' ≠ esc.
Proof.
  intros Hl Hs. apply scan_plain; [done|].
  eapply Forall_impl; [exact Hs|]. intros c (H0 & Hf & Hc & He).
  split; [done|]. unfold stop_frame. by apply Z.eqb_neq.
Qed.

Lemma scan_plain_field s l :
  l ≠ esc → Forall (plain fs cs esc) s →
  ∃ l', scan esc (stop_field fs) l s = Some l' ∧ l' ≠ esc.
Proof.
  intros Hl Hs. apply scan_plain; [done|].
  eapply Forall_impl; [exact Hs|]. intros c (H0 & Hf & Hc & He).
  split; [done|]. unfold stop_field.
  destruct (Z.eqb_spec c 0), (Z.eqb_spec c fs); done.
Qed.

Lemma scan_writeBin_frame value l :
  l ≠ esc →
  ∃ l', scan esc (stop_frame cs) l (flat_map (Codec.printEsc fs cs esc) value)
          = Some l' ∧ l' ≠ esc.
Proof.
  destruct Hsep as (He0 & _ & _ & _ & Hce & _).
  intros Hl. apply scan_writeBin; try done.
  - unfold stop_frame. apply Z.eqb_neq. congruence.
  - unfold stop_frame. intros x ->. by rewrite orb_true_r.
Qed.

Lemma scan_writeBin_field value l :
  l ≠ esc →
  ∃ l', scan esc (stop_field fs) l (flat_map (Codec.printEsc fs cs esc) value)
          = Some l' ∧ l' ≠ esc.
Proof.
  destruct Hsep as (He0 & _ & _ & Hfe & _).
  intros Hl. apply scan_writeBin; try done.
  - unfold stop_field. destruct (Z.eqb_spec esc 0), (Z.eqb_spec esc fs);
      cbn [orb]; congruence.
  - unfold stop_field. intros x Hx. apply orb_true_iff in Hx as [->| ->];
      by rewrite ?orb_true_r.
Qed.

Lemma feed_session bytes : ∀ st mss st',
  feed st bytes = Some (mss, st') → same_session st st'.
Proof.
  induction bytes as [|b bytes IH]; intros st mss st' Hfeed.
  - cbn in Hfeed. injection Hfeed as _ <-. done.
  - cbn [feed] in Hfeed.
    destruct (processLine st b) as [[ms sta]|] eqn:E; [|done].
    cbn [mbind option_bind] in Hfeed.
    destruct (feed sta bytes) as [[mss' stb]|] eqn:E2; [|done].
    cbn [mbind option_bind] in Hfeed. injection Hfeed as _ <-.
    apply processLine_session in E. apply IH in E2.
    unfold same_session in *. intuition congruence.
Qed.

(** The frame [id, payload] arrives: it is handed over at its
    separator, and the integer read returns the id and leaves the
    tokenizer in front of the payload. *)
Lemma receive_id_payload st cmdId payload :
  ready fs cs esc st → 0 ≤ cmdId < 32768 →
  (∀ l, l ≠ esc →
     ∃ l', scan esc (stop_frame cs) l payload = Some l' ∧ l' ≠ esc) →
  (length (print_dec cmdId) + 1 + length payload ≤ 190)%nat →
  let wire := print_dec cmdId ++ fs :: payload ++ [cs] in
  ∃ st1 st2 post,
    feed st wire =
      Some (replicate (length wire - 1) kProccesingMessage ++ [kEndOfMessage],
            st1)
    ∧ ready fs cs esc st1 ∧ same_session st st1
    ∧ readInt16Arg st1 = Some (cmdId, st2)
    ∧ ArgOk st2 = true ∧ dumped st2 = true
    ∧ resumes_at st2 (length (print_dec cmdId ++ [0]))
    ∧ commandBuffer st2 = (print_dec cmdId ++ [0]) ++ payload ++ 0 :: post
    ∧ config fs cs esc st2.
Proof.
  intros (Hwf & (Hcf & Hcc & Hce) & Hidx & Hl0) Hid Hpay Hlen wire.
  destruct Hsep as (He0 & Hf0 & Hfc & Hfe & Hcce & _).
  destruct (print_dec_digits cmdId) as [Hdne Hdig]; [lia|].
  assert (Hplain : Forall (λ c, c ≠ esc ∧ stop_frame cs c = false)
                     (print_dec cmdId ++ [fs])).
  { apply Forall_app. split.
    - eapply Forall_impl; [exact Hdig|]. intros c Hc.
      destruct (digit_plain c Hc) as (_ & _ & ? & ?).
      split; [done|]. unfold stop_frame. by apply Z.eqb_neq.
    - constructor; [|constructor]. split; [done|].
      unfold stop_frame. by apply Z.eqb_neq. }
  destruct (scan_plain esc (stop_frame cs) _ _ Hl0 Hplain) as (l1 & Hs1 & Hl1).
  destruct (Hpay l1 Hl1) as (l2 & Hs2 & Hl2).
  set (body := print_dec cmdId ++ fs :: payload).
  assert (Hbody : scan esc (stop_frame cs) (CmdlastChar st) body = Some l2).
  { subst body. change (fs :: payload) with ([fs] ++ payload).
    rewrite app_assoc, scan_app, Hs1. done. }
  destruct (feed_frame_scan body st l2)
    as (st1 & Hfeed & Hwf1 & Hcfg1 & Hi1 & Hb1 & Hms1 & Hd1 & Hc1);
    try done; try (rewrite ?Hce, ?Hcc; done).
  { subst body. by destruct (print_dec cmdId). }
  { subst body. rewrite length_app. cbn [length]. lia. }
  destruct Hcfg1 as (Hcs1 & Hfs1 & Hes1 & _).
  assert (Hbuf1 : commandBuffer st1 =
            print_dec cmdId ++ fs :: payload ++
              0 :: drop (S (length body)) (commandBuffer st1)).
  { rewrite <- (take_drop (S (length body)) (commandBuffer st1)) at 1.
    rewrite Hb1. subst body. rewrite <- !app_assoc. done. }
  assert (Hdplain : Forall (plain fs cs esc) (print_dec cmdId)).
  { eapply Forall_impl; [exact Hdig|]. apply digit_plain. }
  destruct (scan_plain_field (print_dec cmdId) 0) as (l3 & Hs3 & Hl3);
    [congruence|done|].
  destruct (readInt16Arg_token st1 0 [] (print_dec cmdId)
              (payload ++ 0 :: drop (S (length body)) (commandBuffer st1)) fs l3)
    as (st2 & Hr & Hres2 & Hb2 & Hd2 & Hok2 & Hf2 & He2 & Hc2);
    try (rewrite ?Hfs1, ?Hes1, ?Hcf, ?Hce; done).
  { left. done. }
  { eapply Forall_impl; [exact Hdplain|]. by intros c (? & _). }
  { rewrite Hfs1, Hcf. unfold stop_field. by rewrite Z.eqb_refl, orb_true_r. }
  exists st1, st2, (drop (S (length body)) (commandBuffer st1)).
  rewrite atoi_print_dec, wrap_signed_16 in Hr by lia.
  assert (Hses : same_session st st1) by (by eapply feed_session).
  split_and!; try done.
  - subst wire body. rewrite Hcc in Hfeed.
    replace (print_dec cmdId ++ fs :: payload ++ [cs])
      with ((print_dec cmdId ++ fs :: payload) ++ [cs])
      by (by rewrite <- app_assoc).
    rewrite Hfeed. do 3 f_equal.
    rewrite (length_app _ [cs]). cbn [length]. f_equal. lia.
  - split_and!; try done; unfold config; try (split_and!; congruence).
    rewrite Hc1. congruence.
  - rewrite length_app. cbn [length]. cbn [length replicate app Nat.add] in Hres2.
    destruct (Z.eqb_spec fs 0); [done|]. done.
  - rewrite Hb2. cbn [replicate app]. by rewrite <- app_assoc.
  - unfold config. split_and!; congruence.
Qed.
End RoundTrip.

Section RoundTrips.
Import Engine Api.
Variables fs cs esc : Z.
Hypothesis Hsep : separators_ok fs cs esc.
Variable clock : nat → Z.

Lemma written_print bytes env : written env (print bytes env) = bytes.
Proof. unfold written, print. cbn. by rewrite drop_app_length. Qed.

(** X8.  Separators pairwise distinct, none a digit, field separator
    and escape byte non-null; an idle writer configured with them, new
    lines off; a reader ready on the same separators.  For an id in
    0..255 and a non-empty value of any bytes (nulls, separators and
    escape bytes included) whose escaped form fits the frame (digits
    of the id, one separator and the escaped bytes within 190), the
    bytes written by [sendBinCmd] without acknowledgment close one
    frame on the reader, at their last byte; [readInt16Arg] gives the
    command id, OK, and [readBinArg] for as many bytes gives the
    value. *)
Theorem sendBinCmd_readBinArg fuel cmdId value ackCmdId timeout stw envw st :
  config fs cs esc stw → startCommand stw = false →
  print_newlines stw = false →
  ready fs cs esc st →
  0 ≤ cmdId < 256 → value ≠ [] →
  (length (print_dec cmdId) + 1
   + length (flat_map (Codec.printEsc fs cs esc) value) ≤ 190)%nat →
  ∃ stw' envw' st1 st2 st3,
    sendBinCmd clock fuel cmdId value false ackCmdId timeout stw envw
      = Some (false, stw', envw')
    ∧ feed st (written envw envw') =
        Some (replicate (length (written envw envw') - 1) kProccesingMessage
                ++ [kEndOfMessage], st1)
    ∧ readInt16Arg st1 = Some (cmdId, st2) ∧ isArgOk st2 = true
    ∧ readBinArg (length value) st2 = Some (value, st3).
Proof.
  intros (Hwf & Hwc & Hwe) Hstart Hnl Hready Hid Hne Hlen.
  rewrite sendBinCmd_as_command, send_command_bytes by done.
  rewrite Hnl, Hwf, Hwc, Hwe. cbn [flat_map rendered app].
  rewrite app_nil_r.
  destruct (receive_id_payload fs cs esc Hsep st cmdId
              (flat_map (Codec.printEsc fs cs esc) value))
    as (st1 & st2 & post & Hfeed & Hr1 & Hses & Hread & Hok & Hdu & Hres & Hbuf
        & (Hf2 & Hc2 & He2)); try done; try lia.
  { intros l Hl. by apply scan_writeBin_frame. }
  destruct Hsep as (He0 & Hf0 & Hfc & Hfe & Hcce & _).
  destruct (readBinArg_token st2 (print_dec cmdId ++ [0]) post value)
    as (st3 & Hbin & _); try (rewrite ?Hf2, ?Hc2, ?He2; done).
  do 5 eexists. split; [reflexivity|]. rewrite written_print.
  split_and!; try done.
Qed.
End RoundTrips.

Section ReceiveFacts.
Import Engine Api.
Variables fs cs esc : Z.
Hypothesis Hsep : separators_ok fs cs esc.
Variable clock : nat → Z.

(** A 16-bit non-negative integer prints in five digits at most. *)
Lemma print_dec_length z : 0 ≤ z < 32768 → (length (print_dec z) ≤ 5)%nat.
Proof.
  intros Hz.
  set (step := λ s : Z * bool,
         (s.1 + 1, s.2 && (length (print_dec s.1) <=? 5)%nat)).
  assert (Hrun : Pos.iter step (0, true) 32768 = (32768, true))
    by (vm_compute; reflexivity).
  assert (Hinv : ∀ s, (s.2 = true → ∀ y, 0 ≤ y < s.1 →
                         (length (print_dec y) ≤ 5)%nat) →
                      (step s).2 = true → ∀ y, 0 ≤ y < (step s).1 →
                         (length (print_dec y) ≤ 5)%nat).
  { intros [x ok] Hs. cbn in Hs |- *. intros Hok y Hy.
    apply andb_true_iff in Hok as [-> Hx]. apply Nat.leb_le in Hx.
    destruct (Z.eq_dec y x) as [->|]; [done|]. apply Hs; [done|lia]. }
  pose proof (Pos.iter_invariant 32768 _ step
                (λ s, s.2 = true → ∀ y, 0 ≤ y < s.1 →
                        (length (print_dec y) ≤ 5)%nat) Hinv (0, true)) as H.
  rewrite Hrun in H. cbn in H. apply H; [intros _ y; lia|done|lia].
Qed.

(** X4.  Separators pairwise distinct, none a digit, field separator
    and escape byte non-null; a reader ready on them.  A frame made of
    fields, each non-empty, with no null byte, no unescaped field
    separator and no escape pending at its end, with any number of
    extra field separators in front of each, not empty, of 190 bytes
    at most, with no unescaped command separator and no escape pending
    at its end, closes at its command separator, and the strings at
    the pointers that repeated [readStringArg] returns are exactly
    those fields, in order; the read after the last field is not
    OK. *)
Theorem received_fields_in_order st items n l' :
  ready fs cs esc st →
  Forall (λ kf, field_ok fs esc kf.2) items →
  let body := fields_bytes fs items in
  body ≠ [] → (length body ≤ 190)%nat →
  scan esc (stop_frame cs) (CmdlastChar st) body = Some l' → l' ≠ esc →
  ∃ st1 st2,
    feed st (body ++ [cs]) =
      Some (replicate (length body) kProccesingMessage ++ [kEndOfMessage], st1)
    ∧ read_strings n st1 = Some (take n (map snd items), st2)
    ∧ ((length items < n)%nat → isArgOk st2 = false).
Proof.
  intros (Hwf & (Hcf & Hcc & Hce) & Hidx & Hl0) Hok body Hne Hlen Hscan Hl'.
  destruct Hsep as (He0 & Hf0 & Hfc & Hfe & Hcce & _).
  destruct (feed_frame_scan body st l')
    as (st1 & Hfeed & Hwf1 & Hcfg1 & Hi1 & Hb1 & Hms1 & Hd1 & Hc1);
    try done; try (rewrite ?Hce, ?Hcc; done).
  destruct Hcfg1 as (Hcs1 & Hfs1 & Hes1 & _).
  assert (Hbuf1 : commandBuffer st1 =
            [] ++ body ++ replicate 0 fs ++
              0 :: drop (S (length body)) (commandBuffer st1)).
  { rewrite <- (take_drop (S (length body)) (commandBuffer st1)) at 1.
    rewrite Hb1. cbn [replicate app]. rewrite <- !app_assoc. done. }
  destruct (read_strings_fields fs esc items st1 [] 0%nat
              (drop (S (length body)) (commandBuffer st1)) n)
    as (st2 & Hrs & Hlast); try done; try congruence.
  { by left. }
  exists st1, st2. rewrite Hcc in Hfeed. done.
Qed.

(** X5.  Separators pairwise distinct, none a digit, field separator
    and escape byte non-null; an idle writer configured with them, new
    lines off; a reader ready on the same separators.  The bytes
    written by [sendCmd] without acknowledgment, for an id in 0..255
    and an integer argument in 0..32767, close one frame on the
    reader, at their last byte, and two calls of [readInt16Arg] give
    the command id and the argument, both OK. *)
Theorem sendCmd_readInt16Arg fuel cmdId arg ackCmdId timeout stw envw st :
  config fs cs esc stw → startCommand stw = false →
  print_newlines stw = false →
  ready fs cs esc st →
  0 ≤ cmdId < 256 → 0 ≤ arg < 32768 →
  ∃ stw' envw' st1 st2 st3,
    sendCmd clock fuel cmdId (print_dec arg) false ackCmdId timeout stw envw
      = Some (false, stw', envw')
    ∧ feed st (written envw envw') =
        Some (replicate (length (written envw envw') - 1) kProccesingMessage
                ++ [kEndOfMessage], st1)
    ∧ readInt16Arg st1 = Some (cmdId, st2) ∧ isArgOk st2 = true
    ∧ readInt16Arg st2 = Some (arg, st3) ∧ isArgOk st3 = true.
Proof.
  intros (Hwf & Hwc & Hwe) Hstart Hnl Hready Hid Harg.
  rewrite sendCmd_as_command, send_command_bytes by done.
  rewrite Hnl, Hwf, Hwc, Hwe. cbn [flat_map rendered app].
  rewrite app_nil_r.
  destruct (print_dec_digits arg) as [Hane Hadig]; [lia|].
  assert (Hplain : Forall (plain fs cs esc) (print_dec arg)).
  { eapply Forall_impl; [exact Hadig|]. by apply digit_plain. }
  assert (Hlen1 : (length (print_dec cmdId) ≤ 5)%nat)
    by (apply print_dec_length; lia).
  assert (Hlen2 : (length (print_dec arg) ≤ 5)%nat)
    by (by apply print_dec_length).
  destruct (receive_id_payload fs cs esc Hsep st cmdId (print_dec arg))
    as (st1 & st2 & post & Hfeed & Hr1 & Hses & Hread & Hok & Hdu & Hres & Hbuf
        & (Hf2 & Hc2 & He2)); try done; try lia.
  { intros l Hl. by apply (scan_plain_frame fs cs esc). }
  destruct Hsep as (He0 & Hf0 & Hfc & Hfe & Hcce & _).
  destruct (scan_plain_field fs cs esc (print_dec arg) 0) as (l3 & Hs3 & Hl3);
    [congruence|done|].
  assert (Hnz : Forall (λ c, c ≠ 0) (print_dec arg)).
  { eapply Forall_impl; [exact Hplain|]. by intros c (? & _). }
  destruct (readInt16Arg_token st2 0 (print_dec cmdId ++ [0]) (print_dec arg)
              post 0 l3)
    as (st3 & Hint & _ & _ & _ & Hok3 & _);
    try (rewrite ?Hf2, ?Hc2, ?He2; done).
  rewrite atoi_print_dec, wrap_signed_16 in Hint by lia.
  do 5 eexists. split; [reflexivity|]. rewrite written_print.
  split_and!; done.
Qed.

(** X7.  Separators pairwise distinct, none a digit, field separator
    and escape byte non-null; an idle writer configured with them, new
    lines off; a reader ready on the same separators.  The bytes
    written by [sendCmd] without acknowledgment, for an id in 0..255
    and a printed argument that is not empty, holds no null,
    separator or escape byte, and fits the frame (digits of the id,
    one separator and the argument within 190 bytes), close one frame
    on the reader, at their last byte; [readInt16Arg] gives the
    command id, OK, and [readStringArg] is OK and returns a pointer at
    which the buffer holds the argument, byte for byte and
    null-terminated. *)
Theorem sendCmd_readStringArg fuel cmdId printed ackCmdId timeout stw envw st :
  config fs cs esc stw → startCommand stw = false →
  print_newlines stw = false →
  ready fs cs esc st →
  0 ≤ cmdId < 256 → printed ≠ [] → Forall (plain fs cs esc) printed →
  (length (print_dec cmdId) + 1 + length printed ≤ 190)%nat →
  ∃ stw' envw' st1 st2 st3 p,
    sendCmd clock fuel cmdId printed false ackCmdId timeout stw envw
      = Some (false, stw', envw')
    ∧ feed st (written envw envw') =
        Some (replicate (length (written envw envw') - 1) kProccesingMessage
                ++ [kEndOfMessage], st1)
    ∧ readInt16Arg st1 = Some (cmdId, st2) ∧ isArgOk st2 = true
    ∧ readStringArg st2 = Some (Some p, st3) ∧ isArgOk st3 = true
    ∧ cstr_at (commandBuffer st3) p = Some printed.
Proof.
  intros (Hwf & Hwc & Hwe) Hstart Hnl Hready Hid Hne Hplain Hlen.
  rewrite sendCmd_as_command, send_command_bytes by done.
  rewrite Hnl, Hwf, Hwc, Hwe. cbn [flat_map rendered app].
  rewrite app_nil_r.
  destruct (receive_id_payload fs cs esc Hsep st cmdId printed)
    as (st1 & st2 & post & Hfeed & Hr1 & Hses & Hread & Hok & Hdu & Hres & Hbuf
        & (Hf2 & Hc2 & He2)); try done; try lia.
  { intros l Hl. by apply (scan_plain_frame fs cs esc). }
  destruct Hsep as (He0 & Hf0 & Hfc & Hfe & Hcce & _).
  destruct (scan_plain_field fs cs esc printed 0) as (l3 & Hs3 & Hl3);
    [congruence|done|].
  assert (Hnz : Forall (λ c, c ≠ 0) printed).
  { eapply Forall_impl; [exact Hplain|]. by intros c (? & _). }
  destruct (readStringArg_token st2 0 (print_dec cmdId ++ [0]) printed post 0 l3)
    as (st3 & Hstr & Hcur & _ & Hb3 & _ & Hok3 & _);
    try (rewrite ?Hf2, ?Hc2, ?He2; done).
  do 6 eexists. split; [reflexivity|]. rewrite written_print.
  split_and!; try done.
  rewrite Hb3. cbn [replicate app]. rewrite Nat.add_0_r.
  by apply cstr_at_middle.
Qed.
End ReceiveFacts.

Section EscapedFacts.
Import Engine Api.
Variables fs cs esc : Z.
Hypothesis Hsep : separators_ok fs cs esc.

Lemma length_writeBin (value : list Z) :
  (length value ≤ length (flat_map (Codec.printEsc fs cs esc) value))%nat.
Proof.
  induction value as [|c v IH]; [done|]. cbn [flat_map length].
  rewrite length_app.
  assert (1 ≤ length (Codec.printEsc fs cs esc c))%nat
    by (unfold Codec.printEsc; destruct (_ || _); cbn [length]; lia).
  lia.
Qed.

Lemma printEsc_str_writeBin a :
  Forall (λ c, c ≠ 0) a →
  Codec.printEsc_str fs cs esc a = flat_map (Codec.printEsc fs cs esc) a.
Proof. intros H. by rewrite printEsc_str_flat_map, print_str_id. Qed.

Lemma read_unescaped_fields args : ∀ st (pre : list Z) post n,
  config fs cs esc st →
  resumes_at st (length pre) → dumped st = true →
  commandBuffer st =
    pre ++ fields_bytes fs (escaped_fields fs cs esc args) ++ 0 :: post →
  Forall (λ a, a ≠ [] ∧ Forall (λ c, c ≠ 0) a) args →
  ∃ st', read_unescaped n st = Some (take n args, st')
    ∧ ((length args < n)%nat → isArgOk st' = false).
Proof.
  destruct Hsep as (He0 & Hf0 & Hfc & Hfe & Hcce & _).
  induction args as [|a rest IH];
    intros st pre post n (Hcf & Hcc & Hce) Hres Hdump Hbuf Hok.
  - destruct n as [|n]; [exists st; split; [done|cbn; lia]|].
    cbn [escaped_fields map fields_bytes app] in Hbuf.
    destruct (readStringArg_exhausted st 0 pre post)
      as (st1 & Hr & Hnok & _); try (rewrite ?Hcf, ?Hce; done).
    exists st1. cbn [read_unescaped]. rewrite Hr. cbn [mbind option_bind].
    unfold isArgOk. rewrite Hnok. done.
  - destruct n as [|n]; [exists st; split; [done|cbn; lia]|].
    apply Forall_cons in Hok as [(Hne & Hnz) Hok].
    set (e := flat_map (Codec.printEsc fs cs esc) a).
    assert (He : Codec.printEsc_str fs cs esc a = e)
      by (by apply printEsc_str_writeBin).
    assert (Hene : e ≠ []).
    { subst e. destruct a as [|c v]; [done|]. cbn [flat_map].
      unfold Codec.printEsc. by destruct (_ || _). }
    destruct (scan_writeBin_field fs cs esc Hsep a 0) as (l' & Hscan & Hl');
      [congruence|]. fold e in Hscan.
    pose proof (length_writeBin a) as Hlen. fold e in Hlen.
    assert (Hgen : ∀ d post' (pre' : list Z),
      commandBuffer st = pre ++ e ++ d :: post' →
      stop_field fs d = true →
      pre' ++ fields_bytes fs (escaped_fields fs cs esc rest) ++ 0 :: post =
        pre ++ a ++ replicate (S (length e) - length a) 0 ++ post' →
      length pre' =
        (length pre + length e + (if (d =? 0)%Z then 0 else 1))%nat →
      ∃ st', read_unescaped (S n) st = Some (take (S n) (a :: rest), st')
        ∧ ((length (a :: rest) < S n)%nat → isArgOk st' = false)).
    { intros d post' pre' Hb Hd Hb' Hlen'.
      destruct (readStringArg_token st 0 pre e post' d l')
        as (st1 & Hr & Hcur & Hres1 & Hb1 & Hdu1 & Hok1 & Hf1 & He1 & Hc1);
        try (rewrite ?Hcf, ?Hce; done).
      cbn [replicate app] in Hb1. rewrite Nat.add_0_r in *.
      rewrite <- Hlen' in Hres1.
      pose proof (unescape_writeBin fs cs esc a pre post' He0) as Hu.
      cbn zeta in Hu. fold e in Hu.
      set (st1u := set_commandBuffer
             (pre ++ a ++ replicate (S (length e) - length a) 0 ++ post') st1).
      destruct (IH st1u pre' post n) as (st2 & Hrs & Hlast).
      { unfold config. subst st1u. cbn. split_and!; congruence. }
      { subst st1u. destruct Hres1 as [[? ?]|[? ?]]; [by left|by right]. }
      { by subst st1u. }
      { subst st1u. cbn. by rewrite Hb'. }
      { done. }
      exists st2. cbn [read_unescaped]. rewrite Hr. cbn [mbind option_bind].
      unfold isArgOk. rewrite Hok1. cbn [mbind option_bind].
      unfold unescape. rewrite Hb1, He1, Hce, Hu. cbn [mbind option_bind].
      fold st1u. unfold token.
      replace (current st1u) with (Some (length pre)) by (by subst st1u).
      cbn [mbind option_bind].
      replace (commandBuffer st1u)
        with (pre ++ a ++ 0 :: replicate (length e - length a) 0 ++ post').
      2:{ subst st1u. cbn. do 2 f_equal.
          replace (S (length e) - length a)%nat
            with (S (length e - length a)) by lia. done. }
      rewrite cstr_at_middle by done. cbn [mbind option_bind].
      rewrite Hrs. cbn [mbind option_bind].
      split; [done|]. cbn [length]. intros ?. apply Hlast. lia. }
    cbn [escaped_fields map fields_bytes replicate app] in Hbuf.
    rewrite He in Hbuf. fold (escaped_fields fs cs esc rest) in Hbuf.
    destruct rest as [|a2 rest2].
    + apply (Hgen 0 post (pre ++ a ++ replicate (length e - length a) 0)).
      * rewrite Hbuf. cbn [escaped_fields map]. by rewrite app_nil_r.
      * done.
      * cbn [escaped_fields map fields_bytes app]. rewrite <- !app_assoc.
        do 2 f_equal.
        replace (S (length e) - length a)%nat
          with (length e - length a + 1)%nat by lia.
        rewrite replicate_add, <- app_assoc. done.
      * rewrite !length_app, length_replicate. cbn. lia.
    + apply (Hgen fs (fields_bytes fs (escaped_fields fs cs esc (a2 :: rest2))
                        ++ 0 :: post)
               (pre ++ a ++ replicate (S (length e) - length a) 0)).
      * rewrite Hbuf. cbn [escaped_fields map]. rewrite <- !app_assoc. done.
      * unfold stop_field. by rewrite Z.eqb_refl, orb_true_r.
      * by rewrite <- !app_assoc.
      * rewrite !length_app, length_replicate.
        destruct (Z.eqb_spec fs 0); [done|]. lia.
Qed.
End EscapedFacts.

Section EscapedRoundTrip.
Import Engine Api.
Variables fs cs esc : Z.
Hypothesis Hsep : separators_ok fs cs esc.
Variable clock : nat → Z.

Lemma flat_map_escaped args :
  args ≠ [] →
  flat_map (λ a, fs :: rendered fs cs esc a) (map ArgEscaped args) =
  fs :: fields_bytes fs (escaped_fields fs cs esc args).
Proof.
  induction args as [|a rest IH]; [done|]. intros _.
  cbn [map flat_map escaped_fields fields_bytes rendered replicate app].
  f_equal. f_equal. destruct rest as [|a2 rest2]; [done|].
  rewrite IH by done. done.
Qed.

Lemma scan_escaped_frame args : ∀ l,
  l ≠ esc → Forall (λ a, a ≠ [] ∧ Forall (λ c, c ≠ 0) a) args →
  ∃ l', scan esc (stop_frame cs) l
          (fields_bytes fs (escaped_fields fs cs esc args)) = Some l'
        ∧ l' ≠ esc.
Proof.
  destruct Hsep as (He0 & Hf0 & Hfc & Hfe & Hcce & _).
  induction args as [|a rest IH]; intros l Hl Hok; [by exists l|].
  apply Forall_cons in Hok as [(Hne & Hnz) Hok].
  cbn [escaped_fields map fields_bytes replicate app].
  fold (escaped_fields fs cs esc rest).
  rewrite (printEsc_str_writeBin fs cs esc) by done.
  destruct (scan_writeBin_frame fs cs esc Hsep a l Hl) as (l1 & Hs1 & Hl1).
  destruct rest as [|a2 rest2].
  - exists l1. split; [|done]. cbn [escaped_fields map]. by rewrite app_nil_r.
  - destruct (scan_plain esc (stop_frame cs) [fs] l1) as (l2 & Hs2 & Hl2);
      [done| |].
    { repeat constructor; [done|]. unfold stop_frame. by apply Z.eqb_neq. }
    destruct (IH l2 Hl2 Hok) as (l3 & Hs3 & Hl3).
    exists l3. split; [|done]. cbn [escaped_fields map].
    fold (escaped_fields fs cs esc (a2 :: rest2)).
    rewrite scan_app, Hs1. cbn [mbind option_bind].
    change (fs :: ?x) with ([fs] ++ x). rewrite scan_app, Hs2. exact Hs3.
Qed.

(** X9.  Separators pairwise distinct, none a digit, field separator
    and escape byte non-null; an idle writer configured with them, new
    lines off; a reader ready on the same separators.  A command with
    an id in 0..255 and at least one argument, all sent with
    [sendCmdEscArg], each a non-empty string without null bytes
    (separators and escape bytes allowed), the escaped arguments and
    the separators between them within 184 bytes, closes one frame on
    the reader, at its last byte; [readInt16Arg] gives the command id,
    OK, and [readStringArg] followed by [unescape] on the pointer
    returned gives the arguments back in order; the read after the
    last one is not OK. *)
Theorem send_escaped_read_unescaped
    fuel cmdId args ackCmdId timeout stw envw st n :
  config fs cs esc stw → startCommand stw = false →
  print_newlines stw = false →
  ready fs cs esc st →
  0 ≤ cmdId < 256 → args ≠ [] →
  Forall (λ a, a ≠ [] ∧ Forall (λ c, c ≠ 0) a) args →
  (length (fields_bytes fs (escaped_fields fs cs esc args)) ≤ 184)%nat →
  ∃ stw' envw' st1 st2 st3,
    send_command clock fuel cmdId (map ArgEscaped args) false ackCmdId timeout
      stw envw = Some (false, stw', envw')
    ∧ feed st (written envw envw') =
        Some (replicate (length (written envw envw') - 1) kProccesingMessage
                ++ [kEndOfMessage], st1)
    ∧ readInt16Arg st1 = Some (cmdId, st2) ∧ isArgOk st2 = true
    ∧ read_unescaped n st2 = Some (take n args, st3)
    ∧ ((length args < n)%nat → isArgOk st3 = false).
Proof.
  intros (Hwf & Hwc & Hwe) Hstart Hnl Hready Hid Hne Hok Hlen.
  rewrite send_command_bytes by done.
  rewrite Hnl, Hwf, Hwc, Hwe, flat_map_escaped by done.
  pose proof (print_dec_length cmdId) as Hdl.
  destruct (receive_id_payload fs cs esc Hsep st cmdId
              (fields_bytes fs (escaped_fields fs cs esc args)))
    as (st1 & st2 & post & Hfeed & Hr1 & Hses & Hread & Hok2 & Hdu & Hres & Hbuf
        & Hcfg2); try done; try lia.
  { intros l Hl. by apply scan_escaped_frame. }
  destruct (read_unescaped_fields fs cs esc Hsep args st2
              (print_dec cmdId ++ [0]) post n)
    as (st3 & Hru & Hlast); try done.
  do 5 eexists. split; [reflexivity|]. rewrite written_print.
  cbn [app] in Hfeed |- *. split_and!; done.
Qed.
End EscapedRoundTrip.

Section AckFacts.
Import Engine Api.
Variables fs cs esc : Z.
Hypothesis Hsep : separators_ok fs cs esc.
Variable clock : nat → Z.

(** Polls over bytes that complete no frame: the wait stays in its
    loop as long as the readings of the clock are within the timeout. *)
Lemma blockedTillReply_loop_feed q : ∀ st st' env r fuel timeout ack start time,
  rx env = q ++ r →
  feed st q = Some (replicate (length q) kProccesingMessage, st') →
  (time - start) mod 2 ^ 32 < timeout →
  (∀ j, (j < length q)%nat →
        (clock (ticks env + j) - start) mod 2 ^ 32 < timeout) →
  ∃ time',
    (time' - start) mod 2 ^ 32 < timeout ∧
    blockedTillReply_loop clock (length q + fuel) timeout ack start time false
      st env =
    blockedTillReply_loop clock fuel timeout ack start time' false st'
      {| rx := r; tx := tx env; ticks := ticks env + length q |}.
Proof.
  induction q as [|b q IH];
    intros st st' env r fuel timeout ack start time Hrx Hfeed Htime Hwin.
  - cbn in Hfeed. injection Hfeed as <-. exists time. split; [done|].
    cbn [length Nat.add]. rewrite Nat.add_0_r. cbn [app] in Hrx.
    destruct env. cbn in *. by subst.
  - cbn [feed] in Hfeed.
    destruct (processLine st b) as [[ms st1]|] eqn:Hpl; [|done].
    cbn [mbind option_bind] in Hfeed.
    destruct (feed st1 q) as [[mss st2]|] eqn:Hf; [|done].
    cbn [mbind option_bind length replicate] in Hfeed.
    injection Hfeed as -> -> ->.
    destruct (IH st1 st' {| rx := q ++ r; tx := tx env; ticks := S (ticks env) |}
                r fuel timeout ack start (clock (ticks env)))
      as (time' & Ht' & Heq); try done.
    { specialize (Hwin 0%nat). rewrite Nat.add_0_r in Hwin. apply Hwin.
      cbn [length]. lia. }
    { intros j Hj. cbn [ticks].
      replace (S (ticks env) + j)%nat with (ticks env + S j)%nat by lia.
      apply Hwin. cbn [length]. lia. }
    exists time'. split; [done|].
    cbn [length Nat.add blockedTillReply_loop].
    destruct (Z.ltb_spec ((time - start) mod 2 ^ 32) timeout); [|lia].
    cbn [andb negb]. unfold millis, checkForAck. cbn [rx]. rewrite Hrx.
    cbn [app]. rewrite Hpl. cbn [mbind option_bind is_end].
    unfold set_rx. cbn [rx tx ticks]. rewrite Heq. cbn [rx tx ticks].
    do 2 f_equal. lia.
Qed.

(** A reply frame that carries the expected id ends the loop of the
    wait with an acknowledgment, at its separator. *)
Lemma blockedTillReply_loop_ack fuel timeout ack start time st env rest :
  ready fs cs esc st → 0 ≤ ack < 256 →
  rx env = print_dec ack ++ cs :: rest →
  (time - start) mod 2 ^ 32 < timeout →
  (∀ j, (j < length (print_dec ack))%nat →
        (clock (ticks env + j) - start) mod 2 ^ 32 < timeout) →
  (length (print_dec ack) < fuel)%nat →
  ∃ st',
    blockedTillReply_loop clock fuel timeout ack start time false st env =
    Some (true, st',
          {| rx := rest; tx := tx env;
             ticks := ticks env + length (print_dec ack) + 1 |})
    ∧ isArgOk st' = true.
Proof.
  intros (Hwf & (Hcf & Hcc & Hce) & Hidx & Hl0) Hack Hrx Htime Hwin Hfuel.
  destruct Hsep as (He0 & Hf0 & Hfc & Hfe & Hcce & _).
  destruct (print_dec_digits ack) as [Hdne Hdig]; [lia|].
  assert (Hplain : Forall (plain fs cs esc) (print_dec ack)).
  { eapply Forall_impl; [exact Hdig|]. by apply digit_plain. }
  destruct (scan_plain_frame fs cs esc (print_dec ack) (CmdlastChar st))
    as (l1 & Hs1 & Hl1); [done|done|].
  assert (Hlen : (length (print_dec ack) ≤ 5)%nat)
    by (apply print_dec_length; lia).
  destruct (feed_frame_scan (print_dec ack) st l1)
    as (st1 & Hfeed & Hwf1 & Hcfg1 & Hi1 & Hb1 & Hms1 & Hd1 & Hc1);
    try done; try (rewrite ?Hce, ?Hcc; done); try lia.
  destruct Hcfg1 as (Hcs1 & Hfs1 & Hes1 & _).
  rewrite feed_app in Hfeed.
  destruct (feed st (print_dec ack)) as [[m1 sa]|] eqn:Hfa; [|done].
  cbn [mbind option_bind feed] in Hfeed.
  destruct (processLine sa (command_separator st)) as [[ms sb]|] eqn:Hpl;
    [|done].
  cbn [mbind option_bind] in Hfeed. injection Hfeed as Hm ->.
  apply app_inj_tail in Hm as [-> ->].
  assert (Hbuf1 : commandBuffer st1 =
            [] ++ replicate 0 (field_separator st1) ++ print_dec ack ++
              0 :: drop (S (length (print_dec ack))) (commandBuffer st1)).
  { rewrite <- (take_drop (S (length (print_dec ack))) (commandBuffer st1)) at 1.
    rewrite Hb1. cbn [replicate app]. rewrite <- !app_assoc. done. }
  destruct (scan_plain_field fs cs esc (print_dec ack) 0) as (l3 & Hs3 & Hl3);
    [congruence|done|].
  destruct (readInt16Arg_token st1 0 [] (print_dec ack)
              (drop (S (length (print_dec ack))) (commandBuffer st1)) 0 l3)
    as (st2 & Hr & _ & _ & _ & Hok2 & _);
    try (rewrite ?Hfs1, ?Hes1, ?Hcf, ?Hce; done); try (by left).
  { eapply Forall_impl; [exact Hplain|]. by intros c (? & _). }
  rewrite atoi_print_dec, wrap_signed_16 in Hr by lia.
  exists st2. split; [|done].
  replace fuel with (length (print_dec ack) + S (fuel - length (print_dec ack) - 1))%nat
    by lia.
  destruct (blockedTillReply_loop_feed (print_dec ack) st sa env
              (cs :: rest) (S (fuel - length (print_dec ack) - 1)) timeout ack
              start time)
    as (time' & Ht' & ->); try done.
  cbn [blockedTillReply_loop rx tx ticks].
  destruct (Z.ltb_spec ((time' - start) mod 2 ^ 32) timeout); [|lia].
  cbn [andb negb]. unfold millis, checkForAck. cbn [rx tx ticks].
  rewrite <- Hcc, Hpl. cbn [mbind option_bind is_end]. rewrite Hr.
  cbn [mbind option_bind]. rewrite Z.eqb_refl, Hok2. cbn [andb].
  unfold set_rx. cbn [rx tx ticks mbind option_bind].
  destruct (fuel - length (print_dec ack) - 1)%nat;
    cbn [blockedTillReply_loop negb]; rewrite andb_false_r; do 3 f_equal; lia.
Qed.

(** The same from the start of the wait. *)
Lemma blockedTillReply_ack_run fuel timeout ack st env rest :
  ready fs cs esc st → 0 ≤ ack < 256 →
  rx env = print_dec ack ++ cs :: rest →
  (∀ j, (j ≤ length (print_dec ack))%nat →
        (clock (ticks env + j) - clock (ticks env)) mod 2 ^ 32 < timeout) →
  (length (print_dec ack) < fuel)%nat →
  ∃ st',
    blockedTillReply clock fuel timeout ack st env =
    Some (true, st',
          {| rx := rest; tx := tx env;
             ticks := ticks env + length (print_dec ack) + 2 |})
    ∧ isArgOk st' = true.
Proof.
  intros Hready Hack Hrx Hwin Hfuel. unfold blockedTillReply, millis.
  destruct (blockedTillReply_loop_ack fuel timeout ack (clock (ticks env))
              (clock (ticks env)) st
              {| rx := rx env; tx := tx env; ticks := S (ticks env) |} rest
              Hready Hack Hrx)
    as (st' & H & Hok).
  - specialize (Hwin 0%nat). rewrite Nat.add_0_r in Hwin. apply Hwin. lia.
  - intros j Hj. cbn [ticks].
    replace (S (ticks env) + j)%nat with (ticks env + S j)%nat by lia.
    apply Hwin. lia.
  - done.
  - exists st'. split; [|done]. rewrite H. cbn [rx tx ticks].
    do 3 f_equal. lia.
Qed.

(** X10.  Separators pairwise distinct, none a digit, field
    separator and escape byte non-null; a reader ready on them; an
    expected id in 0..255; a loop bound above the number of its
    digits.  When the bytes waiting are the decimal of the expected id
    and the command separator, and every reading of the clock taken
    while they are polled is within the timeout of the first,
    [blockedTillReply] returns true at the separator: the frame is
    consumed, the id read is OK, what follows the frame is left on
    the transport, nothing is written, and [millis] has been called
    once at the start and once per byte polled. *)
Theorem blockedTillReply_ack fuel timeout ack st env rest :
  ready fs cs esc st → 0 ≤ ack < 256 →
  rx env = print_dec ack ++ cs :: rest →
  (∀ j, (j ≤ length (print_dec ack))%nat →
        (clock (ticks env + j) - clock (ticks env)) mod 2 ^ 32 < timeout) →
  (length (print_dec ack) < fuel)%nat →
  ∃ st',
    blockedTillReply clock fuel timeout ack st env =
    Some (true, st',
          {| rx := rest; tx := tx env;
             ticks := ticks env + length (print_dec ack) + 2 |})
    ∧ isArgOk st' = true.
Proof. apply blockedTillReply_ack_run. Qed.

(** X11.  Separators pairwise distinct, none a digit, field
    separator and escape byte non-null; an engine ready on them with
    no command under construction; an expected id in 0..255; a loop
    bound above the number of its digits.  A command sent with a
    request for acknowledgment, while the bytes waiting start with the
    decimal of the expected id and the command separator and the
    clock stays within the timeout while they are polled: the bytes
    of the command go out (id, arguments behind field separators,
    command separator, CR LF in new-line mode), the reply is
    consumed, what follows it stays on the transport, the result is
    true, and [startCommand] and [pauseProcessing] are false. *)
Theorem send_command_acknowledged
    fuel cmdId args ack timeout st env rest :
  ready fs cs esc st → startCommand st = false → 0 ≤ ack < 256 →
  rx env = print_dec ack ++ cs :: rest →
  (∀ j, (j ≤ length (print_dec ack))%nat →
        (clock (ticks env + j) - clock (ticks env)) mod 2 ^ 32 < timeout) →
  (length (print_dec ack) < fuel)%nat →
  ∃ st' env',
    send_command clock fuel cmdId args true ack timeout st env
      = Some (true, st', env')
    ∧ written env env' =
        print_dec cmdId ++
        flat_map (λ a, fs :: rendered fs cs esc a) args ++
        cs :: (if print_newlines st then [13; 10] else [])
    ∧ rx env' = rest
    ∧ startCommand st' = false ∧ pauseProcessing st' = false.
Proof.
  intros Hready Hstart Hack Hrx Hwin Hfuel.
  pose proof Hready as (Hwf & (Hcf & Hcc & Hce) & Hidx & Hl0).
  unfold send_command, sendCmdStart. rewrite Hstart. cbn [negb].
  rewrite sendArgs_print by done. unfold sendCmdEnd.
  cbn [startCommand set_pauseProcessing set_startCommand print_newlines
       command_separator field_separator escape_character].
  set (stb := set_pauseProcessing true (set_startCommand true st)).
  set (envb := if print_newlines st then _ else _).
  assert (Hrb : ready fs cs esc stb) by done.
  assert (Hrxb : rx envb = print_dec ack ++ cs :: rest).
  { subst envb. by destruct (print_newlines st). }
  assert (Htb : ticks envb = ticks env).
  { subst envb. by destruct (print_newlines st). }
  destruct (blockedTillReply_ack_run fuel timeout ack stb envb rest)
    as (st' & Hb & _); try done.
  { by rewrite Htb. }
  rewrite Hb. cbn [mbind option_bind]. do 2 eexists.
  split; [reflexivity|]. cbn [rx]. split_and!; try done.
  unfold written. cbn [tx]. subst envb. rewrite Hcf, Hcc, Hce.
  destruct (print_newlines st); unfold print; cbn [tx];
    rewrite <- !app_assoc, drop_app_length; cbn [app]; done.
Qed.
End AckFacts.

(** * What the reads leave alone *)

Section ReaderKept.
Import Engine Api.

Ltac reader_done :=
  unfold same_reader, same_separators in *; cbn in *; intuition congruence.

Lemma same_reader_refl st : same_reader st st.
Proof. unfold same_reader, same_separators. split_and!; done. Qed.

Lemma same_reader_trans st1 st2 st3 :
  same_reader st1 st2 → same_reader st2 st3 → same_reader st1 st3.
Proof. unfold same_reader, same_separators. intuition congruence. Qed.

Lemma store_length (buf : list Z) p v buf' :
  store buf p v = Some buf' → length buf' = length buf.
Proof.
  unfold store. destruct (p <? length buf)%nat; [|done].
  intros [= <-]. apply length_insert.
Qed.

Lemma unescape_loop_length fuel esc : ∀ buf f t buf' f' t',
  Codec.unescape_loop fuel esc buf f t = Some (buf', f', t') →
  length buf' = length buf.
Proof.
  induction fuel as [|fuel IH]; intros buf f t buf' f' t'; [done|].
  cbn [Codec.unescape_loop].
  destruct (load buf f) as [c|]; [|done]. cbn [mbind option_bind].
  destruct (c =? 0); [by intros [= <- _ _]|].
  destruct (load buf _) as [v|]; [|done]. cbn [mbind option_bind].
  destruct (store buf t v) as [b1|] eqn:E; [|done]. cbn [mbind option_bind].
  intros H. apply IH in H. apply store_length in E. congruence.
Qed.

Lemma unescape_pad_length n : ∀ buf t buf',
  Codec.unescape_pad n buf t = Some buf' → length buf' = length buf.
Proof.
  induction n as [|n IH]; intros buf t buf'; [by intros [= <-]|].
  cbn [Codec.unescape_pad].
  destruct (store buf t 0) as [b1|] eqn:E; [|done]. cbn [mbind option_bind].
  intros H. apply IH in H. apply store_length in E. congruence.
Qed.

(** [unescape] never changes the size of the buffer. *)
Lemma unescape_length esc buf p buf' :
  Codec.unescape esc buf p = Some buf' → length buf' = length buf.
Proof.
  unfold Codec.unescape.
  destruct (Codec.unescape_loop _ _ _ _ _) as [[[b1 f] t]|] eqn:E; [|done].
  cbn [mbind option_bind]. intros H. apply unescape_pad_length in H.
  apply unescape_loop_length in E. congruence.
Qed.

Lemma findNext_reader st str pos st' :
  findNext st str = Some (pos, st') →
  same_reader st st' ∧ commandBuffer st' = commandBuffer st.
Proof.
  unfold findNext. destruct str as [p|]; [|done]. cbn [mbind option_bind].
  destruct (findNext_loop _ _ _ _ _ _ _) as [[n l]|]; [|done].
  cbn [mbind option_bind]. intros [= _ <-]. split; [|done].
  unfold same_reader, same_separators. cbn. split_and!; done.
Qed.

Lemma split_r_strip_reader fuel : ∀ st str r st',
  split_r_strip fuel st str = Some (r, st') → same_reader st st'.
Proof.
  induction fuel as [|fuel IH]; intros st str r st'; [done|].
  cbn [split_r_strip].
  destruct (findNext st (Some str)) as [[pos st1]|] eqn:E; [|done].
  apply findNext_reader in E as [E _]. cbn [mbind option_bind].
  destruct (load (commandBuffer st1) str) as [c|]; [|done].
  cbn [mbind option_bind].
  destruct (_ && _).
  - intros H. apply IH in H. by eapply same_reader_trans.
  - intros [= _ <-]. reader_done.
Qed.

Lemma split_r_reader st str r st' :
  split_r st str = Some (r, st') → same_reader st st'.
Proof.
  unfold split_r.
  destruct (match str with Some p => Some p | None => last st end)
    as [p|]; [|done].
  cbn [mbind option_bind].
  destruct (split_r_strip _ st p) as [[q st1]|] eqn:E1; [|done].
  apply split_r_strip_reader in E1. cbn [mbind option_bind].
  destruct (load (commandBuffer st1) q) as [c|]; [|done].
  cbn [mbind option_bind].
  destruct (c =? 0); [intros [= _ <-]; reader_done|].
  destruct (findNext st1 (Some q)) as [[pos st2]|] eqn:E2; [|done].
  apply findNext_reader in E2 as [E2 _]. cbn [mbind option_bind].
  destruct (load (commandBuffer st2) (q + pos)) as [d|]; [|done].
  cbn [mbind option_bind].
  pose proof (same_reader_trans _ _ _ E1 E2) as E.
  destruct (negb (d =? 0)).
  - destruct (store _ _ _) as [buf|] eqn:Es; [|done].
    cbn [mbind option_bind]. apply store_length in Es.
    intros [= _ <-]. clear E1 E2. reader_done.
  - cbn [mbind option_bind]. intros [= _ <-]. clear E1 E2. reader_done.
Qed.

Lemma next_reader st b st' : next st = Some (b, st') → same_reader st st'.
Proof.
  assert (Hd : ∀ tp s b s', next_default tp s = Some (b, s') →
                 same_reader s s').
  { intros tp s b0 s'. unfold next_default. destruct (dumped s).
    - destruct (split_r s tp) as [[r s1]|] eqn:E; [|done].
      apply split_r_reader in E. cbn [mbind option_bind].
      destruct (current (set_current r s1));
        intros [= _ <-]; reader_done.
    - cbn [mbind option_bind].
      destruct (current s); intros [= _ <-]; reader_done. }
  unfold next. destruct (messageState st).
  - intros [= _ <-]. reader_done.
  - intros H. apply Hd in H. reader_done.
  - apply Hd.
Qed.

(** No typed read touches the frame reader, the separators or the
    writer's flags, and none changes the size of the buffer. *)
Lemma reads_reader st :
  (∀ v st', readInt16Arg st = Some (v, st') → same_reader st st') ∧
  (∀ v st', readInt32Arg st = Some (v, st') → same_reader st st') ∧
  (∀ v st', readBoolArg st = Some (v, st') → same_reader st st') ∧
  (∀ v st', readCharArg st = Some (v, st') → same_reader st st') ∧
  (∀ v st', readStringArg st = Some (v, st') → same_reader st st') ∧
  (∀ size v st', copyStringArg st size = Some (v, st') → same_reader st st') ∧
  (∀ s v st', compareStringArg st s = Some (v, st') → same_reader st st') ∧
  (∀ size v st', readBinArg size st = Some (v, st') → same_reader st st').
Proof.
  unfold readBoolArg, readInt16Arg, readInt32Arg, readCharArg, readStringArg,
    copyStringArg, compareStringArg, readBinArg, readBin.
  destruct (next st) as [[b s1]|] eqn:E; cbn [mbind option_bind];
    [|split_and!; intros; done].
  apply next_reader in E.
  destruct b; split_and!; intros;
    repeat match goal with
      | H : context [token ?s] |- _ =>
          destruct (token s); cbn [mbind option_bind] in H; try done
      | H : context [current ?s] |- _ =>
          destruct (current s); cbn [mbind option_bind] in H; try done
      | H : context [load ?b ?p] |- _ =>
          destruct (load b p); cbn [mbind option_bind] in H; try done
      | H : context [bytes_eqb ?a ?b] |- _ => destruct (bytes_eqb a b)
      | H : context [Codec.unescape ?e ?b ?p] |- _ =>
          let Eu := fresh "Eu" in
          destruct (Codec.unescape e b p) eqn:Eu;
          cbn [mbind option_bind] in H; try done;
          apply unescape_length in Eu
      | H : context [mapM ?f ?l] |- _ =>
          destruct (mapM f l); cbn [mbind option_bind] in H; try done
      | H : _ ≫= _ = Some _ |- _ => progress cbn [mbind option_bind] in H
      | H : Some _ = Some _ |- _ => injection H as <- <-
      end.
  all: reader_done.
Qed.

(** X12.  No typed read ([readInt16Arg], [readInt32Arg],
    [readBoolArg], [readCharArg], [readStringArg], [copyStringArg],
    [compareStringArg], [readBinArg]) touches the frame reader's
    cursor and escape cell, the separators, the writer's flags or
    [lastCommandId], and none changes the size of the buffer. *)
Theorem reads_keep_reader st :
  (∀ v st', readInt16Arg st = Some (v, st') → same_reader st st') ∧
  (∀ v st', readInt32Arg st = Some (v, st') → same_reader st st') ∧
  (∀ v st', readBoolArg st = Some (v, st') → same_reader st st') ∧
  (∀ v st', readCharArg st = Some (v, st') → same_reader st st') ∧
  (∀ v st', readStringArg st = Some (v, st') → same_reader st st') ∧
  (∀ size v st', copyStringArg st size = Some (v, st') → same_reader st st') ∧
  (∀ s v st', compareStringArg st s = Some (v, st') → same_reader st st') ∧
  (∀ size v st', readBinArg size st = Some (v, st') → same_reader st st').
Proof. apply reads_reader. Qed.

Lemma reads_keep_reader_witness :
  readInt16Arg closed_2 = Some (2, read_2) ∧ same_reader closed_2 read_2.
Proof.
  assert (H : readInt16Arg closed_2 = Some (2, read_2))
    by (vm_compute; reflexivity).
  split; [exact H|].
  exact (proj1 (reads_keep_reader closed_2) 2 read_2 H).
Defined.
End ReaderKept.

(** * The wait after a mismatch *)

Section WaitResumed.
Import Engine Api.
Variable clock : nat → Z.

(** The separator that hands a frame over leaves the reader ready. *)
Lemma processLine_end st c st1 :
  wf st → processLine st c = Some (kEndOfMessage, st1) →
  wf st1 ∧ same_config st st1 ∧ bufferIndex st1 = 0 ∧ CmdlastChar st1 = 0.
Proof.
  intros Hwf H.
  destruct (processLine_wf st c Hwf) as (ms & st' & H' & Hwf' & Hcfg).
  rewrite H in H'. injection H' as <- <-. split; [done|]. split; [done|].
  revert H. unfold processLine.
  destruct (Codec.isEscaped _ _ _ _) as [e l].
  destruct (_ && _).
  - destruct (store _ _ _) as [buf|]; [|done]. cbn [mbind option_bind].
    destruct (0 <? _); cbn; [by intros [= <-]|done].
  - destruct (store _ _ _) as [buf|]; [|done]. cbn [mbind option_bind].
    destruct (_ <=? _); cbn; done.
Qed.

(** C3, as the code has it.  When a byte polled within the timeout
    completes a frame whose id does not match (or is not read OK),
    that poll reports no acknowledgment and the wait goes on with the
    rest of the stream, under the reading of the clock taken at that
    poll.  From there it ends unacknowledged at once when that reading
    is past the timeout, and it ends unacknowledged only on a reading
    past the timeout.  When the separators are pairwise distinct, none
    a digit, the field separator and the escape byte non-null, the
    reader was well formed with those separators, the expected id is
    in 0..255, the loop bound is above the number of its digits, and
    the bytes that follow are its decimal and the command separator,
    polled under readings within the timeout, it ends acknowledged at
    that separator. *)
Theorem blockedTillReply_mismatch_continues
    fs cs esc fuel timeout ack start time st env b rest st1 id st2 :
  rx env = b :: rest →
  processLine st b = Some (kEndOfMessage, st1) →
  readInt16Arg st1 = Some (id, st2) →
  (ack =? id) && ArgOk st2 = false →
  (time - start) mod 2 ^ 32 < timeout →
  let env2 := {| rx := rest; tx := tx env; ticks := S (ticks env) |} in
  let resumed :=
    blockedTillReply_loop clock fuel timeout ack start (clock (ticks env))
      false st2 env2 in
  blockedTillReply_loop clock (S fuel) timeout ack start time false st env =
    resumed
  ∧ (timeout ≤ (clock (ticks env) - start) mod 2 ^ 32 →
     resumed = Some (false, st2, env2))
  ∧ (∀ st' env', resumed = Some (false, st', env') →
       timeout ≤ (clock (ticks env' - 1)%nat - start) mod 2 ^ 32)
  ∧ (∀ rest',
       separators_ok fs cs esc → wf st → config fs cs esc st →
       0 ≤ ack < 256 → rest = print_dec ack ++ cs :: rest' →
       (∀ j, (j ≤ length (print_dec ack))%nat →
             (clock (ticks env + j) - start) mod 2 ^ 32 < timeout) →
       (length (print_dec ack) < fuel)%nat →
       ∃ st', resumed =
                Some (true, st',
                      {| rx := rest'; tx := tx env;
                         ticks := ticks env + length (print_dec ack) + 2 |})
              ∧ isArgOk st' = true).
Proof.
  intros Hrx Hpl Hrd Hmis Hwin env2 resumed. split_and!.
  - subst resumed. cbn [blockedTillReply_loop].
    destruct (Z.ltb_spec ((time - start) mod 2 ^ 32) timeout); [|lia].
    cbn [andb negb]. unfold millis, checkForAck. cbn [rx]. rewrite Hrx, Hpl.
    cbn [mbind option_bind is_end]. rewrite Hrd. cbn [mbind option_bind].
    rewrite Hmis. cbn [mbind option_bind]. done.
  - intros Hout. subst resumed.
    destruct fuel; cbn [blockedTillReply_loop];
      (destruct (Z.ltb_spec ((clock (ticks env) - start) mod 2 ^ 32) timeout);
       [lia|done]).
  - intros st' env' Hloop. subst resumed.
    apply blockedTillReply_loop_nak in Hloop
      as (t & Ht & [[-> Hk]|[_ ->]]); [|done].
    rewrite Hk. cbn [ticks env2]. by rewrite Nat.sub_1_r.
  - intros rest' Hsep Hwf Hcfg Hack -> Hclock Hfuel. subst resumed.
    destruct (processLine_end st b st1 Hwf Hpl)
      as (Hwf1 & (Hcs1 & Hfs1 & Hes1 & _) & Hi1 & Hc1).
    pose proof (proj1 (reads_reader st1) id st2 Hrd)
      as (Hi2 & Hla2 & Hc2 & Hlen2 & (Hf2 & He2 & Hcs2) & _).
    destruct Hcfg as (Hcf & Hcc & Hce).
    assert (Hready : ready fs cs esc st2).
    { pose proof Hsep as (He0 & _).
      unfold ready, wf, config in *. split_and!; try congruence; try lia. }
    destruct (blockedTillReply_loop_ack fs cs esc Hsep clock fuel timeout ack
                start (clock (ticks env)) st2 env2 rest' Hready Hack)
      as (st' & Hloop & Hok); try done.
    + specialize (Hclock 0%nat). rewrite Nat.add_0_r in Hclock.
      apply Hclock. lia.
    + intros j Hj. cbn [ticks env2].
      replace (S (ticks env) + j)%nat with (ticks env + S j)%nat by lia.
      apply Hclock. lia.
    + exists st'. split; [|done]. rewrite Hloop. cbn [rx tx ticks env2].
      do 3 f_equal. lia.
Qed.
End WaitResumed.

Section WaitResumedExample.
Import Engine Api.

Lemma blockedTillReply_mismatch_continues_witness :
  let clock := λ _ : nat, 0 in
  let env := mkEnv (B ";1;") [] 2 in
  rx env = 59 :: B "1;" ∧
  processLine after_2 59 = Some (kEndOfMessage, closed_2) ∧
  readInt16Arg closed_2 = Some (2, read_2) ∧
  (1 =? 2) && ArgOk read_2 = false ∧
  (0 - 0) mod 2 ^ 32 < 5000 ∧
  let env2 := {| rx := B "1;"; tx := tx env; ticks := S (ticks env) |} in
  let resumed :=
    blockedTillReply_loop clock 2 5000 1 0 (clock (ticks env)) false
      read_2 env2 in
  blockedTillReply_loop clock 3 5000 1 0 0 false after_2 env = resumed
  ∧ (5000 ≤ (clock (ticks env) - 0) mod 2 ^ 32 →
     resumed = Some (false, read_2, env2))
  ∧ (∀ st' env', resumed = Some (false, st', env') →
       5000 ≤ (clock (ticks env' - 1)%nat - 0) mod 2 ^ 32)
  ∧ (∀ rest',
       separators_ok 44 59 47 → wf after_2 → config 44 59 47 after_2 →
       0 ≤ 1 < 256 → B "1;" = print_dec 1 ++ 59 :: rest' →
       (∀ j, (j ≤ length (print_dec 1))%nat →
             (clock (ticks env + j)%nat - 0) mod 2 ^ 32 < 5000) →
       (length (print_dec 1) < 2)%nat →
       ∃ st', resumed =
                Some (true, st',
                      {| rx := rest'; tx := tx env;
                         ticks := ticks env + length (print_dec 1) + 2 |})
              ∧ isArgOk st' = true).
Proof.
  intros clock env.
  assert (H1 : rx env = 59 :: B "1;") by reflexivity.
  assert (H2 : processLine after_2 59 = Some (kEndOfMessage, closed_2))
    by (vm_compute; reflexivity).
  assert (H3 : readInt16Arg closed_2 = Some (2, read_2))
    by (vm_compute; reflexivity).
  assert (H4 : (1 =? 2) && ArgOk read_2 = false) by reflexivity.
  assert (H5 : (0 - 0) mod 2 ^ 32 < 5000) by reflexivity.
  split; [exact H1|]. split; [exact H2|]. split; [exact H3|].
  split; [exact H4|]. split; [exact H5|].
  exact (blockedTillReply_mismatch_continues clock 44 59 47 2 5000 1 0 0
           after_2 env 59 (B "1;") closed_2 2 read_2 H1 H2 H3 H4 H5).
Defined.
End WaitResumedExample.

(** * The dispatch loop *)

Section DispatchFacts.
Import Engine Api.
Variable cb : option (CmdMessenger → option CmdMessenger).

Lemma feed_chunk_app a : ∀ st log b,
  feed_chunk cb st log (a ++ b) =
  '(st, log) ← feed_chunk cb st log a; feed_chunk cb st log b.
Proof.
  induction a as [|c a IH]; intros st log b; [done|].
  cbn [app feed_chunk].
  destruct (processLine st c) as [[ms s1]|]; [|done].
  cbn [mbind option_bind].
  destruct (is_end ms).
  - destruct (cstr_at _ _); [|done]. cbn [mbind option_bind].
    destruct (handleMessage cb s1); [|done]. cbn [mbind option_bind].
    apply IH.
  - cbn [mbind option_bind]. apply IH.
Qed.

(** Bytes that complete no frame reach no handler. *)
Lemma feed_chunk_quiet bytes : ∀ st log st',
  feed st bytes = Some (replicate (length bytes) kProccesingMessage, st') →
  feed_chunk cb st log bytes = Some (st', log).
Proof.
  induction bytes as [|c bytes IH]; intros st log st'.
  - cbn. by intros [= <-].
  - cbn [feed feed_chunk length replicate].
    destruct (processLine st c) as [[ms s1]|]; [|done].
    cbn [mbind option_bind].
    destruct (feed s1 bytes) as [[mss s2]|] eqn:E; [|done].
    cbn [mbind option_bind]. intros [= -> -> ->].
    cbn [is_end mbind option_bind]. by apply IH.
Qed.

Lemma readInt16Arg_reader st v st' :
  readInt16Arg st = Some (v, st') → same_reader st st'.
Proof. apply reads_reader. Qed.

Hypothesis Hcb : handler_ok cb.

Lemma handleMessage_reader st st' :
  handleMessage cb st = Some st' →
  bufferIndex st' = bufferIndex st ∧
  bufferLastIndex st' = bufferLastIndex st ∧
  CmdlastChar st' = CmdlastChar st ∧
  length (commandBuffer st') = length (commandBuffer st) ∧
  same_separators st st' ∧
  pauseProcessing st' = pauseProcessing st.
Proof.
  unfold handleMessage.
  destruct (readInt16Arg st) as [[id s1]|] eqn:E; [|done].
  apply readInt16Arg_reader in E. cbn [mbind option_bind].
  destruct cb as [f|] eqn:Ecb.
  - intros H. destruct (Hcb f eq_refl (set_lastCommandId (id mod 256) s1))
      as (s2 & H2 & Hr). rewrite H in H2. injection H2 as ->.
    unfold same_reader, same_separators in *. cbn in *. intuition congruence.
  - intros [= <-]. unfold same_reader, same_separators in *. cbn in *.
    intuition congruence.
Qed.

(** Neither the frame reader nor such a handler pauses the loop. *)
Lemma feed_chunk_pause bytes : ∀ st log st' log',
  feed_chunk cb st log bytes = Some (st', log') →
  pauseProcessing st' = pauseProcessing st.
Proof.
  induction bytes as [|c bytes IH]; intros st log st' log'.
  - cbn. by intros [= <- _].
  - cbn [feed_chunk].
    destruct (processLine st c) as [[ms s1]|] eqn:E; [|done].
    apply processLine_session in E as (_ & Ep & _).
    cbn [mbind option_bind].
    destruct (is_end ms).
    + destruct (cstr_at _ _); [|done]. cbn [mbind option_bind].
      destruct (handleMessage cb s1) as [s2|] eqn:Eh; [|done].
      apply handleMessage_reader in Eh as (_ & _ & _ & _ & _ & Eh).
      cbn [mbind option_bind]. intros H. apply IH in H. congruence.
    + cbn [mbind option_bind]. intros H. apply IH in H. congruence.
Qed.

(** The batches of [MAXSTREAMBUFFERSIZE] bytes are not visible: the
    loop of [feedinSerialData] is one pass over the bytes waiting. *)
Lemma feedinSerialData_loop_chunk fuel : ∀ st env log st' log',
  pauseProcessing st = false → (length (rx env) ≤ fuel)%nat →
  feed_chunk cb st log (rx env) = Some (st', log') →
  feedinSerialData_loop cb fuel st env log = Some (st', set_rx [] env, log').
Proof.
  induction fuel as [|fuel IH]; intros st env log st' log' Hp Hlen Hfc.
  - destruct env as [r t k]. cbn in Hlen. destruct r; [|cbn in Hlen; lia].
    cbn in Hfc. injection Hfc as <- <-.
    cbn. rewrite Hp. cbn. done.
  - cbn [feedinSerialData_loop]. rewrite Hp. cbn [negb andb].
    destruct (bool_decide_reflect (rx env = [])) as [Hnil|Hne]; cbn [negb].
    + rewrite Hnil in Hfc. cbn in Hfc. injection Hfc as <- <-.
      destruct env as [r t k]. cbn in Hnil. subst r. done.
    + set (n := Z.to_nat (Z.min (Z.of_nat (length (rx env)))
                                MAXSTREAMBUFFERSIZE)).
      rewrite <- (take_drop n (rx env)) in Hfc.
      rewrite feed_chunk_app in Hfc.
      destruct (feed_chunk cb st log (take n (rx env))) as [[s1 l1]|] eqn:E;
        [|done].
      cbn [mbind option_bind] in Hfc |- *.
      assert (Hn : (1 ≤ n)%nat).
      { subst n. unfold MAXSTREAMBUFFERSIZE.
        destruct (rx env); [done|]. cbn [length]. lia. }
      rewrite (IH s1 (set_rx (drop n (rx env)) env) l1 st' log').
      * by destruct env.
      * apply feed_chunk_pause in E. congruence.
      * destruct env as [r t k]. cbn [rx set_rx] in *.
        rewrite length_drop. lia.
      * by destruct env.
Qed.

(** X2.  With a handler that returns and leaves the reader alone, and
    processing not paused, [feedinSerialData] is one pass of the frame
    reader over all the bytes waiting: reading them in batches of
    [MAXSTREAMBUFFERSIZE] changes neither the calls of the handler nor
    the final state, and the transport is left empty. *)
Theorem feedinSerialData_one_pass st env st' log :
  pauseProcessing st = false →
  feed_chunk cb st [] (rx env) = Some (st', log) →
  feedinSerialData cb st env = Some (st', set_rx [] env, log).
Proof.
  intros Hp H. unfold feedinSerialData. by apply feedinSerialData_loop_chunk.
Qed.

End DispatchFacts.

Section DispatchFrames.
Import Engine Api.
Variables fs cs esc : Z.
Hypothesis Hsep : separators_ok fs cs esc.
Variable cb : option (CmdMessenger → option CmdMessenger).
Hypothesis Hcb : handler_ok cb.

Lemma scan_start stop s : ∀ l1 l2,
  l1 ≠ esc → l2 ≠ esc → s ≠ [] →
  scan esc stop l1 s = scan esc stop l2 s.
Proof.
  destruct s as [|c s]; [done|]. intros l1 l2 H1 H2 _.
  cbn [scan]. unfold Codec.isEscaped.
  destruct (Z.eqb_spec l1 esc), (Z.eqb_spec l2 esc); done.
Qed.

Lemma ready_same_reader st st' :
  ready fs cs esc st → same_reader st st' → ready fs cs esc st'.
Proof.
  unfold ready, wf, config, same_reader, same_separators.
  intuition congruence.
Qed.

(** One frame and its separator: one call of the handler, on that
    frame, with its id in [lastCommandId]. *)
Lemma atoi_lead ws s :
  Forall (λ c, isspace c = true) ws → atoi (ws ++ s) = atoi s.
Proof.
  induction 1 as [|c ws Hc _ IH]; [done|].
  rewrite <- IH. unfold atoi. cbn [app atoi_skip]. by rewrite Hc.
Qed.

Lemma dispatch_one st log fr :
  ready fs cs esc st → frame_ok fs cs esc fr →
  ∃ st', feed_chunk cb st log (frame_bytes fr ++ [cs]) =
           Some (st', log ++ [frame_bytes fr])
    ∧ delivered cb cs st [fr] st'
    ∧ ready fs cs esc st'
    ∧ lastCommandId st' = id fr mod 256.
Proof.
  intros Hready (Hlead & Hid & Htail & Hnz & (lt & Hst & Hlt) & Hlen).
  pose proof Hready as (Hwf & (Hcf & Hcc & Hce) & Hidx & Hl0).
  destruct fr as [ws n tail]. unfold frame_bytes in *.
  cbn [lead id rest] in *.
  pose proof Hsep as (He0 & Hf0 & Hfc & Hfe & Hcce & _).
  destruct (print_dec_digits n) as [Hdne Hdig]; [lia|].
  set (tok := ws ++ print_dec n).
  assert (Htne : tok ≠ []).
  { subst tok. destruct ws; [|done]. done. }
  assert (Hplain : Forall (plain fs cs esc) tok).
  { apply Forall_app. split.
    - eapply Forall_impl; [exact Hlead|]. by intros c (_ & ?).
    - eapply Forall_impl; [exact Hdig|]. by apply digit_plain. }
  assert (Hatoi : atoi tok = n).
  { subst tok. rewrite atoi_lead, atoi_print_dec; [done|].
    eapply Forall_impl; [exact Hlead|]. by intros c (? & _). }
  destruct (scan_plain_frame fs cs esc tok (CmdlastChar st))
    as (l1 & Hs1 & Hl1); [done|done|].
  assert (Hscan : ∃ l', scan esc (stop_frame cs) (CmdlastChar st)
                          (tok ++ tail) = Some l' ∧ l' ≠ esc).
  { rewrite scan_app, Hs1. cbn [mbind option_bind].
    destruct tail as [|c tail]; [by exists l1|].
    rewrite (scan_start _ _ l1 0) by done. by exists lt. }
  destruct Hscan as (l' & Hscan & Hl').
  rewrite app_assoc in Hlen |- *. fold tok in Hlen |- *.
  set (body := tok ++ tail) in *.
  assert (Hbne : body ≠ []).
  { subst body. destruct tok; done. }
  destruct (feed_frame_scan body st l')
    as (st1 & Hfeed & Hwf1 & Hcfg1 & Hi1 & Hb1 & Hms1 & Hd1 & Hc1);
    try done; try (rewrite ?Hce, ?Hcc; done).
  pose proof Hcfg1 as (Hcs1 & Hfs1 & Hes1 & _).
  pose proof Hfeed as Hwhole. rewrite Hcc in Hwhole.
  rewrite feed_app in Hfeed.
  destruct (feed st body) as [[m1 sa]|] eqn:Hfa; [|done].
  cbn [mbind option_bind feed] in Hfeed.
  destruct (processLine sa (command_separator st)) as [[ms sb]|] eqn:Hpl;
    [|done].
  cbn [mbind option_bind] in Hfeed. injection Hfeed as Hm ->.
  apply app_inj_tail in Hm as [-> ->].
  rewrite feed_chunk_app, (feed_chunk_quiet cb body st log sa Hfa).
  cbn [mbind option_bind feed_chunk]. rewrite Hcc in Hpl. rewrite Hpl.
  cbn [mbind option_bind is_end].
  assert (Htok0 : Forall (λ c, c ≠ 0) tok).
  { eapply Forall_impl; [exact Hplain|]. by intros c (? & _). }
  assert (Hbody0 : Forall (λ c, c ≠ 0) body).
  { apply Forall_app. done. }
  assert (Hbuf : ∃ post, commandBuffer st1 = [] ++ body ++ 0 :: post).
  { exists (drop (S (length body)) (commandBuffer st1)).
    rewrite <- (take_drop (S (length body)) (commandBuffer st1)) at 1.
    rewrite Hb1. cbn [app]. rewrite <- !app_assoc. done. }
  destruct Hbuf as (post & Hbuf).
  assert (Hc : cstr_at (commandBuffer st1) 0 = Some body).
  { rewrite Hbuf. by apply (cstr_at_middle [] body). }
  rewrite Hc. cbn [mbind option_bind].
  destruct (scan_plain_field fs cs esc tok 0) as (l3 & Hs3 & Hl3);
    [congruence|done|].
  assert (Hread : ∃ st2, readInt16Arg st1 = Some (n, st2)
                         ∧ isArgOk st2 = true).
  { destruct Htail as [Ht|(p & Ht)].
    - assert (Hbuf' : commandBuffer st1 = [] ++ tok ++ 0 :: post).
      { rewrite Hbuf. subst body. rewrite Ht, app_nil_r. done. }
      destruct (readInt16Arg_token st1 0 [] tok post 0 l3)
        as (st2 & Hr & _ & _ & _ & Hok & _);
        try (rewrite ?Hfs1, ?Hes1, ?Hcf, ?Hce; done);
        try (by left).
      rewrite Hatoi, wrap_signed_16 in Hr by lia. by exists st2.
    - assert (Hbuf' : commandBuffer st1 =
                        [] ++ tok ++ fs :: p ++ 0 :: post).
      { rewrite Hbuf. subst body. rewrite Ht, <- app_assoc. done. }
      destruct (readInt16Arg_token st1 0 [] tok (p ++ 0 :: post) fs l3)
        as (st2 & Hr & _ & _ & _ & Hok & _);
        try (rewrite ?Hfs1, ?Hes1, ?Hcf, ?Hce; done);
        try (by left);
        try (rewrite Hfs1, Hcf; unfold stop_field; rewrite Z.eqb_refl;
             apply orb_true_r).
      rewrite Hatoi, wrap_signed_16 in Hr by lia. by exists st2. }
  destruct Hread as (st2 & Hread & Hok2).
  assert (Hr1 : ready fs cs esc st1).
  { unfold ready, config. split_and!; congruence. }
  pose proof (readInt16Arg_reader _ _ _ Hread) as Hr2.
  assert (Hr3 : ready fs cs esc (set_lastCommandId (n mod 256) st2)).
  { eapply ready_same_reader in Hr2; [|exact Hr1]. exact Hr2. }
  assert (Hcall : ∃ st3,
            callback cb (set_lastCommandId (n mod 256) st2) = Some st3
            ∧ same_reader (set_lastCommandId (n mod 256) st2) st3).
  { destruct cb as [f|] eqn:Ecb.
    - destruct (Hcb f eq_refl (set_lastCommandId (n mod 256) st2))
        as (st3 & Hf & Hr). by exists st3.
    - eexists. split; [reflexivity|]. apply same_reader_refl. }
  destruct Hcall as (st3 & Hcall & Hr).
  unfold handleMessage. rewrite Hread. cbn [mbind option_bind].
  change (match cb with Some f => f ?s | None => Some ?s end)
    with (callback cb s).
  rewrite Hcall. cbn [mbind option_bind].
  exists st3. split_and!; [done| |by eapply ready_same_reader|].
  - eapply (delivered_cons cb cs st (mkFrame ws n tail) [] st1 st2 st3 st3);
      unfold frame_bytes; cbn [lead id rest]; rewrite ?app_assoc;
      fold tok; fold body; try done.
    constructor.
  - destruct Hr as (_ & _ & _ & _ & _ & _ & _ & _ & ->). done.
Qed.

Lemma delivered_app a : ∀ st st1 b st2,
  delivered cb cs st a st1 → delivered cb cs st1 b st2 →
  delivered cb cs st (a ++ b) st2.
Proof.
  induction a as [|fr a IH]; intros st st1 b st2 Ha Hb.
  - by inversion Ha; subst.
  - inversion Ha; subst. cbn [app]. econstructor; eauto.
Qed.

Lemma dispatch_all frames : ∀ st log,
  ready fs cs esc st → Forall (frame_ok fs cs esc) frames →
  ∃ st', feed_chunk cb st log (wire cs frames) =
           Some (st', log ++ map frame_bytes frames)
    ∧ delivered cb cs st frames st'
    ∧ ready fs cs esc st'
    ∧ lastCommandId st' =
        match list.last frames with
        | Some fr => id fr mod 256
        | None => lastCommandId st
        end.
Proof.
  induction frames as [|fr frames IH]; intros st log Hready Hok.
  - exists st. cbn. rewrite app_nil_r. split_and!; try done. constructor.
  - apply Forall_cons in Hok as [Hfr Hok].
    destruct (dispatch_one st log fr Hready Hfr)
      as (s1 & H1 & Hd1 & Hr1 & Hid1).
    destruct (IH s1 (log ++ [frame_bytes fr]) Hr1 Hok)
      as (s2 & H2 & Hd2 & Hr2 & Hid2).
    exists s2. unfold wire in *. cbn [flat_map map].
    rewrite feed_chunk_app, H1. cbn [mbind option_bind].
    rewrite H2, <- app_assoc. split_and!; [done| |done|].
    { by apply (delivered_app [fr] st s1 frames s2). }
    rewrite Hid2. destruct frames as [|fr' frames]; [done|].
    rewrite last_cons_cons.
    destruct (list.last (fr' :: frames)) eqn:E; [done|].
    by apply last_None in E.
Qed.

(** X3.  Separators pairwise distinct, none a digit, field separator
    and escape byte non-null; a reader ready on them (buffer well
    formed and empty, no escape pending); processing not paused; a
    handler that returns in every state and leaves the reader alone.
    When the bytes waiting are frames, each closed by the command
    separator and made of white space that is no separator (such as
    the CR LF a sender in new-line mode leaves), a decimal id in
    0..32767, and then nothing or a field separator and arguments
    with no null byte, no unescaped command separator and no escape
    pending at the end, 190 bytes at most: [feedinSerialData] empties
    the transport and delivers the frames in order, each once, that
    is, the reader hands the frame over whole at its separator, the
    id is read, OK, and stored in [lastCommandId] modulo 256, and the
    handler runs on that state, its result being the state the next
    frame starts from.  The reader is ready again at the end. *)
Theorem feedinSerialData_dispatches st env frames :
  ready fs cs esc st → pauseProcessing st = false →
  Forall (frame_ok fs cs esc) frames →
  rx env = wire cs frames →
  ∃ st', feedinSerialData cb st env =
           Some (st', set_rx [] env, map frame_bytes frames)
    ∧ delivered cb cs st frames st'
    ∧ ready fs cs esc st'
    ∧ lastCommandId st' =
        match list.last frames with
        | Some fr => id fr mod 256
        | None => lastCommandId st
        end.
Proof.
  intros Hready Hp Hok Hrx.
  destruct (dispatch_all frames st [] Hready Hok)
    as (st' & H & Hd & Hr & Hid).
  exists st'. split_and!; [|done|done|done].
  unfold feedinSerialData.
  apply feedinSerialData_loop_chunk; [done|done|done|].
  by rewrite Hrx.
Qed.

End DispatchFrames.

(** * Edges of the tokenizer and the writer *)

Section NullFacts.
Import Engine Api.
Variables fs cs esc : Z.
Hypothesis Hsep : separators_ok fs cs esc.

(** Every frame handed over leaves [last] null: [reset] runs after the
    frame is closed. *)
Lemma processLine_last st c ms st' :
  processLine st c = Some (ms, st') → is_end ms = true → last st' = None.
Proof.
  unfold processLine. destruct (Codec.isEscaped _ _ _ _) as [e l].
  destruct (_ && _).
  - destruct (store _ _ _); [|done]. cbn [mbind option_bind].
    intros [= <- <-] _. by destruct (0 <? _).
  - destruct (store _ _ _); [|done]. cbn [mbind option_bind].
    intros [= <- <-]. destruct (_ <=? _); cbn; done.
Qed.

(** X13.  Separators pairwise distinct, none a digit, field
    separator and escape byte non-null; a reader ready on them.  A
    frame of 1 to 190 field separators only is handed over like any
    other.  The first read on it finds no token, returns 0 and is not
    OK; it leaves [last] null, as [reset] set it when the frame was
    closed, so the next call of [next], and with it every typed read,
    dereferences the null pointer: the model has no result for it. *)
Theorem separators_only_frame st k :
  ready fs cs esc st → (1 ≤ k ≤ 190)%nat →
  ∃ st1 st2,
    feed st (replicate k fs ++ [cs]) =
      Some (replicate k kProccesingMessage ++ [kEndOfMessage], st1)
    ∧ readInt16Arg st1 = Some (0, st2) ∧ isArgOk st2 = false
    ∧ last st2 = None
    ∧ next st2 = None ∧ readInt16Arg st2 = None ∧ readStringArg st2 = None
    ∧ readBinArg 1 st2 = None.
Proof.
  intros (Hwf & (Hcf & Hcc & Hce) & Hidx & Hl0) Hk.
  destruct Hsep as (He0 & Hf0 & Hfc & Hfe & Hcce & _).
  destruct (scan_plain esc (stop_frame cs) (replicate k fs) (CmdlastChar st))
    as (l1 & Hs1 & Hl1); [done| |].
  { apply Forall_replicate. split; [done|]. unfold stop_frame.
    by apply Z.eqb_neq. }
  destruct (feed_frame_scan (replicate k fs) st l1)
    as (st1 & Hfeed & Hwf1 & Hcfg1 & Hi1 & Hb1 & Hms1 & Hd1 & Hc1);
    try done; try (rewrite ?Hce, ?Hcc; done);
    try (rewrite length_replicate; lia).
  { destruct k; [lia|done]. }
  pose proof Hcfg1 as (Hcs1 & Hfs1 & Hes1 & _).
  rewrite length_replicate in Hfeed, Hb1.
  assert (Hlast : last st1 = None).
  { rewrite feed_app in Hfeed.
    destruct (feed st (replicate k fs)) as [[m1 sa]|]; [|done].
    cbn [mbind option_bind feed] in Hfeed.
    destruct (processLine sa (command_separator st)) as [[ms sb]|] eqn:Hpl;
      [|done].
    cbn [mbind option_bind] in Hfeed. injection Hfeed as Hm ->.
    apply app_inj_tail in Hm as [_ ->]. by eapply processLine_last. }
  assert (Hbuf : commandBuffer st1 =
            [] ++ replicate k (field_separator st1)
               ++ 0 :: drop (S k) (commandBuffer st1)).
  { rewrite <- (take_drop (S k) (commandBuffer st1)) at 1.
    rewrite Hb1, Hfs1, Hcf. cbn [app]. rewrite <- !app_assoc. done. }
  destruct (next_exhausted st1 k [] (drop (S k) (commandBuffer st1)))
    as (st2 & Hn & Hcur & Hl2 & _ & Hms2 & Hd2 & _);
    try done; try (rewrite ?Hfs1, ?Hes1, ?Hcf, ?Hce; done); try (by left).
  assert (Hnext : next (set_ArgOk false st2) = None).
  { unfold next, next_default. cbn [messageState set_ArgOk dumped].
    rewrite Hms2, Hd2. unfold split_r. cbn [last set_ArgOk].
    rewrite Hl2, Hlast. done. }
  exists st1, (set_ArgOk false st2). rewrite Hcc in Hfeed.
  split; [done|].
  unfold readInt16Arg, readStringArg, readBinArg.
  rewrite Hn, Hnext. cbn [mbind option_bind]. cbn.
  split_and!; try done. congruence.
Qed.
End NullFacts.

Section BuildFacts.
Import Engine Api.
Variable clock : nat → Z.

(** X14.  While a command is being built, from [sendCmdStart] to
    [sendCmdEnd], the dispatch loop reads nothing, a second
    [sendCmdStart] does nothing, and the one-call sends are refused
    without a byte written. *)
Theorem command_in_progress cmdId st env :
  startCommand st = false →
  ∃ st1, sendCmdStart cmdId st env = (st1, print (print_dec cmdId) env)
    ∧ startCommand st1 = true ∧ pauseProcessing st1 = true
    ∧ (∀ cb e, feedinSerialData cb st1 e = Some (st1, e, []))
    ∧ (∀ id' e, sendCmdStart id' st1 e = (st1, e))
    ∧ (∀ fuel id' e, sendCmd0 clock fuel id' st1 e = Some (false, st1, e))
    ∧ (∀ fuel id' reqAc ack e,
         sendCmdAck clock fuel id' reqAc ack st1 e = Some (false, st1, e))
    ∧ (∀ fuel id' printed reqAc ack timeout e,
         sendCmd clock fuel id' printed reqAc ack timeout st1 e =
         Some (false, st1, e))
    ∧ (∀ fuel id' arg reqAc ack timeout e,
         sendBinCmd clock fuel id' arg reqAc ack timeout st1 e =
         Some (false, st1, e)).
Proof.
  intros H. eexists. unfold sendCmdStart at 1. rewrite H. cbn [negb].
  split; [reflexivity|]. cbn. split_and!; try done.
  intros cb e. unfold feedinSerialData. by destruct (length (rx e)).
Qed.

(** X15.  Once [sendCmdEnd] has returned, acknowledged or not, the
    writer is idle and an argument appended with [sendCmdArg],
    [sendCmdEscArg], [sendCmdBinArg] or [sendCmdSciArg] writes
    nothing. *)
Theorem appends_after_end fuel reqAc ackCmdId timeout st env r st' env' :
  sendCmdEnd clock fuel reqAc ackCmdId timeout st env = Some (r, st', env') →
  startCommand st' = false ∧ pauseProcessing st' = false
  ∧ (∀ a e, sendArg a st' e = e)
  ∧ (∀ arg n e, sendCmdSciArg arg n st' e = e).
Proof.
  unfold sendCmdEnd.
  destruct (if startCommand st then _ else _) as [[[a s1] e1]|]; [|done].
  cbn [mbind option_bind]. intros [= _ <- _]. cbn.
  split_and!; try done. by intros [].
Qed.
End BuildFacts.

Section SignedFacts.
Import Engine Api.
Variables fs cs esc : Z.
Hypothesis Hsep : separators_ok fs cs esc.
Variable clock : nat → Z.

Lemma wrap_signed_32 z : - 2 ^ 31 ≤ z < 2 ^ 31 → wrap_signed 32 z = z.
Proof.
  intros H. unfold wrap_signed. change (2 ^ (32 - 1)) with (2 ^ 31) in *.
  change (2 ^ 32) with (2 * 2 ^ 31). rewrite Z.mod_small by lia. lia.
Qed.

(** What [Print::print] writes for an integer: digits, behind a minus
    sign when it is negative. *)
Lemma print_dec_signed z :
  plain fs cs esc 45 →
  print_dec z ≠ [] ∧ Forall (plain fs cs esc) (print_dec z).
Proof.
  intros Hminus. destruct z as [|p|p].
  - destruct (print_dec_digits 0) as [? Hd]; [lia|]. split; [done|].
    eapply Forall_impl; [exact Hd|]. by apply digit_plain.
  - destruct (print_dec_digits (Z.pos p)) as [? Hd]; [lia|]. split; [done|].
    eapply Forall_impl; [exact Hd|]. by apply digit_plain.
  - unfold print_dec. cbn [Z.to_int NilZero.string_of_int].
    change (bytes_of_string (String "-" ?s)) with (45 :: bytes_of_string s).
    rewrite NilZero_uint_bytes. split; [done|]. constructor; [done|].
    eapply Forall_impl; [apply uint_bytes_digits|]. by apply digit_plain.
Qed.

(** A long and a char read on a token behind [k] separators. *)
Lemma readInt32Arg_token st k (pre s post : list Z) d l' :
  resumes_at st (length pre) → dumped st = true →
  escape_character st ≠ 0 → field_separator st ≠ 0 →
  field_separator st ≠ escape_character st →
  commandBuffer st = pre ++ replicate k (field_separator st) ++ s ++ d :: post →
  s ≠ [] → Forall (λ c, c ≠ 0) s →
  scan (escape_character st) (stop_field (field_separator st)) 0 s = Some l' →
  l' ≠ escape_character st → stop_field (field_separator st) d = true →
  ∃ st', readInt32Arg st = Some (wrap_signed 32 (atoi s), st')
    ∧ readCharArg st = Some (hd 0 s, st')
    ∧ readBoolArg st = Some (negb (wrap_signed 16 (atoi s) =? 0), st')
    ∧ ArgOk st' = true.
Proof.
  intros Hres Hdump Hesc Hfs Hfe Hbuf Hne Hnz Hscan Hl' Hd.
  destruct (next_token st k pre s post d l')
    as (st1 & Hn & Hcur & Hlast & Hb & Hms & Hdu & Hsp & _); try done.
  unfold readBoolArg, readInt16Arg, readInt32Arg, readCharArg. rewrite Hn.
  cbn [mbind option_bind].
  unfold token. cbn [current set_ArgOk set_dumped commandBuffer].
  rewrite Hcur. cbn [mbind option_bind]. rewrite Hb.
  replace (cstr_at (pre ++ replicate k (field_separator st) ++ s ++ 0 :: post)
             (length pre + k)) with (Some s).
  2:{ symmetry. rewrite app_assoc.
      replace (length pre + k)%nat
        with (length (pre ++ replicate k (field_separator st)))
        by (by rewrite length_app, length_replicate).
      by apply cstr_at_middle. }
  replace (load (pre ++ replicate k (field_separator st) ++ s ++ 0 :: post)
             (length pre + k)) with (Some (hd 0 s)).
  2:{ symmetry. rewrite app_assoc.
      replace (length pre + k)%nat
        with (length (pre ++ replicate k (field_separator st)))
        by (by rewrite length_app, length_replicate).
      destruct s as [|c s]; [done|]. cbn [app hd]. apply load_middle. }
  cbn [mbind option_bind]. eexists. split_and!; reflexivity.
Qed.

(** X6.  Separators pairwise distinct, none a digit, none the minus
    sign, field separator and escape byte non-null; an idle writer
    configured with them, new lines off; a reader ready on the same
    separators.  The bytes written by [sendCmd] without
    acknowledgment, for an id in 0..255 and a signed 32-bit integer
    argument whose decimal has 184 bytes at most, close one frame on
    the reader, at their last byte; [readInt16Arg] gives the command
    id, OK; then [readInt32Arg] gives the argument, [readCharArg] the
    first character of its decimal and, for an argument of 16 bits,
    [readBoolArg] whether it is non-zero, each OK. *)
Theorem sendCmd_readInt32Arg fuel cmdId arg ackCmdId timeout stw envw st :
  config fs cs esc stw → startCommand stw = false →
  print_newlines stw = false →
  ready fs cs esc st → plain fs cs esc 45 →
  0 ≤ cmdId < 256 → - 2 ^ 31 ≤ arg < 2 ^ 31 →
  (length (print_dec arg) ≤ 184)%nat →
  ∃ stw' envw' st1 st2 st3,
    sendCmd clock fuel cmdId (print_dec arg) false ackCmdId timeout stw envw
      = Some (false, stw', envw')
    ∧ feed st (written envw envw') =
        Some (replicate (length (written envw envw') - 1) kProccesingMessage
                ++ [kEndOfMessage], st1)
    ∧ readInt16Arg st1 = Some (cmdId, st2) ∧ isArgOk st2 = true
    ∧ readInt32Arg st2 = Some (arg, st3)
    ∧ readCharArg st2 = Some (hd 0 (print_dec arg), st3)
    ∧ (-32768 ≤ arg < 32768 →
       readBoolArg st2 = Some (negb (arg =? 0), st3))
    ∧ isArgOk st3 = true.
Proof.
  intros (Hwf & Hwc & Hwe) Hstart Hnl Hready Hminus Hid Harg Hlen.
  rewrite sendCmd_as_command, send_command_bytes by done.
  rewrite Hnl, Hwf, Hwc, Hwe. cbn [flat_map rendered app].
  rewrite app_nil_r.
  destruct (print_dec_signed arg Hminus) as [Hane Hplain].
  assert (Hlen1 : (length (print_dec cmdId) ≤ 5)%nat)
    by (apply print_dec_length; lia).
  destruct (receive_id_payload fs cs esc Hsep st cmdId (print_dec arg))
    as (st1 & st2 & post & Hfeed & Hr1 & Hses & Hread & Hok & Hdu & Hres & Hbuf
        & (Hf2 & Hc2 & He2)); try done; try lia.
  { intros l Hl. by apply (scan_plain_frame fs cs esc). }
  destruct Hsep as (He0 & Hf0 & Hfc & Hfe & Hcce & _).
  destruct (scan_plain_field fs cs esc (print_dec arg) 0) as (l3 & Hs3 & Hl3);
    [congruence|done|].
  assert (Hnz : Forall (λ c, c ≠ 0) (print_dec arg)).
  { eapply Forall_impl; [exact Hplain|]. by intros c (? & _). }
  destruct (readInt32Arg_token st2 0 (print_dec cmdId ++ [0]) (print_dec arg)
              post 0 l3)
    as (st3 & Hint & Hchar & Hbool & Hok3);
    try (rewrite ?Hf2, ?Hc2, ?He2; done).
  rewrite atoi_print_dec in Hint, Hbool. rewrite wrap_signed_32 in Hint by lia.
  do 5 eexists. split; [reflexivity|]. rewrite written_print.
  split_and!; try done. intros H16. by rewrite wrap_signed_16 in Hbool.
Qed.
End SignedFacts.

Section StringFacts.
Import Engine Api.
Variables fs cs esc : Z.
Hypothesis Hsep : separators_ok fs cs esc.
Variable clock : nat → Z.

(** A copy and a comparison on a token behind [k] separators. *)
Lemma copyStringArg_token st k (pre s post : list Z) d l' :
  resumes_at st (length pre) → dumped st = true →
  escape_character st ≠ 0 → field_separator st ≠ 0 →
  field_separator st ≠ escape_character st →
  commandBuffer st = pre ++ replicate k (field_separator st) ++ s ++ d :: post →
  s ≠ [] → Forall (λ c, c ≠ 0) s →
  scan (escape_character st) (stop_field (field_separator st)) 0 s = Some l' →
  l' ≠ escape_character st → stop_field (field_separator st) d = true →
  (∀ size, ∃ st', copyStringArg st (S size) = Some (Some (take size s), st')
                  ∧ ArgOk st' = true) ∧
  (∀ string, ∃ st',
     compareStringArg st string =
       Some (if bool_decide (string = s) then 1 else 0, st')
     ∧ ArgOk st' = bool_decide (string = s)).
Proof.
  intros Hres Hdump Hesc Hfs Hfe Hbuf Hne Hnz Hscan Hl' Hd.
  destruct (next_token st k pre s post d l')
    as (st1 & Hn & Hcur & Hlast & Hb & Hms & Hdu & Hsp & _); try done.
  assert (Htok : ∀ a b, token (set_ArgOk a (set_dumped b st1)) = Some s
                        ∧ token st1 = Some s).
  { intros a b. unfold token. cbn [current set_ArgOk set_dumped commandBuffer].
    rewrite Hcur. cbn [mbind option_bind]. rewrite Hb.
    rewrite app_assoc.
    replace (length pre + k)%nat
      with (length (pre ++ replicate k (field_separator st)))
      by (by rewrite length_app, length_replicate).
    by rewrite cstr_at_middle. }
  unfold copyStringArg, compareStringArg. rewrite Hn.
  cbn [mbind option_bind]. split.
  - intros size. rewrite (proj1 (Htok true true)). cbn [mbind option_bind].
    eexists. split; reflexivity.
  - intros string. rewrite (proj2 (Htok true true)). cbn [mbind option_bind].
    destruct (bytes_eqb string s) eqn:E.
    + apply bytes_eqb_eq in E. rewrite bool_decide_eq_true_2 by done.
      eexists. split; reflexivity.
    + rewrite bool_decide_eq_false_2.
      * eexists. split; reflexivity.
      * intros Heq. apply bytes_eqb_eq in Heq. congruence.
Qed.

(** X16.  Separators pairwise distinct, none a digit, field
    separator and escape byte non-null; an idle writer configured
    with them, new lines off; a reader ready on the same separators.
    The bytes written by [sendCmd] without acknowledgment, for an id
    in 0..255 and a printed argument that is not empty, holds no null,
    separator or escape byte, and fits the frame (digits of the id,
    one separator and the argument within 190 bytes), close one frame
    on the reader, at their last byte, and [readInt16Arg] gives the
    command id.  From there [copyStringArg] into a buffer of [size]
    bytes, [size] at least 1, leaves the first [size - 1] bytes of the
    argument and is OK, and [compareStringArg] returns 1 and is OK
    exactly when the string given equals the argument byte for byte,
    and returns 0 and is not OK otherwise. *)
Theorem sendCmd_copy_compare fuel cmdId printed ackCmdId timeout stw envw st :
  config fs cs esc stw → startCommand stw = false →
  print_newlines stw = false →
  ready fs cs esc st →
  0 ≤ cmdId < 256 → printed ≠ [] → Forall (plain fs cs esc) printed →
  (length (print_dec cmdId) + 1 + length printed ≤ 190)%nat →
  ∃ stw' envw' st1 st2,
    sendCmd clock fuel cmdId printed false ackCmdId timeout stw envw
      = Some (false, stw', envw')
    ∧ feed st (written envw envw') =
        Some (replicate (length (written envw envw') - 1) kProccesingMessage
                ++ [kEndOfMessage], st1)
    ∧ readInt16Arg st1 = Some (cmdId, st2)
    ∧ (∀ size, ∃ st3,
         copyStringArg st2 (S size) = Some (Some (take size printed), st3)
         ∧ isArgOk st3 = true)
    ∧ (∀ string, ∃ st3,
         compareStringArg st2 string =
           Some (if bool_decide (string = printed) then 1 else 0, st3)
         ∧ isArgOk st3 = bool_decide (string = printed)).
Proof.
  intros (Hwf & Hwc & Hwe) Hstart Hnl Hready Hid Hne Hplain Hlen.
  rewrite sendCmd_as_command, send_command_bytes by done.
  rewrite Hnl, Hwf, Hwc, Hwe. cbn [flat_map rendered app].
  rewrite app_nil_r.
  destruct (receive_id_payload fs cs esc Hsep st cmdId printed)
    as (st1 & st2 & post & Hfeed & Hr1 & Hses & Hread & Hok & Hdu & Hres & Hbuf
        & (Hf2 & Hc2 & He2)); try done; try lia.
  { intros l Hl. by apply (scan_plain_frame fs cs esc). }
  destruct Hsep as (He0 & Hf0 & Hfc & Hfe & Hcce & _).
  destruct (scan_plain_field fs cs esc printed 0) as (l3 & Hs3 & Hl3);
    [congruence|done|].
  assert (Hnz : Forall (λ c, c ≠ 0) printed).
  { eapply Forall_impl; [exact Hplain|]. by intros c (? & _). }
  destruct (copyStringArg_token st2 0 (print_dec cmdId ++ [0]) printed post 0 l3)
    as (Hcopy & Hcmp); try (rewrite ?Hf2, ?Hc2, ?He2; done).
  do 4 eexists. split; [reflexivity|]. rewrite written_print.
  split_and!; done.
Qed.
End StringFacts.

(** * Instances on the default separators *)

Section Instances.
Import Engine Api.

(** The separators of the constructor's defaults, and a fresh engine. *)
Lemma separators_ok_default : separators_ok 44 59 47.
Proof. unfold separators_ok. split_and!; done. Qed.

Lemma ready_init fs cs esc : esc ≠ 0 → ready fs cs esc (init fs cs esc).
Proof.
  intros H. split; [apply wf_init|]. split; [done|]. split; [done|].
  cbn. congruence.
Qed.

Lemma config_init fs cs esc : config fs cs esc (init fs cs esc).
Proof. done. Qed.

Lemma plain_default c :
  negb ((c =? 0) || (c =? 44) || (c =? 59) || (c =? 47)) = true →
  plain 44 59 47 c.
Proof.
  intros H. apply negb_true_iff in H.
  repeat (apply orb_false_iff in H as [H ?]).
  unfold plain. split_and!; by apply Z.eqb_neq.
Qed.

Lemma handler_ok_reads :
  handler_ok (Some (λ st, Some (default st (snd <$> readStringArg st)))).
Proof.
  intros f [= <-] st. eexists. split; [reflexivity|].
  destruct (readStringArg st) as [[v st']|] eqn:E; cbn.
  - by apply (reads_reader st) in E.
  - apply same_reader_refl.
Qed.

Lemma received_fields_in_order_witness :
  let st := init 44 59 47 in
  let items := [(0%nat, B "ab"); (2%nat, B "c/,d")] in
  let body := fields_bytes 44 items in
  ready 44 59 47 st ∧
  Forall (λ kf, field_ok 44 47 kf.2) items ∧
  body ≠ [] ∧ (length body ≤ 190)%nat ∧
  scan 47 (stop_frame 59) (CmdlastChar st) body = Some 100 ∧ 100 ≠ 47 ∧
  ∃ st1 st2,
    feed st (body ++ [59]) =
      Some (replicate (length body) kProccesingMessage ++ [kEndOfMessage], st1)
    ∧ read_strings 3 st1 = Some (take 3 (map snd items), st2)
    ∧ ((length items < 3)%nat → isArgOk st2 = false).
Proof.
  intros st items body.
  assert (H1 : ready 44 59 47 st) by (by apply ready_init).
  assert (H2 : Forall (λ kf, field_ok 44 47 kf.2) items).
  { repeat constructor; try done; by eexists. }
  assert (H3 : body ≠ []) by done.
  assert (H4 : (length body ≤ 190)%nat) by (vm_compute; lia).
  assert (H5 : scan 47 (stop_frame 59) (CmdlastChar st) body = Some 100)
    by reflexivity.
  assert (H6 : 100 ≠ 47) by done.
  split_and!; try done.
  exact (received_fields_in_order 44 59 47 separators_ok_default st items 3 100
           H1 H2 H3 H4 H5 H6).
Defined.

Lemma sendCmd_readInt16Arg_witness :
  let stw := init 44 59 47 in
  let st := init 44 59 47 in
  let envw := mkEnv [] [] 0 in
  config 44 59 47 stw ∧ startCommand stw = false ∧
  print_newlines stw = false ∧ ready 44 59 47 st ∧
  0 ≤ 7 < 256 ∧ 0 ≤ 1234 < 32768 ∧
  ∃ stw' envw' st1 st2 st3,
    sendCmd (λ _, 0) 0 7 (print_dec 1234) false 1 5000 stw envw
      = Some (false, stw', envw')
    ∧ feed st (written envw envw') =
        Some (replicate (length (written envw envw') - 1) kProccesingMessage
                ++ [kEndOfMessage], st1)
    ∧ readInt16Arg st1 = Some (7, st2) ∧ isArgOk st2 = true
    ∧ readInt16Arg st2 = Some (1234, st3) ∧ isArgOk st3 = true.
Proof.
  intros stw st envw.
  assert (H1 : config 44 59 47 stw) by done.
  assert (H2 : startCommand stw = false) by reflexivity.
  assert (H3 : print_newlines stw = false) by reflexivity.
  assert (H4 : ready 44 59 47 st) by (by apply ready_init).
  assert (H5 : 0 ≤ 7 < 256) by lia.
  assert (H6 : 0 ≤ 1234 < 32768) by lia.
  split_and!; try done.
  exact (sendCmd_readInt16Arg 44 59 47 separators_ok_default (λ _, 0) 0 7 1234
           1 5000 stw envw st H1 H2 H3 H4 H5 H6).
Defined.

Lemma sendCmd_readStringArg_witness :
  let stw := init 44 59 47 in
  let st := init 44 59 47 in
  let envw := mkEnv [] [] 0 in
  let printed := B "hello" in
  config 44 59 47 stw ∧ startCommand stw = false ∧
  print_newlines stw = false ∧ ready 44 59 47 st ∧
  0 ≤ 7 < 256 ∧ printed ≠ [] ∧ Forall (plain 44 59 47) printed ∧
  (length (print_dec 7) + 1 + length printed ≤ 190)%nat ∧
  ∃ stw' envw' st1 st2 st3 p,
    sendCmd (λ _, 0) 0 7 printed false 1 5000 stw envw
      = Some (false, stw', envw')
    ∧ feed st (written envw envw') =
        Some (replicate (length (written envw envw') - 1) kProccesingMessage
                ++ [kEndOfMessage], st1)
    ∧ readInt16Arg st1 = Some (7, st2) ∧ isArgOk st2 = true
    ∧ readStringArg st2 = Some (Some p, st3) ∧ isArgOk st3 = true
    ∧ cstr_at (commandBuffer st3) p = Some printed.
Proof.
  intros stw st envw printed.
  assert (H1 : config 44 59 47 stw) by done.
  assert (H2 : startCommand stw = false) by reflexivity.
  assert (H3 : print_newlines stw = false) by reflexivity.
  assert (H4 : ready 44 59 47 st) by (by apply ready_init).
  assert (H5 : 0 ≤ 7 < 256) by lia.
  assert (H6 : printed ≠ []) by done.
  assert (H7 : Forall (plain 44 59 47) printed)
    by (repeat constructor; by apply plain_default).
  assert (H8 : (length (print_dec 7) + 1 + length printed ≤ 190)%nat)
    by (vm_compute; lia).
  split_and!; try done.
  exact (sendCmd_readStringArg 44 59 47 separators_ok_default (λ _, 0) 0 7
           printed 1 5000 stw envw st H1 H2 H3 H4 H5 H6 H7 H8).
Defined.

Lemma sendBinCmd_readBinArg_witness :
  let stw := init 44 59 47 in
  let st := init 44 59 47 in
  let envw := mkEnv [] [] 0 in
  let value := [0; 44; 59; 47; 200] in
  config 44 59 47 stw ∧ startCommand stw = false ∧
  print_newlines stw = false ∧ ready 44 59 47 st ∧
  0 ≤ 7 < 256 ∧ value ≠ [] ∧
  (length (print_dec 7) + 1
   + length (flat_map (Codec.printEsc 44 59 47) value) ≤ 190)%nat ∧
  ∃ stw' envw' st1 st2 st3,
    sendBinCmd (λ _, 0) 0 7 value false 1 5000 stw envw
      = Some (false, stw', envw')
    ∧ feed st (written envw envw') =
        Some (replicate (length (written envw envw') - 1) kProccesingMessage
                ++ [kEndOfMessage], st1)
    ∧ readInt16Arg st1 = Some (7, st2) ∧ isArgOk st2 = true
    ∧ readBinArg (length value) st2 = Some (value, st3).
Proof.
  intros stw st envw value.
  assert (H1 : config 44 59 47 stw) by done.
  assert (H2 : startCommand stw = false) by reflexivity.
  assert (H3 : print_newlines stw = false) by reflexivity.
  assert (H4 : ready 44 59 47 st) by (by apply ready_init).
  assert (H5 : 0 ≤ 7 < 256) by lia.
  assert (H6 : value ≠ []) by done.
  assert (H7 : (length (print_dec 7) + 1
     + length (flat_map (Codec.printEsc 44 59 47) value) ≤ 190)%nat)
    by (vm_compute; lia).
  split_and!; try done.
  exact (sendBinCmd_readBinArg 44 59 47 separators_ok_default (λ _, 0) 0 7
           value 1 5000 stw envw st H1 H2 H3 H4 H5 H6 H7).
Defined.

Lemma send_escaped_read_unescaped_witness :
  let stw := init 44 59 47 in
  let st := init 44 59 47 in
  let envw := mkEnv [] [] 0 in
  let args := [B "a,b"; B "c;/"] in
  config 44 59 47 stw ∧ startCommand stw = false ∧
  print_newlines stw = false ∧ ready 44 59 47 st ∧
  0 ≤ 7 < 256 ∧ args ≠ [] ∧
  Forall (λ a, a ≠ [] ∧ Forall (λ c, c ≠ 0) a) args ∧
  (length (fields_bytes 44 (escaped_fields 44 59 47 args)) ≤ 184)%nat ∧
  ∃ stw' envw' st1 st2 st3,
    send_command (λ _, 0) 0 7 (map ArgEscaped args) false 1 5000
      stw envw = Some (false, stw', envw')
    ∧ feed st (written envw envw') =
        Some (replicate (length (written envw envw') - 1) kProccesingMessage
                ++ [kEndOfMessage], st1)
    ∧ readInt16Arg st1 = Some (7, st2) ∧ isArgOk st2 = true
    ∧ read_unescaped 3 st2 = Some (take 3 args, st3)
    ∧ ((length args < 3)%nat → isArgOk st3 = false).
Proof.
  intros stw st envw args.
  assert (H1 : config 44 59 47 stw) by done.
  assert (H2 : startCommand stw = false) by reflexivity.
  assert (H3 : print_newlines stw = false) by reflexivity.
  assert (H4 : ready 44 59 47 st) by (by apply ready_init).
  assert (H5 : 0 ≤ 7 < 256) by lia.
  assert (H6 : args ≠ []) by done.
  assert (H7 : Forall (λ a, a ≠ [] ∧ Forall (λ c, c ≠ 0) a) args)
    by (repeat constructor; done).
  assert (H8 : (length (fields_bytes 44 (escaped_fields 44 59 47 args))
                ≤ 184)%nat) by (vm_compute; lia).
  split_and!; try done.
  exact (send_escaped_read_unescaped 44 59 47 separators_ok_default (λ _, 0)
           0 7 args 1 5000 stw envw st 3 H1 H2 H3 H4 H5 H6 H7 H8).
Defined.

Lemma blockedTillReply_ack_witness :
  let clock := λ _ : nat, 0 in
  let st := init 44 59 47 in
  let env := mkEnv (B "12;3;") (B "x") 4 in
  ready 44 59 47 st ∧ 0 ≤ 12 < 256 ∧
  rx env = print_dec 12 ++ 59 :: B "3;" ∧
  (∀ j, (j ≤ length (print_dec 12))%nat →
        (clock (ticks env + j)%nat - clock (ticks env)) mod 2 ^ 32 < 5000) ∧
  (length (print_dec 12) < 9)%nat ∧
  ∃ st',
    blockedTillReply clock 9 5000 12 st env =
    Some (true, st',
          {| rx := B "3;"; tx := tx env;
             ticks := ticks env + length (print_dec 12) + 2 |})
    ∧ isArgOk st' = true.
Proof.
  intros clock st env.
  assert (H1 : ready 44 59 47 st) by (by apply ready_init).
  assert (H2 : 0 ≤ 12 < 256) by lia.
  assert (H3 : rx env = print_dec 12 ++ 59 :: B "3;") by reflexivity.
  assert (H4 : ∀ j, (j ≤ length (print_dec 12))%nat →
        (clock (ticks env + j)%nat - clock (ticks env)) mod 2 ^ 32 < 5000)
    by (intros j _; reflexivity).
  assert (H5 : (length (print_dec 12) < 9)%nat) by (vm_compute; lia).
  split_and!; try done.
  exact (blockedTillReply_ack 44 59 47 separators_ok_default clock 9 5000 12
           st env (B "3;") H1 H2 H3 H4 H5).
Defined.

Lemma send_command_acknowledged_witness :
  let clock := λ _ : nat, 0 in
  let st := init 44 59 47 in
  let env := mkEnv (B "1;9;") [] 0 in
  let args := [ArgPrinted (B "on")] in
  ready 44 59 47 st ∧ startCommand st = false ∧ 0 ≤ 1 < 256 ∧
  rx env = print_dec 1 ++ 59 :: B "9;" ∧
  (∀ j, (j ≤ length (print_dec 1))%nat →
        (clock (ticks env + j)%nat - clock (ticks env)) mod 2 ^ 32 < 5000) ∧
  (length (print_dec 1) < 9)%nat ∧
  ∃ st' env',
    send_command clock 9 7 args true 1 5000 st env
      = Some (true, st', env')
    ∧ written env env' =
        print_dec 7 ++
        flat_map (λ a, 44 :: rendered 44 59 47 a) args ++
        59 :: (if print_newlines st then [13; 10] else [])
    ∧ rx env' = B "9;"
    ∧ startCommand st' = false ∧ pauseProcessing st' = false.
Proof.
  intros clock st env args.
  assert (H1 : ready 44 59 47 st) by (by apply ready_init).
  assert (H2 : startCommand st = false) by reflexivity.
  assert (H3 : 0 ≤ 1 < 256) by lia.
  assert (H4 : rx env = print_dec 1 ++ 59 :: B "9;") by reflexivity.
  assert (H5 : ∀ j, (j ≤ length (print_dec 1))%nat →
        (clock (ticks env + j)%nat - clock (ticks env)) mod 2 ^ 32 < 5000)
    by (intros j _; reflexivity).
  assert (H6 : (length (print_dec 1) < 9)%nat) by (vm_compute; lia).
  split_and!; try done.
  exact (send_command_acknowledged 44 59 47 separators_ok_default clock 9 7
           args 1 5000 st env (B "9;") H1 H2 H3 H4 H5 H6).
Defined.

Lemma feedinSerialData_one_pass_witness :
  let cb := Some (λ st, Some (default st (snd <$> readStringArg st))) in
  let st := init 44 59 47 in
  let env := mkEnv (concat (replicate 130 (B "7,a;"))) [] 0 in
  handler_ok cb ∧ pauseProcessing st = false ∧
  ∃ st' log,
    feed_chunk cb st [] (rx env) = Some (st', log) ∧
    feedinSerialData cb st env = Some (st', set_rx [] env, log).
Proof.
  intros cb st env.
  assert (H1 : handler_ok cb) by apply handler_ok_reads.
  assert (H2 : pauseProcessing st = false) by reflexivity.
  assert (H3 : ∃ st' log, feed_chunk cb st [] (rx env) = Some (st', log))
    by (do 2 eexists; vm_compute; reflexivity).
  split_and!; try done.
  destruct H3 as (st' & log & H3). exists st', log. split; [exact H3|].
  exact (feedinSerialData_one_pass cb H1 st env st' log H2 H3).
Defined.

Lemma feedinSerialData_dispatches_witness :
  let cb := Some (λ st, Some (default st (snd <$> readStringArg st))) in
  let st := init 44 59 47 in
  let frames := [mkFrame [] 7 (B ",ab"); mkFrame [13; 10] 300 []] in
  let env := mkEnv (wire 59 frames) [] 0 in
  handler_ok cb ∧ ready 44 59 47 st ∧ pauseProcessing st = false ∧
  Forall (frame_ok 44 59 47) frames ∧ rx env = wire 59 frames ∧
  ∃ st', feedinSerialData cb st env =
           Some (st', set_rx [] env, map frame_bytes frames)
    ∧ delivered cb 59 st frames st'
    ∧ ready 44 59 47 st'
    ∧ lastCommandId st' =
        match list.last frames with
        | Some fr => id fr mod 256
        | None => lastCommandId st
        end.
Proof.
  intros cb st frames env.
  assert (H1 : handler_ok cb) by apply handler_ok_reads.
  assert (H2 : ready 44 59 47 st) by (by apply ready_init).
  assert (H3 : pauseProcessing st = false) by reflexivity.
  assert (H4 : Forall (frame_ok 44 59 47) frames).
  { apply Forall_cons. split; [|apply Forall_cons; split; [|constructor]];
      unfold frame_ok; cbn [lead id rest]; split_and!.
    - constructor.
    - lia.
    - lia.
    - right. by eexists.
    - repeat constructor; done.
    - by eexists.
    - vm_compute; lia.
    - repeat (constructor; [split; [reflexivity|by apply plain_default]|]).
      constructor.
    - lia.
    - lia.
    - by left.
    - constructor.
    - by eexists.
    - vm_compute; lia. }
  assert (H5 : rx env = wire 59 frames) by reflexivity.
  split_and!; try done.
  exact (feedinSerialData_dispatches 44 59 47 separators_ok_default cb H1
           st env frames H2 H3 H4 H5).
Defined.

Lemma separators_only_frame_witness :
  let st := init 44 59 47 in
  ready 44 59 47 st ∧ (1 ≤ 2 ≤ 190)%nat ∧
  ∃ st1 st2,
    feed st (replicate 2 44 ++ [59]) =
      Some (replicate 2 kProccesingMessage ++ [kEndOfMessage], st1)
    ∧ readInt16Arg st1 = Some (0, st2) ∧ isArgOk st2 = false
    ∧ last st2 = None
    ∧ next st2 = None ∧ readInt16Arg st2 = None ∧ readStringArg st2 = None
    ∧ readBinArg 1 st2 = None.
Proof.
  intros st.
  assert (H1 : ready 44 59 47 st) by (by apply ready_init).
  assert (H2 : (1 ≤ 2 ≤ 190)%nat) by lia.
  split; [exact H1|]. split; [exact H2|].
  exact (separators_only_frame 44 59 47 separators_ok_default st 2 H1 H2).
Defined.

Lemma command_in_progress_witness :
  let clock := λ _ : nat, 0 in
  let st := init 44 59 47 in
  let env := mkEnv (B "1;") [] 0 in
  startCommand st = false ∧
  ∃ st1, sendCmdStart 7 st env = (st1, print (print_dec 7) env)
    ∧ startCommand st1 = true ∧ pauseProcessing st1 = true
    ∧ (∀ cb e, feedinSerialData cb st1 e = Some (st1, e, []))
    ∧ (∀ id' e, sendCmdStart id' st1 e = (st1, e))
    ∧ (∀ fuel id' e, sendCmd0 clock fuel id' st1 e = Some (false, st1, e))
    ∧ (∀ fuel id' reqAc ack e,
         sendCmdAck clock fuel id' reqAc ack st1 e = Some (false, st1, e))
    ∧ (∀ fuel id' printed reqAc ack timeout e,
         sendCmd clock fuel id' printed reqAc ack timeout st1 e =
         Some (false, st1, e))
    ∧ (∀ fuel id' arg reqAc ack timeout e,
         sendBinCmd clock fuel id' arg reqAc ack timeout st1 e =
         Some (false, st1, e)).
Proof.
  intros clock st env.
  assert (H : startCommand st = false) by reflexivity.
  split; [exact H|].
  exact (command_in_progress clock 7 st env H).
Defined.

Lemma appends_after_end_witness :
  let clock := λ _ : nat, 0 in
  let st := set_pauseProcessing true (set_startCommand true (init 44 59 47)) in
  let env := mkEnv [] (B "7,a") 0 in
  let st' := set_startCommand false (set_pauseProcessing false st) in
  let env' := print [59] env in
  sendCmdEnd clock 0 false 1 5000 st env = Some (false, st', env') ∧
  startCommand st' = false ∧ pauseProcessing st' = false
  ∧ (∀ a e, sendArg a st' e = e)
  ∧ (∀ arg n e, sendCmdSciArg arg n st' e = e).
Proof.
  intros clock st env st' env'.
  assert (H : sendCmdEnd clock 0 false 1 5000 st env = Some (false, st', env'))
    by reflexivity.
  split; [exact H|].
  exact (appends_after_end clock 0 false 1 5000 st env false st' env' H).
Defined.

Lemma sendCmd_readInt32Arg_witness :
  let stw := init 44 59 47 in
  let st := init 44 59 47 in
  let envw := mkEnv [] [] 0 in
  config 44 59 47 stw ∧ startCommand stw = false ∧
  print_newlines stw = false ∧ ready 44 59 47 st ∧ plain 44 59 47 45 ∧
  0 ≤ 7 < 256 ∧ - 2 ^ 31 ≤ -123456 < 2 ^ 31 ∧
  (length (print_dec (-123456)) ≤ 184)%nat ∧
  ∃ stw' envw' st1 st2 st3,
    sendCmd (λ _, 0) 0 7 (print_dec (-123456)) false 1 5000 stw envw
      = Some (false, stw', envw')
    ∧ feed st (written envw envw') =
        Some (replicate (length (written envw envw') - 1) kProccesingMessage
                ++ [kEndOfMessage], st1)
    ∧ readInt16Arg st1 = Some (7, st2) ∧ isArgOk st2 = true
    ∧ readInt32Arg st2 = Some (-123456, st3)
    ∧ readCharArg st2 = Some (hd 0 (print_dec (-123456)), st3)
    ∧ (-32768 ≤ -123456 < 32768 →
       readBoolArg st2 = Some (negb (-123456 =? 0), st3))
    ∧ isArgOk st3 = true.
Proof.
  intros stw st envw.
  assert (H1 : config 44 59 47 stw) by done.
  assert (H2 : startCommand stw = false) by reflexivity.
  assert (H3 : print_newlines stw = false) by reflexivity.
  assert (H4 : ready 44 59 47 st) by (by apply ready_init).
  assert (H5 : plain 44 59 47 45) by (by apply plain_default).
  assert (H6 : 0 ≤ 7 < 256) by lia.
  assert (H7 : - 2 ^ 31 ≤ -123456 < 2 ^ 31) by lia.
  assert (H8 : (length (print_dec (-123456)) ≤ 184)%nat) by (vm_compute; lia).
  split_and!; try done.
  exact (sendCmd_readInt32Arg 44 59 47 separators_ok_default (λ _, 0) 0 7
           (-123456) 1 5000 stw envw st H1 H2 H3 H4 H5 H6 H7 H8).
Defined.

Lemma sendCmd_copy_compare_witness :
  let stw := init 44 59 47 in
  let st := init 44 59 47 in
  let envw := mkEnv [] [] 0 in
  let printed := B "hello" in
  config 44 59 47 stw ∧ startCommand stw = false ∧
  print_newlines stw = false ∧ ready 44 59 47 st ∧
  0 ≤ 7 < 256 ∧ printed ≠ [] ∧ Forall (plain 44 59 47) printed ∧
  (length (print_dec 7) + 1 + length printed ≤ 190)%nat ∧
  ∃ stw' envw' st1 st2,
    sendCmd (λ _, 0) 0 7 printed false 1 5000 stw envw
      = Some (false, stw', envw')
    ∧ feed st (written envw envw') =
        Some (replicate (length (written envw envw') - 1) kProccesingMessage
                ++ [kEndOfMessage], st1)
    ∧ readInt16Arg st1 = Some (7, st2)
    ∧ (∀ size, ∃ st3,
         copyStringArg st2 (S size) = Some (Some (take size printed), st3)
         ∧ isArgOk st3 = true)
    ∧ (∀ string, ∃ st3,
         compareStringArg st2 string =
           Some (if bool_decide (string = printed) then 1 else 0, st3)
         ∧ isArgOk st3 = bool_decide (string = printed)).
Proof.
  intros stw st envw printed.
  assert (H1 : config 44 59 47 stw) by done.
  assert (H2 : startCommand stw = false) by reflexivity.
  assert (H3 : print_newlines stw = false) by reflexivity.
  assert (H4 : ready 44 59 47 st) by (by apply ready_init).
  assert (H5 : 0 ≤ 7 < 256) by lia.
  assert (H6 : printed ≠ []) by done.
  assert (H7 : Forall (plain 44 59 47) printed)
    by (repeat constructor; by apply plain_default).
  assert (H8 : (length (print_dec 7) + 1 + length printed ≤ 190)%nat)
    by (vm_compute; lia).
  do 8 (split; [assumption|]).
  exact (sendCmd_copy_compare 44 59 47 separators_ok_default (λ _, 0) 0 7
           printed 1 5000 stw envw st H1 H2 H3 H4 H5 H6 H7 H8).
Defined.
End Instances.
